(** * Outline extraction from typographic signals: [1_a.py]

    A shallow embedding of [PDFOutlineExtractor] (file [Challenge 1)a/1_a.py])
    and the properties of its pipeline: line merging, font statistics,
    heading classification, level assignment, de-duplication, title
    selection and the per-document orchestration.

    Modelling conventions.
    - Python floats (font sizes, coordinates) are the rationals they denote,
      compared with [Qeq_bool]/[Qle_bool] exactly as [==]/[<=] compare finite
      floats; the rounding of the float divisions is not modelled.
    - Text is a [string] over the ASCII repertoire; [str.isspace],
      [str.isdigit], [str.isupper] and the regular-expression classes are
      their ASCII restrictions.
    - The records the program passes around are Python dicts.  A raw text
      element and a merged line are two shapes of one dict: the raw element
      has the key ["x"] and no ["has_bold"], the merged line has ["has_bold"]
      and no ["x"].  A missing key is [None] in the record and reading it
      raises [KeyError], as [elem["x"]] does.  Keys that no function of the
      pipeline reads (font, bbox, y, width, height, page_width, page_height)
      are left out.
    - Exceptions are values of [result]; the orchestration code, which
      opens and closes documents, prints and writes files, runs in a state
      monad over [World].  Whether the output directory can be made and an
      output file written is given by the machine, as is what the decoder
      yields for a path.  The prints of the debug mode, which [main] leaves
      off, are left out, and so is [detect_document_type], which nothing
      calls. *)

From Stdlib Require Import ZArith QArith Qround Lia List SetoidList SetoidPermutation
  String Ascii Bool.
From Stdlib Require Import DecimalString Lqa Qabs Qpower.
From stdpp Require Import gmap strings list sorting.

Local Open Scope Z_scope.

(** ** Exceptions *)

Inductive exn : Type :=
| ZeroDivisionError
| KeyError (key : string)
| ValueError
| IndexError
| DecoderError (msg : string)
| OSError (msg : string).

Inductive result (A : Type) : Type :=
| Ok (a : A)
| Raise (e : exn).
Arguments Ok {A} a.
Arguments Raise {A} e.

Definition rbind {A B} (m : result A) (k : A -> result B) : result B :=
  match m with
  | Ok a => k a
  | Raise e => Raise e
  end.

Notation "'let*' x ':=' m 'in' k" := (rbind m (fun x => k))
  (at level 10, x name, m at level 100, k at level 200).

(** The concatenation of the lists a fallible loop body yields. *)
Fixpoint rflat_map {A B} (f : A -> result (list B)) (l : list A) : result (list B) :=
  match l with
  | [] => Ok []
  | a :: l' => let* bs := f a in let* rest := rflat_map f l' in Ok (bs ++ rest)
  end.

Fixpoint rmap {A B} (f : A -> result B) (l : list A) : result (list B) :=
  match l with
  | [] => Ok []
  | a :: l' => let* b := f a in let* bs := rmap f l' in Ok (b :: bs)
  end.

(** ** Numbers *)

Definition Qlt_bool (a b : Q) : bool := negb (Qle_bool b a).

(** Python's [round] on a float: nearest integer, ties to the even one. *)
Definition py_round (q : Q) : Z :=
  let f := Qfloor q in
  match (q - inject_Z f ?= 1 # 2)%Q with
  | Lt => f
  | Gt => f + 1
  | Eq => if Z.even f then f else f + 1
  end.

(** Float division, which raises on a zero divisor. *)
Definition py_div (a b : Q) : result Q :=
  if Qeq_bool b 0 then Raise ZeroDivisionError else Ok (a / b)%Q.

(** ** Text *)

(** [str.isspace] on ASCII: TAB..CR, FS..US and the space. *)
Definition is_space (c : ascii) : bool :=
  let n := nat_of_ascii c in
  ((9 <=? n)%nat && (n <=? 13)%nat) || ((28 <=? n)%nat && (n <=? 32)%nat).

Definition is_digit (c : ascii) : bool :=
  let n := nat_of_ascii c in (48 <=? n)%nat && (n <=? 57)%nat.

Definition is_upper (c : ascii) : bool :=
  let n := nat_of_ascii c in (65 <=? n)%nat && (n <=? 90)%nat.

Definition is_lower (c : ascii) : bool :=
  let n := nat_of_ascii c in (97 <=? n)%nat && (n <=? 122)%nat.

Definition to_upper (c : ascii) : ascii :=
  if is_lower c then ascii_of_nat (nat_of_ascii c - 32) else c.

Definition to_lower (c : ascii) : ascii :=
  if is_upper c then ascii_of_nat (nat_of_ascii c + 32) else c.

(** [re.sub(r'\s+', ' ', s)]; [in_run] tells that the previous character
    was white space, whose run is already replaced. *)
Fixpoint sub_ws (in_run : bool) (s : string) : string :=
  match s with
  | EmptyString => EmptyString
  | String c s' =>
      if is_space c
      then (if in_run then sub_ws true s' else String " " (sub_ws true s'))
      else String c (sub_ws false s')
  end.

Fixpoint lstrip (s : string) : string :=
  match s with
  | EmptyString => EmptyString
  | String c s' => if is_space c then lstrip s' else s
  end.

Fixpoint rstrip (s : string) : string :=
  match s with
  | EmptyString => EmptyString
  | String c s' =>
      match rstrip s' with
      | EmptyString => if is_space c then EmptyString else String c EmptyString
      | r => String c r
      end
  end.

Definition strip (s : string) : string := rstrip (lstrip s).

Definition str_empty (s : string) : bool :=
  match s with EmptyString => true | _ => false end.

(** [sep.join(parts)] *)
Fixpoint join (sep : string) (parts : list string) : string :=
  match parts with
  | [] => ""
  | [p] => p
  | p :: rest => p +:+ sep +:+ join sep rest
  end.

Fixpoint str_all (p : ascii -> bool) (s : string) : bool :=
  match s with
  | EmptyString => true
  | String c s' => p c && str_all p s'
  end.

Fixpoint str_any (p : ascii -> bool) (s : string) : bool :=
  match s with
  | EmptyString => false
  | String c s' => p c || str_any p s'
  end.

(** [str.isdigit]: non-empty and digits only. *)
Definition isdigit (s : string) : bool := negb (str_empty s) && str_all is_digit s.

(** [str.isupper]: a cased character occurs and none is lower case. *)
Definition isupper (s : string) : bool :=
  str_any is_upper s && negb (str_any is_lower s).

(** [re.match(r'^\d+[\.\)]', s)]: the greedy digit run is followed by a dot
    or a closing parenthesis. *)
Fixpoint after_digits (s : string) : bool :=
  match s with
  | EmptyString => false
  | String c s' =>
      if is_digit c then after_digits s'
      else (Ascii.eqb c "." || Ascii.eqb c ")")%char
  end.

Definition match_numbered (s : string) : bool :=
  match s with
  | String c s' => is_digit c && after_digits s'
  | EmptyString => false
  end.

(** [f"H{n}"] *)
Definition level_name (n : nat) : string :=
  "H" +:+ NilZero.string_of_uint (Nat.to_uint n).

(** ** The data model *)

Record Element : Type := mkElement {
  e_text : string;
  e_size : Q;
  e_flags : Z;
  e_page : Z;
  e_x : option Q;
  e_relative_x : Q;
  e_relative_y : Q;
  e_line_y : Q;
  e_has_bold : option bool
}.

Record Heading : Type := mkHeading {
  h_level : string;
  h_text : string;
  h_page : Z
}.

Record Outline : Type := mkOutline {
  title : string;
  outline : list Heading
}.

Definition get_x (e : Element) : result Q :=
  match e_x e with Some v => Ok v | None => Raise (KeyError "x") end.

Definition get_has_bold (e : Element) : result bool :=
  match e_has_bold e with Some b => Ok b | None => Raise (KeyError "has_bold") end.

(** ** [PDFOutlineExtractor] *)

(** [is_bold]: [bool(flags & (1 << 4))] *)
Definition is_bold (flags : Z) : bool :=
  negb (Z.land flags (Z.shiftl 1 4) =? 0).

(** [clean_text]: [re.sub(r'\s+', ' ', text).strip()] *)
Definition clean_text (s : string) : string := strip (sub_ws false s).

(** *** [merge_by_line] *)

(** [round(elem["line_y"] / tol) * tol] *)
Definition line_key (y : Q) (tol : Z) : result Z :=
  let* q := py_div y (inject_Z tol) in
  Ok (py_round q * tol).

(** The first loop: [lines[key].append(elem)] on a [defaultdict(list)]. *)
Fixpoint group_lines (lines : gmap Z (list Element)) (elements : list Element)
    (tol : Z) : result (gmap Z (list Element)) :=
  match elements with
  | [] => Ok lines
  | elem :: rest =>
      let* key := line_key (e_line_y elem) tol in
      group_lines (<[key := default [] (lines !! key) ++ [elem]]> lines) rest tol
  end.

(** Python's sorts are stable.  [sort_asc key] is [list.sort(key=key)] and
    [sort_desc key] is [sorted(l, key=key, reverse=True)]: in both, items of
    equal key keep their original order. *)
Section StableSort.
Context {A : Type} (key : A -> Q).

Fixpoint insert_asc (a : A) (l : list A) : list A :=
  match l with
  | [] => [a]
  | b :: l' => if Qle_bool (key a) (key b) then a :: l else b :: insert_asc a l'
  end.

Fixpoint sort_asc (l : list A) : list A :=
  match l with
  | [] => []
  | a :: l' => insert_asc a (sort_asc l')
  end.

Fixpoint insert_desc (a : A) (l : list A) : list A :=
  match l with
  | [] => [a]
  | b :: l' => if Qle_bool (key b) (key a) then a :: l else b :: insert_desc a l'
  end.

Fixpoint sort_desc (l : list A) : list A :=
  match l with
  | [] => []
  | a :: l' => insert_desc a (sort_desc l')
  end.

(** Order and equality of items by their keys. *)
Definition strictly_below (a b : A) : Prop := (key b < key a)%Q.
Definition same_key (a b : A) : Prop := (key a == key b)%Q.
End StableSort.

(** [spans.sort(key=lambda e: e["x"])]: the keys of all spans are computed
    first (so a span without ["x"] raises), then the list is sorted. *)
Definition sort_by_x (spans : list Element) : result (list Element) :=
  let* keyed := rmap (fun e => let* k := get_x e in Ok (k, e)) spans in
  Ok (map snd (sort_asc fst keyed)).

(** [max(...)] of a generator of floats: the first maximal item. *)
Definition py_max (l : list Q) : result Q :=
  match l with
  | [] => Raise ValueError
  | a :: rest => Ok (fold_left (fun m s => if Qlt_bool m s then s else m) rest a)
  end.

(** The body of the second loop for one key; [None] is [continue]. *)
Definition merge_line (key : Z) (spans0 : list Element) : result (option Element) :=
  let* spans := sort_by_x spans0 in
  let full_text := clean_text (join " " (map e_text spans)) in
  if str_empty full_text then Ok None
  else
    let* max_size := py_max (map e_size spans) in
    let bold := existsb (fun span => is_bold (e_flags span)) spans in
    match spans with
    | [] => Raise IndexError
    | rep :: _ =>
        Ok (Some {| e_text := full_text;
                    e_size := max_size;
                    e_flags := e_flags rep;
                    e_page := e_page rep;
                    e_x := None;
                    e_relative_x := e_relative_x rep;
                    e_relative_y := e_relative_y rep;
                    e_line_y := inject_Z key;
                    e_has_bold := Some bold |})
    end.

Fixpoint merge_keys (lines : gmap Z (list Element)) (keys : list Z)
    : result (list Element) :=
  match keys with
  | [] => Ok []
  | key :: rest =>
      let* line := merge_line key (default [] (lines !! key)) in
      let* merged := merge_keys lines rest in
      Ok (match line with Some m => m :: merged | None => merged end)
  end.

(** [sorted(lines)]: the keys in ascending order. *)
Definition sorted_keys (lines : gmap Z (list Element)) : list Z :=
  merge_sort Z.le (elements (dom lines)).

Definition merge_by_line (elements : list Element) (tol : Z) : result (list Element) :=
  let* lines := group_lines ∅ elements tol in
  merge_keys lines (sorted_keys lines).

(** *** [analyze_font_distribution] *)

(** [collections.Counter]: a dict from value to count, in insertion order
    (the order of first occurrence). *)
Fixpoint counter_add (k : Q) (c : list (Q * nat)) : list (Q * nat) :=
  match c with
  | [] => [(k, 1%nat)]
  | (k', n) :: c' =>
      if Qeq_bool k' k then (k', S n) :: c' else (k', n) :: counter_add k c'
  end.

Definition Counter (l : list Q) : list (Q * nat) :=
  fold_left (fun c k => counter_add k c) l [].

(** [counts[k]], which is 0 for a value never counted. *)
Fixpoint counter_get (k : Q) (c : list (Q * nat)) : nat :=
  match c with
  | [] => 0%nat
  | (k', n) :: c' => if Qeq_bool k' k then n else counter_get k c'
  end.

(** [counts.most_common(1)]: [max(items, key=count)], the first item of
    largest count, in a list; the empty list for an empty counter. *)
Definition most_common_1 (c : list (Q * nat)) : list (Q * nat) :=
  match c with
  | [] => []
  | it :: rest =>
      [fold_left (fun m it' => if (snd m <? snd it')%nat then it' else m) rest it]
  end.

(** [set(l)]: the distinct values.  They are listed by first occurrence;
    Python lists them by hash, and the one caller sorts them. *)
Definition py_set (l : list Q) : list Q :=
  fold_left (fun acc a => if existsb (Qeq_bool a) acc then acc else acc ++ [a]) l [].

(** [count < n * 0.4] for a count and a length.  The float product
    [n * 0.4] is [2n/5] exactly when that is an integer and lies strictly
    between the neighbouring integers otherwise, so the test is [5c < 2n]. *)
Definition below_40_percent (c n : nat) : bool := (5 * c <? 2 * n)%nat.

(** [[line["size"] for line in lines if line["size"] > 0]] *)
Definition positive_sizes (lines : list Element) : list Q :=
  filter (fun s => Qlt_bool 0 s) (map e_size lines).

Definition analyze_font_distribution (lines : list Element) : result (list Q * Q) :=
  let sizes := positive_sizes lines in
  match sizes with
  | [] => Ok ([], 12%Q)
  | _ =>
      let counts := Counter sizes in
      match most_common_1 counts with
      | [] => Raise IndexError
      | (base_size, _) :: _ =>
          let significant_sizes :=
            filter (fun size => Qlt_bool base_size size
                                && below_40_percent (counter_get size counts) (length lines))
                   (map fst counts) in
          let significant_sizes := sort_desc id (py_set significant_sizes) in
          Ok (firstn 3 significant_sizes, base_size)
      end
  end.

(** *** [is_heading_candidate] *)

Definition is_heading_candidate (element : Element) (sig_sizes : list Q)
    (base_size : Q) : result bool :=
  let txt := clean_text (e_text element) in
  if (String.length txt <? 3)%nat || isdigit txt then Ok false
  else if existsb (Qeq_bool (e_size element)) sig_sizes then Ok true
  else
    let* bold := get_has_bold element in
    if bold && Qle_bool base_size (e_size element) then Ok true
    else if isupper txt && (6 <? String.length txt)%nat then Ok true
    else if match_numbered txt then Ok true
    else if Qlt_bool (e_relative_y element) (1 # 5) then Ok true
    else Ok false.

(** *** [assign_heading_levels] *)

(** [d[k] = v] on a dict with float keys, in insertion order. *)
Fixpoint dict_set (k : Q) (v : string) (d : list (Q * string)) : list (Q * string) :=
  match d with
  | [] => [(k, v)]
  | (k', v') :: d' =>
      if Qeq_bool k' k then (k', v) :: d' else (k', v') :: dict_set k v d'
  end.

(** [d.get(k, dflt)] *)
Fixpoint dict_get (k : Q) (dflt : string) (d : list (Q * string)) : string :=
  match d with
  | [] => dflt
  | (k', v) :: d' => if Qeq_bool k' k then v else dict_get k dflt d'
  end.

(** [{size: f"H{i+1}" for i, size in enumerate(sig_sizes)}], the index
    starting at [i]. *)
Fixpoint level_map_from (i : nat) (sig_sizes : list Q) (d : list (Q * string))
    : list (Q * string) :=
  match sig_sizes with
  | [] => d
  | size :: rest => level_map_from (S i) rest (dict_set size (level_name (i + 1)) d)
  end.

Definition level_map (sig_sizes : list Q) : list (Q * string) :=
  level_map_from 0 sig_sizes [].

Definition assign_heading_levels (candidates : list Element) (sig_sizes : list Q)
    : list Heading :=
  let level_map := level_map sig_sizes in
  map (fun c =>
         let level := dict_get (e_size c) "H3" level_map in
         let txt := clean_text (e_text c) in
         {| h_level := level; h_text := txt; h_page := e_page c |})
      candidates.

(** *** [get_title] *)

(** The literal [0.3] of [get_title]: the double nearest to 3/10, which is
    5404319552844595 / 2^54 and lies below 3/10. *)
Definition float_0_3 : Q := 5404319552844595 # 18014398509481984.

(** The list [cand] of [get_title]: the (size, text) pairs of the elements
    of the first page with a long text near the top. *)
Definition title_candidates (first_page : list Element) : list (Q * string) :=
  flat_map (fun e =>
              let txt := clean_text (e_text e) in
              if (10 <? String.length txt)%nat && Qlt_bool (e_relative_y e) float_0_3
              then [(e_size e, txt)] else [])
           first_page.

Definition get_title (pages : list (list Element)) : string :=
  match pages with
  | [] => ""
  | first_page :: _ =>
      let cand := title_candidates first_page in
      match sort_desc fst cand with
      | [] => ""
      | (_, txt) :: _ => txt
      end
  end.

(** *** The de-duplication loop of [extract_outline] *)

(** [key = (h["level"], h["text"])] *)
Definition heading_key (h : Heading) : string * string := (h_level h, h_text h).

Fixpoint unique_loop (seen : gset (string * string)) (headings : list Heading)
    : list Heading :=
  match headings with
  | [] => []
  | h :: rest =>
      let key := heading_key h in
      if bool_decide (key ∉ seen) && (3 <? String.length (h_text h))%nat
      then h :: unique_loop ({[key]} ∪ seen) rest
      else unique_loop seen rest
  end.

Definition unique_headings (headings : list Heading) : list Heading :=
  unique_loop ∅ headings.

(** ** The decoder's documents and [extract_text_with_metadata] *)

Record BBox : Type := mkBBox { x0 : Q; y0 : Q; x1 : Q; y1 : Q }.

Record Span : Type := mkSpan {
  span_text : string;
  span_font : string;
  span_size : Q;
  span_flags : Z;
  span_bbox : BBox
}.

Record TextLine : Type := mkTextLine {
  line_bbox : BBox;
  line_spans : list Span
}.

(** A block has the key ["lines"] or not (an image block). *)
Record Block : Type := mkBlock { block_lines : option (list TextLine) }.

(** A page: its rectangle, and what [page.get_text("dict", flags=11)["blocks"]]
    yields, which is an exception for a page the decoder cannot read. *)
Record Page : Type := mkPage {
  rect_width : Q;
  rect_height : Q;
  get_text_blocks : result (list Block)
}.

Definition Document : Type := list Page.

Definition span_elements (page_num : nat) (page : Page) (line : TextLine)
    (span : Span) : result (list Element) :=
  let text := strip (span_text span) in
  if str_empty text then Ok []
  else
    let bbox := span_bbox span in
    let* relative_x := py_div (x0 bbox) (rect_width page) in
    let* relative_y := py_div (y0 bbox) (rect_height page) in
    Ok [ {| e_text := text;
            e_size := span_size span;
            e_flags := span_flags span;
            e_page := Z.of_nat page_num + 1;
            e_x := Some (x0 bbox);
            e_relative_x := relative_x;
            e_relative_y := relative_y;
            e_line_y := y0 (line_bbox line);
            e_has_bold := None |} ].

Definition page_elements (page_num : nat) (page : Page) : result (list Element) :=
  let* blocks := get_text_blocks page in
  rflat_map (fun block =>
               match block_lines block with
               | None => Ok []
               | Some lines =>
                   rflat_map (fun line =>
                                rflat_map (span_elements page_num page line)
                                          (line_spans line))
                             lines
               end)
            blocks.

Fixpoint pages_from (page_num : nat) (doc : Document) : result (list (list Element)) :=
  match doc with
  | [] => Ok []
  | page :: rest =>
      let* els := page_elements page_num page in
      let* pages := pages_from (S page_num) rest in
      Ok (els :: pages)
  end.

Definition extract_text_with_metadata (doc : Document) : result (list (list Element)) :=
  pages_from 0 doc.

(** ** Paths and titles *)

(** [Path(p).name]: what follows the last slash. *)
Fixpoint path_name (p : string) : string :=
  match p with
  | EmptyString => EmptyString
  | String c p' =>
      if str_any (Ascii.eqb "/") p' then path_name p'
      else if Ascii.eqb c "/" then p' else p
  end.

(** [name.rfind('.')] as the text before the last dot, when there is one. *)
Fixpoint before_last_dot (s : string) : option string :=
  match s with
  | EmptyString => None
  | String c s' =>
      match before_last_dot s' with
      | Some pre => Some (String c pre)
      | None => if Ascii.eqb c "." then Some EmptyString else None
      end
  end.

(** [Path(p).stem]: the name without its last suffix; a dot that begins or
    ends the name starts no suffix. *)
Definition stem (p : string) : string :=
  let name := path_name p in
  match before_last_dot name with
  | Some pre =>
      if (0 <? String.length pre)%nat
         && (String.length pre <? String.length name - 1)%nat
      then pre else name
  | None => name
  end.

(** [s.replace('_', ' ')] *)
Fixpoint replace_underscores (s : string) : string :=
  match s with
  | EmptyString => EmptyString
  | String c s' =>
      String (if Ascii.eqb c "_" then " "%char else c) (replace_underscores s')
  end.

(** [s.title()]: a cased character is upper case after an uncased one and
    lower case after a cased one. *)
Fixpoint title_from (previous_is_cased : bool) (s : string) : string :=
  match s with
  | EmptyString => EmptyString
  | String c s' =>
      String (if previous_is_cased then to_lower c else to_upper c)
             (title_from (is_upper c || is_lower c) s')
  end.

Definition str_title (s : string) : string := title_from false s.

(** ** The orchestration: a state monad with exceptions *)

(** What the program changes outside itself: the documents it holds open,
    the lines it prints, and the output files it writes. *)
Record World : Type := mkWorld {
  open_handles : list string;
  stdout : list string;
  written : gmap string Outline
}.

Definition M (A : Type) : Type := World -> result A * World.

Definition ret {A} (a : A) : M A := fun w => (Ok a, w).

Definition bind {A B} (m : M A) (k : A -> M B) : M B :=
  fun w =>
    match m w with
    | (Ok a, w') => k a w'
    | (Raise e, w') => (Raise e, w')
    end.

Notation "'let!' x ':=' m 'in' k" := (bind m (fun x => k))
  (at level 10, x name, m at level 100, k at level 200).

Definition lift {A} (r : result A) : M A := fun w => (r, w).

(** [try: body  except Exception as e: handler(e)]; what the body did to
    the world before it raised stays done. *)
Definition try_except {A} (body : M A) (handler : exn -> M A) : M A :=
  fun w =>
    match body w with
    | (Ok a, w') => (Ok a, w')
    | (Raise e, w') => handler e w'
    end.

Definition print (line : string) : M unit :=
  fun w => (Ok tt, {| open_handles := open_handles w;
                      stdout := stdout w ++ [line];
                      written := written w |}).

(** [str(e)] *)
Definition exn_str (e : exn) : string :=
  match e with
  | ZeroDivisionError => "float division by zero"
  | KeyError key => "'" +:+ key +:+ "'"
  | ValueError => "max() arg is an empty sequence"
  | IndexError => "list index out of range"
  | DecoderError msg => msg
  | OSError msg => msg
  end.

Definition str_of_nat (n : nat) : string := NilZero.string_of_uint (Nat.to_uint n).

(** [[el for el in merged if p(el)]] with a fallible test. *)
Fixpoint rfilter {A} (p : A -> result bool) (l : list A) : result (list A) :=
  match l with
  | [] => Ok []
  | a :: l' =>
      let* keep := p a in
      let* rest := rfilter p l' in
      Ok (if keep then a :: rest else rest)
  end.

(** Lines 155-175 of [extract_outline]: from the decoded pages to the
    outline record. *)
Definition outline_of_pages (pdf_path : string) (pages : list (list Element))
    : result Outline :=
  let title := get_title pages in
  let title :=
    if str_empty title then str_title (replace_underscores (stem pdf_path))
    else title in
  let all_elements := concat pages in
  let* merged := merge_by_line all_elements 3 in
  let* stats := analyze_font_distribution merged in
  let sig_sizes := fst stats in
  let base_size := snd stats in
  let* candidates :=
    rfilter (fun el => is_heading_candidate el sig_sizes base_size) merged in
  let headings := assign_heading_levels candidates sig_sizes in
  Ok {| title := title; outline := unique_headings headings |}.

(** [output_dir / f"output_{Path(pdf_path).stem}.json"] *)
Definition output_file (output_dir pdf_path : string) : string :=
  output_dir +:+ "/output_" +:+ stem pdf_path +:+ ".json".

Section Orchestration.
(** The files of the machine: what [pymupdf.open(path)] yields, and the
    PDF files [Path(dir).glob("*.pdf")] lists, [None] for a directory
    that does not exist. *)
Context (pymupdf_open : string -> result Document).
Context (glob_pdf : string -> option (list string)).

(** Whether [output_dir.mkdir(exist_ok=True, parents=True)] succeeds, and
    whether a file can be opened for writing. *)
Context (can_mkdir : string -> bool).
Context (can_write : string -> bool).

(** [doc = pymupdf.open(pdf_path)]: on success the document is held open. *)
Definition doc_open (pdf_path : string) : M Document :=
  fun w =>
    match pymupdf_open pdf_path with
    | Ok doc => (Ok doc, {| open_handles := pdf_path :: open_handles w;
                            stdout := stdout w;
                            written := written w |})
    | Raise e => (Raise e, w)
    end.

(** [doc.close()] *)
Definition doc_close (pdf_path : string) : M unit :=
  fun w => (Ok tt, {| open_handles := remove string_dec pdf_path (open_handles w);
                      stdout := stdout w;
                      written := written w |}).

(** The body of the [try] block of [extract_outline]. *)
Definition extract_outline_try (pdf_path : string) : M Outline :=
  let! doc := doc_open pdf_path in
  let! pages := lift (extract_text_with_metadata doc) in
  let! _ := doc_close pdf_path in
  lift (outline_of_pages pdf_path pages).

Definition extract_outline (pdf_path : string) : M Outline :=
  try_except
    (extract_outline_try pdf_path)
    (fun e =>
       let! _ := print ("Failed to process " +:+ pdf_path +:+ ": " +:+ exn_str e) in
       ret {| title := stem pdf_path; outline := [] |}).

(** [json.dump] into [output_dir / f"output_{stem}.json"], opened with
    mode ['w']: a file of that name is replaced. *)
Definition write_json (output_file : string) (o : Outline) : M unit :=
  fun w =>
    if can_write output_file
    then (Ok tt, {| open_handles := open_handles w;
                    stdout := stdout w;
                    written := <[output_file := o]> (written w) |})
    else (Raise (OSError ("Permission denied: " +:+ output_file)), w).

Definition mkdir (output_dir : string) : M unit :=
  fun w =>
    if can_mkdir output_dir then (Ok tt, w)
    else (Raise (OSError ("Permission denied: " +:+ output_dir)), w).

Definition process_and_save (pdf_path output_dir : string) : M unit :=
  let! _ := mkdir output_dir in
  let! outline := extract_outline pdf_path in
  let output_file := output_file output_dir pdf_path in
  let! _ := write_json output_file outline in
  print ("Saved outline to " +:+ output_file).

Fixpoint process_each (pdf_files : list string) (output_dir : string) : M unit :=
  match pdf_files with
  | [] => ret tt
  | pdf :: rest =>
      let! _ := print ("Processing " +:+ path_name pdf +:+ " ...") in
      let! _ := process_and_save pdf output_dir in
      process_each rest output_dir
  end.

Definition process_folder (input_dir output_dir : string) : M unit :=
  match glob_pdf input_dir with
  | None => print ("Input directory " +:+ input_dir +:+ " not found.")
  | Some [] => print ("No PDFs found in " +:+ input_dir)
  | Some pdf_files =>
      let! _ := print ("Processing " +:+ str_of_nat (length pdf_files)
                       +:+ " PDFs from " +:+ input_dir) in
      let! _ := process_each pdf_files output_dir in
      print ("All processed. Outputs in " +:+ output_dir)
  end.

Definition main : M unit := process_folder "dataset" "output".
End Orchestration.

(** ** Reference definitions *)

(** The de-duplication as the specification words it: going through the
    headings in order, a heading is kept when its text is longer than 3
    characters and no heading before it has its (level, text) pair. *)
Fixpoint first_occurrences_from (earlier hs : list Heading) : list Heading :=
  match hs with
  | [] => []
  | h :: rest =>
      if bool_decide (heading_key h ∉ map heading_key earlier)
         && (3 <? String.length (h_text h))%nat
      then h :: first_occurrences_from (earlier ++ [h]) rest
      else first_occurrences_from (earlier ++ [h]) rest
  end.

Definition first_occurrences (hs : list Heading) : list Heading :=
  first_occurrences_from [] hs.

(** The key [line_key] returns for a non-zero tolerance. *)
Definition quantized (tol : Z) (y : Q) : Z := py_round (y / inject_Z tol) * tol.

Definition key_of (tol : Z) (e : Element) : Z := quantized tol (e_line_y e).

(** A merged line given an ["x"] entry, and a merged line whose
    ["has_bold"] is computed from its own flags. *)
Definition with_x (x : Q) (m : Element) : Element :=
  {| e_text := e_text m; e_size := e_size m; e_flags := e_flags m;
     e_page := e_page m; e_x := Some x; e_relative_x := e_relative_x m;
     e_relative_y := e_relative_y m; e_line_y := e_line_y m;
     e_has_bold := e_has_bold m |}.

Definition rebold (m : Element) : Element :=
  {| e_text := e_text m; e_size := e_size m; e_flags := e_flags m;
     e_page := e_page m; e_x := e_x m; e_relative_x := e_relative_x m;
     e_relative_y := e_relative_y m; e_line_y := e_line_y m;
     e_has_bold := Some (is_bold (e_flags m)) |}.

(** What every line of a merger's output satisfies, at tolerance [tol]. *)
Definition merged_line (tol : Z) (m : Element) : Prop :=
  e_line_y m = inject_Z (key_of tol m)
  /\ e_x m = None
  /\ clean_text (e_text m) = e_text m
  /\ str_empty (e_text m) = false.

(** A text has ink when some character of it is not white space. *)
Definition has_ink (s : string) : bool := str_any (fun c => negb (is_space c)) s.

(** The shape [re.sub(r'\s+', ' ', s)] produces: the only white space is
    the space character, never two in a row; [after_space] tells that a
    space precedes the text. *)
Fixpoint single_spaced (after_space : bool) (t : string) : bool :=
  match t with
  | EmptyString => true
  | String c t' =>
      if is_space c
      then Ascii.eqb c " " && negb after_space && single_spaced true t'
      else single_spaced false t'
  end.

(** How often the size [k] occurs in [l]. *)
Definition count_of (k : Q) (l : list Q) : nat :=
  length (filter (fun s => Qeq_bool s k) l).

(** [m] is the first item of largest measure in [l]: strictly larger than
    what comes before it, at least as large as what comes after. *)
Definition first_largest {A} (measure : A -> Q) (m : A) (l : list A) : Prop :=
  exists pre post,
    l = pre ++ m :: post
    /\ Forall (fun c => (measure c < measure m)%Q) pre
    /\ Forall (fun c => (measure c <= measure m)%Q) post.

(** [m] is the first item of smallest measure in [l]. *)
Definition first_smallest {A} (measure : A -> Q) (m : A) (l : list A) : Prop :=
  exists pre post,
    l = pre ++ m :: post
    /\ Forall (fun c => (measure m < measure c)%Q) pre
    /\ Forall (fun c => (measure m <= measure c)%Q) post.

(** The ["x"] of an element that has one. *)
Definition x_of_element (e : Element) : Q := default 0%Q (e_x e).

Definition first_most_frequent (counts : Q -> nat) (m : Q) (l : list Q) : Prop :=
  exists pre post,
    l = pre ++ m :: post
    /\ Forall (fun c => (counts c < counts m)%nat) pre
    /\ Forall (fun c => (counts c <= counts m)%nat) post.

(** What [assign_heading_levels] owes a candidate [c] in the heading [h] it
    makes of it, for the significant sizes [sig_sizes]. *)
Definition assigned (sig_sizes : list Q) (c : Element) (h : Heading) : Prop :=
  h_text h = clean_text (e_text c)
  /\ h_page h = e_page c
  /\ (forall s, sig_sizes !! 0%nat = Some s -> (e_size c == s)%Q -> h_level h = "H1")
  /\ (forall s, sig_sizes !! 1%nat = Some s -> (e_size c == s)%Q -> h_level h = "H2")
  /\ (forall s, sig_sizes !! 2%nat = Some s -> (e_size c == s)%Q -> h_level h = "H3")
  /\ (~ InA Qeq (e_size c) sig_sizes -> h_level h = "H3").

(** ** Sample inputs *)

Definition world0 : World := mkWorld [] [] ∅.

(** A raw text element of a 612 x 792 page, as [extract_text_with_metadata]
    builds it: text, size, flags, page, x and line coordinate. *)
Definition fragment (t : string) (sz : Q) (fl pg : Z) (x ly : Q) : Element :=
  {| e_text := t; e_size := sz; e_flags := fl; e_page := pg;
     e_x := Some x; e_relative_x := (x / 612)%Q; e_relative_y := (ly / 792)%Q;
     e_line_y := ly; e_has_bold := None |}.

(** Two fragments of page 1 at line coordinates 100 and 101. *)
Definition frag_100 : Element := fragment "Annual" 12 0 1 72 100.
Definition frag_101 : Element := fragment "Report" 12 16 1 150 101.

(** Two fragments of page 1 at line coordinates 101 and 102, the left one
    plain and the right one bold. *)
Definition frag_plain_101 : Element := fragment "Annual" 12 0 1 72 101.
Definition frag_bold_102 : Element := fragment "Report" 12 16 1 150 102.

(** The line the merger makes of these two at tolerance 3. *)
Definition merged_plain_bold : Element :=
  {| e_text := "Annual Report"; e_size := 12; e_flags := 0; e_page := 1;
     e_x := None; e_relative_x := (72 # 612)%Q; e_relative_y := (101 # 792)%Q;
     e_line_y := inject_Z 102; e_has_bold := Some true |}.

(** A fragment of page 1 and a fragment of page 2 at the same line
    coordinate 100. *)
Definition frag_page1 : Element := fragment "Annual" 12 0 1 72 100.
Definition frag_page2 : Element := fragment "Summary" 12 0 2 150 100.

(** Merged lines whose sizes 10 and 12 occur twice each, 10 first; and a
    first page with two title candidates of the same size. *)
Definition tie_lines : list Element :=
  [ rebold (fragment "Body text one" 10 0 1 72 300);
    rebold (fragment "Side note one" 12 0 1 72 330);
    rebold (fragment "Side note two" 12 0 1 72 360);
    rebold (fragment "Body text two" 10 0 1 72 390) ].

Definition tie_page : list Element :=
  [ fragment "Quarterly Review" 18 0 1 72 60;
    fragment "Financial Summary" 18 0 1 72 120 ].

(** A text line of one span in Helvetica, at [(x, y)] on the page. *)
Definition one_span_line (t : string) (sz : Q) (fl : Z) (x y : Q) : TextLine :=
  {| line_bbox := mkBBox x y (x + 200) (y + sz);
     line_spans := [ {| span_text := t; span_font := "Helvetica"; span_size := sz;
                        span_flags := fl; span_bbox := mkBBox x y (x + 200) (y + sz) |} ] |}.

Definition text_page (lines : list TextLine) : Page :=
  {| rect_width := 612; rect_height := 792;
     get_text_blocks := Ok [ {| block_lines := Some lines |} ] |}.

(** A report of two pages: the heading of page 1 lies low on its page, the
    heading of page 2 high on its page. *)
Definition report_doc : Document :=
  [ text_page [one_span_line "1. Introduction" 12 0 72 300];
    text_page [one_span_line "2. Methods" 12 0 72 90] ].

(** A document of two pages whose headings lie at the same height of their
    pages. *)
Definition collide_doc : Document :=
  [ text_page [one_span_line "1. Introduction" 12 0 72 100];
    text_page [one_span_line "2. Methods" 12 0 72 100] ].

(** A document that opens, and whose only page the decoder cannot read. *)
Definition damaged_doc : Document :=
  [ {| rect_width := 612; rect_height := 792;
       get_text_blocks := Raise (DecoderError "cannot read page") |} ].

(** The files of a folder: two reports, a damaged document, and files that
    are no PDF documents at all. *)
Definition sample_open (pdf_path : string) : result Document :=
  if String.eqb pdf_path "dataset/report.pdf" then Ok report_doc
  else if String.eqb pdf_path "dataset/collide.pdf" then Ok collide_doc
  else if String.eqb pdf_path "dataset/damaged.pdf" then Ok damaged_doc
  else Raise (DecoderError "cannot open document").

(** A machine on which every directory can be made and every file written. *)
Definition always (path : string) : bool := true.

Definition sample_glob (input_dir : string) : option (list string) :=
  if String.eqb input_dir "dataset"
  then Some ["dataset/corrupt.pdf"; "dataset/damaged.pdf"; "dataset/report.pdf"]
  else None.

(** Three significant sizes, and candidates of these sizes and of the body
    size 12. *)
Definition sample_sig_sizes : list Q := [24; 18; 14]%Q.

Definition sample_candidates : list Element :=
  [ rebold (fragment "Annual Report" 24 0 1 72 90);
    rebold (fragment "1. Introduction" 18 0 1 72 150);
    rebold (fragment "1.1 Scope" 14 0 1 72 210);
    rebold (fragment "NOTICE TO READERS" 12 0 1 72 270) ].

(** ** [detect_document_type] *)

(** [s.lower()] *)
Fixpoint str_lower (s : string) : string :=
  match s with
  | EmptyString => EmptyString
  | String c s' => String (to_lower c) (str_lower s')
  end.

Fixpoint is_prefix (w s : string) : bool :=
  match w, s with
  | EmptyString, _ => true
  | String c w', String d s' => Ascii.eqb c d && is_prefix w' s'
  | String _ _, EmptyString => false
  end.

(** [w in s] on strings: [w] occurs in [s]. *)
Fixpoint contains (w s : string) : bool :=
  is_prefix w s
  || match s with
     | EmptyString => false
     | String _ s' => contains w s'
     end.

Definition detect_document_type (text_elements : list Element) : string :=
  let sample_text :=
    join " " (map (fun elem => str_lower (e_text elem)) (firstn 100 text_elements)) in
  if existsb (fun word => contains word sample_text) ["form"; "application"]
  then "form" else "standard_document".

(** ** Further reference definitions *)

(** What [extract_text_with_metadata] makes of a span with ink on the page
    of index [page_num]. *)
Definition raw_element (page_num : nat) (e : Element) : Prop :=
  e_page e = Z.of_nat page_num + 1
  /\ is_Some (e_x e)
  /\ e_has_bold e = None
  /\ has_ink (e_text e) = true
  /\ strip (e_text e) = e_text e.

(** The record [extract_outline] returns for a document; the world the call
    starts in does not matter. *)
Definition outline_record (pymupdf_open : string -> result Document)
    (pdf_path : string) : Outline :=
  match fst (extract_outline pymupdf_open pdf_path world0) with
  | Ok o => o
  | Raise _ => {| title := stem pdf_path; outline := [] |}
  end.

(** All spans of the blocks of a page, in reading order. *)
Definition page_spans (blocks : list Block) : list Span :=
  flat_map (fun block =>
              match block_lines block with
              | None => []
              | Some lines => flat_map line_spans lines
              end)
           blocks.

(** ** The key on doubles *)

(** The binary exponent of a rational that is not zero: the [e] with
    [2^e <= |q| < 2^(e+1)]. *)
Definition binade (q : Q) : Z :=
  let d := Z.log2 (Z.abs (Qnum q)) - Z.log2 (Zpos (Qden q)) in
  if Qle_bool (2 ^ d) (Qabs q) then d else d - 1.

(** The double nearest to [q], ties to the even mantissa: 53 bits of
    mantissa.  The range of the exponent is not bounded; the quotient of a
    double by a non-zero integer does not overflow, and where it underflows
    the double and [q] both round to the integer 0. *)
Definition round_double (q : Q) : Q :=
  if Qeq_bool q 0 then 0%Q
  else
    let ulp := (2 ^ (binade q - 52))%Q in
    (inject_Z (py_round (q / ulp)) * ulp)%Q.

(** [round(elem["line_y"] / tol) * tol] on the machine: the integer [tol]
    is converted to a double, and the quotient of the two doubles is rounded
    to a double before [round] reads it.  [line_key] takes the quotient as
    exact; the two agree where the exact quotient is a double.  An integer
    beyond the range of the doubles, whose conversion raises, is left out. *)
Definition line_key_double (y : Q) (tol : Z) : result Z :=
  let* q := py_div y (round_double (inject_Z tol)) in
  Ok (py_round (round_double q) * tol).

(** ** Further sample inputs *)

(** A page of width 0 that holds one span with ink. *)
Definition flat_page : Page :=
  {| rect_width := 0; rect_height := 792;
     get_text_blocks := Ok [ {| block_lines := Some [one_span_line "Cover" 12 0 72 100] |} ] |}.

(** A document of one page of width 0 whose only span is blank. *)
Definition blank_doc : Document :=
  [ {| rect_width := 0; rect_height := 792;
       get_text_blocks := Ok [ {| block_lines := Some [one_span_line "   " 12 0 72 100] |} ] |} ].

(** Merged lines: one heading of size 18 above three lines of body text of
    size 12. *)
Definition body_lines : list Element :=
  [ rebold (fragment "Overview" 18 0 1 72 90);
    rebold (fragment "Body text one" 12 0 1 72 150);
    rebold (fragment "Body text two" 12 0 1 72 180);
    rebold (fragment "Body text three" 12 0 1 72 210) ].

(** An element at height 240 of a page of height 800: its relative height
    is the double 0.3 itself. *)
Definition at_threshold : Element :=
  {| e_text := "Quarterly Review"; e_size := 18; e_flags := 0; e_page := 1;
     e_x := Some 72%Q; e_relative_x := (72 / 612)%Q; e_relative_y := float_0_3;
     e_line_y := 240; e_has_bold := None |}.

(** A machine on which the output file of the damaged document cannot be
    written, and every other file can. *)
Definition locked (path : string) : bool :=
  negb (String.eqb path (output_file "output" "dataset/damaged.pdf")).

(** ** The library functions on small inputs *)

Example py_round_ties :
  (py_round (1 # 2), py_round (3 # 2), py_round (5 # 2), py_round (-5 # 2), py_round (8 # 3))
  = (0, 2, 2, -2, 3).
Proof. reflexivity. Qed.

Example line_key_examples :
  (line_key 100 3, line_key 101 3, line_key 102 3, line_key (205 # 2) 3, line_key 100 0)
  = (Ok 99, Ok 102, Ok 102, Ok 102, Raise ZeroDivisionError).
Proof. reflexivity. Qed.

Example round_double_examples :
  (Qred (round_double (3 # 10)), Qred (round_double (1 # 5)),
   Qred (round_double 9007199254740993), Qred (round_double (-9007199254740995)))
  = (float_0_3, 3602879701896397 # 18014398509481984,
     9007199254740992, -9007199254740996)%Q.
Proof. vm_compute. reflexivity. Qed.

Example line_key_double_examples :
  (line_key_double 100 3, line_key_double 101 3, line_key_double 1 0,
   line_key_double 9007199254740994 3, line_key 9007199254740994 3)
  = (Ok 99, Ok 102, Raise ZeroDivisionError,
     Ok 9007199254740996, Ok 9007199254740993).
Proof. vm_compute. reflexivity. Qed.

Example clean_text_example : clean_text "  Annual   Report " = "Annual Report".
Proof. reflexivity. Qed.

Example is_bold_examples : (is_bold 16, is_bold 20, is_bold 4, is_bold 0) = (true, true, false, false).
Proof. reflexivity. Qed.

Example stem_examples :
  (stem "dataset/my_file.v2.pdf", stem "dataset/.pdf", stem "report.pdf", stem "notes")
  = ("my_file.v2", ".pdf", "report", "notes").
Proof. reflexivity. Qed.

Example title_example : str_title (replace_underscores "my_file.v2") = "My File.V2".
Proof. reflexivity. Qed.

Example text_class_examples :
  (isdigit "2024", isdigit "", isupper "SECTION 2", isupper "Section",
   match_numbered "1. Introduction", match_numbered "12) Scope", match_numbered "12 Scope")
  = (true, false, true, false, true, true, false).
Proof. reflexivity. Qed.

Example counter_example :
  (Counter [10; 12; 12; 10]%Q, most_common_1 (Counter [10; 12; 12; 10]%Q))
  = ([(10%Q, 2%nat); (12%Q, 2%nat)], [(10%Q, 2%nat)]).
Proof. reflexivity. Qed.

Example analyze_example :
  analyze_font_distribution
    (map (fun s => rebold (fragment "text" s 0 1 72 100))
         [10; 10; 10; 10; 10; 10; 12; 14; 14; 16; 18; 20; 10; 10]%Q)
  = Ok ([20; 18; 16]%Q, 10%Q).
Proof. reflexivity. Qed.

Example level_map_example :
  level_map [24; 18; 14]%Q = [(24%Q, "H1"); (18%Q, "H2"); (14%Q, "H3")].
Proof. reflexivity. Qed.

Example unique_headings_example :
  unique_headings [ mkHeading "H1" "Overview" 1; mkHeading "H2" "Overview" 1;
                    mkHeading "H3" "Abc" 2; mkHeading "H1" "Overview" 3 ]
  = [ mkHeading "H1" "Overview" 1; mkHeading "H2" "Overview" 1 ].
Proof. reflexivity. Qed.

(** ** De-duplication *)

Lemma unique_loop_refines (hs earlier : list Heading) (seen : gset (string * string)) :
  (forall k, k ∈ seen <->
     exists h, h ∈ earlier /\ heading_key h = k /\ (3 < String.length (h_text h))%nat) ->
  unique_loop seen hs = first_occurrences_from earlier hs.
Proof.
  revert earlier seen.
  induction hs as [|h rest IH]; intros earlier seen Hinv; [reflexivity|].
  cbn [unique_loop first_occurrences_from].
  destruct (3 <? String.length (h_text h))%nat eqn:Hlong.
  - apply Nat.ltb_lt in Hlong.
    assert (Hsame : heading_key h ∈ seen <-> heading_key h ∈ map heading_key earlier).
    { rewrite Hinv. split.
      - intros (h' & Hin & Hk & _). rewrite <- Hk. apply list_elem_of_fmap. eauto.
      - intros Hin. apply list_elem_of_fmap in Hin as (h' & Hk & Hin).
        exists h'. split; [assumption|]. split; [congruence|].
        unfold heading_key in Hk. injection Hk as _ Ht. rewrite <- Ht. assumption. }
    rewrite !andb_true_r.
    destruct (decide (heading_key h ∈ seen)) as [Hseen|Hseen].
    + rewrite (bool_decide_eq_false_2 _ (fun Hn => Hn Hseen)).
      rewrite bool_decide_eq_false_2 by (intros Hn; apply Hn, Hsame, Hseen).
      apply IH. intros k. rewrite Hinv. split.
      * intros (h' & Hin & Hk). exists h'. rewrite elem_of_app. tauto.
      * intros (h' & Hin & Hk & Hl). apply elem_of_app in Hin as [Hin|Hin]; [eauto|].
        apply list_elem_of_singleton in Hin. subst h'. subst k.
        apply Hinv. assumption.
    + rewrite (bool_decide_eq_true_2 _ Hseen).
      rewrite bool_decide_eq_true_2 by (intros Hn; apply Hseen, Hsame, Hn).
      f_equal. apply IH. intros k. rewrite elem_of_union, elem_of_singleton, Hinv. split.
      * intros [->|(h' & Hin & Hk)].
        -- exists h. rewrite elem_of_app, list_elem_of_singleton. tauto.
        -- exists h'. rewrite elem_of_app. tauto.
      * intros (h' & Hin & Hk & Hl). apply elem_of_app in Hin as [Hin|Hin]; [eauto|].
        apply list_elem_of_singleton in Hin. subst h'. left. congruence.
  - rewrite !andb_false_r. apply IH. intros k. rewrite Hinv. split.
    + intros (h' & Hin & Hk). exists h'. rewrite elem_of_app. tauto.
    + intros (h' & Hin & Hk & Hl). apply elem_of_app in Hin as [Hin|Hin]; [eauto|].
      apply list_elem_of_singleton in Hin. subst h'.
      apply Nat.ltb_ge in Hlong. lia.
Qed.

Lemma unique_loop_sublist (hs : list Heading) (seen : gset (string * string)) :
  unique_loop seen hs `sublist_of` hs.
Proof.
  revert seen. induction hs as [|h rest IH]; intros seen; cbn [unique_loop].
  - constructor.
  - destruct (_ && _); [apply sublist_skip | apply sublist_cons]; apply IH.
Qed.

(** What the loop keeps: long texts, pairwise different keys, none of them
    seen before. *)
Lemma unique_loop_kept (hs : list Heading) (seen : gset (string * string)) :
  Forall (fun h => (3 < String.length (h_text h))%nat /\ heading_key h ∉ seen)
         (unique_loop seen hs)
  /\ NoDup (map heading_key (unique_loop seen hs)).
Proof.
  revert seen. induction hs as [|h rest IH]; intros seen; cbn [unique_loop].
  - split; constructor.
  - destruct (bool_decide _ && _) eqn:Hkeep.
    + apply andb_true_iff in Hkeep as [Hnew Hlong].
      apply bool_decide_eq_true_1 in Hnew. apply Nat.ltb_lt in Hlong.
      destruct (IH ({[heading_key h]} ∪ seen)) as [Hall Hnd].
      split.
      * constructor; [tauto|].
        eapply Forall_impl; [exact Hall|]. cbn. intros h' [? Hn].
        split; [assumption|].
        intros Hs. apply Hn, elem_of_union. right. exact Hs.
      * cbn [map]. constructor; [|assumption].
        intros Hin. apply list_elem_of_fmap in Hin as (h' & Hk & Hin).
        rewrite Forall_forall in Hall. destruct (Hall h' Hin) as [_ Hn].
        apply Hn, elem_of_union. left. apply elem_of_singleton. congruence.
    + apply IH.
Qed.

Lemma unique_loop_fixed (l : list Heading) (seen : gset (string * string)) :
  Forall (fun h => (3 < String.length (h_text h))%nat /\ heading_key h ∉ seen) l ->
  NoDup (map heading_key l) ->
  unique_loop seen l = l.
Proof.
  revert seen. induction l as [|h rest IH]; intros seen Hall Hnd; [reflexivity|].
  cbn [unique_loop]. inversion Hall as [|? ? [Hlong Hnew] Hrest]; subst.
  cbn [map] in Hnd. apply NoDup_cons in Hnd as [Hnotin Hnd].
  rewrite (bool_decide_eq_true_2 _ Hnew).
  apply Nat.ltb_lt in Hlong. rewrite Hlong. cbn [andb]. f_equal.
  apply IH; [|assumption].
  rewrite Forall_forall in Hrest |- *. intros h' Hin.
  destruct (Hrest h' Hin) as [Hl Hn]. split; [assumption|].
  intros Hu. apply elem_of_union in Hu as [Hu|Hu]; [|tauto].
  apply elem_of_singleton in Hu. apply Hnotin. rewrite <- Hu.
  apply list_elem_of_fmap. eauto.
Qed.

(** C7. The de-duplication loop of [extract_outline] keeps exactly the first
    occurrence of each (level, text) pair whose text is longer than 3
    characters, in the order of the input (it computes [first_occurrences],
    and its output is a subsequence of its input); run on its own output it
    returns that output unchanged. *)
Theorem deduplication_contract (hs : list Heading) :
  unique_headings hs = first_occurrences hs
  /\ unique_headings hs `sublist_of` hs
  /\ unique_headings (unique_headings hs) = unique_headings hs.
Proof.
  unfold unique_headings, first_occurrences. split; [|split].
  - apply unique_loop_refines. intros k. split.
    + intros Hin. exfalso. apply elem_of_empty in Hin. exact Hin.
    + intros (h & Hin & _). exfalso. apply elem_of_nil in Hin. exact Hin.
  - apply unique_loop_sublist.
  - destruct (unique_loop_kept hs ∅) as [Hall Hnd].
    apply unique_loop_fixed; assumption.
Qed.

(** ** Stable sorts *)

Section StableSortFacts.
Context {A : Type} (key : A -> Q).

Lemma insert_desc_Permutation (a : A) (l : list A) :
  insert_desc key a l ≡ₚ a :: l.
Proof.
  induction l as [|b l IH]; cbn [insert_desc]; [reflexivity|].
  destruct (Qle_bool (key b) (key a)); [reflexivity|].
  rewrite IH. apply Permutation_swap.
Qed.

Lemma sort_desc_Permutation (l : list A) : sort_desc key l ≡ₚ l.
Proof.
  induction l as [|a l IH]; cbn [sort_desc]; [reflexivity|].
  rewrite insert_desc_Permutation. by rewrite IH.
Qed.

Lemma insert_asc_Permutation (a : A) (l : list A) :
  insert_asc key a l ≡ₚ a :: l.
Proof.
  induction l as [|b l IH]; cbn [insert_asc]; [reflexivity|].
  destruct (Qle_bool (key a) (key b)); [reflexivity|].
  rewrite IH. apply Permutation_swap.
Qed.

Lemma sort_asc_Permutation (l : list A) : sort_asc key l ≡ₚ l.
Proof.
  induction l as [|a l IH]; cbn [sort_asc]; [reflexivity|].
  rewrite insert_asc_Permutation. by rewrite IH.
Qed.

Lemma insert_desc_strict (a : A) (l : list A) :
  StronglySorted (strictly_below key) l ->
  Forall (fun b => ~ same_key key a b) l ->
  StronglySorted (strictly_below key) (insert_desc key a l).
Proof.
  unfold strictly_below, same_key.
  induction l as [|b l IH]; intros Hs Hne; cbn [insert_desc].
  - repeat constructor.
  - apply StronglySorted_inv in Hs as [Hs Hb].
    apply Forall_cons in Hne as [Hab Hne].
    destruct (Qle_bool (key b) (key a)) eqn:Hle.
    + apply Qle_bool_iff in Hle.
      assert (Hlt : (key b < key a)%Q).
      { apply Qle_lteq in Hle as [Hlt|Heq]; [exact Hlt|].
        exfalso. apply Hab. symmetry. exact Heq. }
      constructor; [constructor; assumption|].
      constructor; [exact Hlt|].
      eapply Forall_impl; [exact Hb|]. cbn. intros c Hc.
      eapply Qlt_trans; eassumption.
    + assert (Hlt : (key a < key b)%Q).
      { apply Qnot_le_lt. intros Hn. apply Qle_bool_iff in Hn. congruence. }
      constructor; [apply IH; assumption|].
      rewrite insert_desc_Permutation. constructor; assumption.
Qed.

Lemma sort_desc_strict (l : list A) :
  NoDupA (same_key key) l -> StronglySorted (strictly_below key) (sort_desc key l).
Proof.
  induction l as [|a l IH]; intros Hnd; cbn [sort_desc]; [constructor|].
  inversion Hnd as [|? ? Hnotin Hnd']; subst.
  apply insert_desc_strict; [apply IH; exact Hnd'|].
  rewrite sort_desc_Permutation. apply Forall_forall. intros b Hb Hsame.
  apply Hnotin. apply InA_alt. exists b. split; [exact Hsame|].
  apply list_elem_of_In. exact Hb.
Qed.

(** The head of a stable descending sort is the first item of largest
    key. *)
Lemma sort_desc_head (l : list A) (m : A) (tl : list A) :
  sort_desc key l = m :: tl -> first_largest key m l.
Proof.
  unfold first_largest.
  revert m tl. induction l as [|a l IH]; intros m tl Hsort; [discriminate|].
  cbn [sort_desc] in Hsort.
  destruct (sort_desc key l) as [|b s] eqn:Hs.
  - cbn in Hsort. injection Hsort as <- <-.
    destruct l as [|a' l'].
    + exists [], []. repeat split; constructor.
    + exfalso. assert (Hp := sort_desc_Permutation (a' :: l')).
      rewrite Hs in Hp. apply Permutation_nil_cons in Hp. exact Hp.
  - destruct (IH b s eq_refl) as (pre & post & -> & Hpre & Hpost).
    cbn [insert_desc] in Hsort.
    destruct (Qle_bool (key b) (key a)) eqn:Hle.
    + injection Hsort as <- <-. apply Qle_bool_iff in Hle.
      exists [], (pre ++ b :: post). split; [reflexivity|]. split; [constructor|].
      apply Forall_app. split.
      * eapply Forall_impl; [exact Hpre|]. cbn. intros c Hc.
        apply Qlt_le_weak in Hc. eapply Qle_trans; eassumption.
      * constructor; [exact Hle|].
        eapply Forall_impl; [exact Hpost|]. cbn. intros c Hc.
        eapply Qle_trans; eassumption.
    + injection Hsort as <- <-.
      assert (Hlt : (key a < key b)%Q).
      { apply Qnot_le_lt. intros Hn. apply Qle_bool_iff in Hn. congruence. }
      exists (a :: pre), post. split; [reflexivity|]. split; [|exact Hpost].
      constructor; assumption.
Qed.

(** The head of a stable ascending sort is the first item of smallest
    key. *)
Lemma sort_asc_head (l : list A) (m : A) (tl : list A) :
  sort_asc key l = m :: tl -> first_smallest key m l.
Proof.
  unfold first_smallest.
  revert m tl. induction l as [|a l IH]; intros m tl Hsort; [discriminate|].
  cbn [sort_asc] in Hsort.
  destruct (sort_asc key l) as [|b s] eqn:Hs.
  - cbn in Hsort. injection Hsort as <- <-.
    destruct l as [|a' l'].
    + exists [], []. repeat split; constructor.
    + exfalso. assert (Hp := sort_asc_Permutation (a' :: l')).
      rewrite Hs in Hp. apply Permutation_nil_cons in Hp. exact Hp.
  - destruct (IH b s eq_refl) as (pre & post & -> & Hpre & Hpost).
    cbn [insert_asc] in Hsort.
    destruct (Qle_bool (key a) (key b)) eqn:Hle.
    + injection Hsort as <- <-. apply Qle_bool_iff in Hle.
      exists [], (pre ++ b :: post). split; [reflexivity|]. split; [constructor|].
      apply Forall_app. split.
      * eapply Forall_impl; [exact Hpre|]. cbn. intros c Hc.
        apply Qlt_le_weak in Hc. eapply Qle_trans; eassumption.
      * constructor; [exact Hle|].
        eapply Forall_impl; [exact Hpost|]. cbn. intros c Hc.
        eapply Qle_trans; eassumption.
    + injection Hsort as <- <-.
      assert (Hlt : (key b < key a)%Q).
      { apply Qnot_le_lt. intros Hn. apply Qle_bool_iff in Hn. congruence. }
      exists (a :: pre), post. split; [reflexivity|]. split; [|exact Hpost].
      constructor; assumption.
Qed.
End StableSortFacts.

(** ** Font statistics *)

Lemma counter_add_nonempty (k : Q) (c : list (Q * nat)) : counter_add k c <> [].
Proof. destruct c as [|[k' n] c]; cbn; [discriminate|]. destruct (Qeq_bool k' k); discriminate. Qed.

Lemma Counter_nonempty (s : Q) (l : list Q) : Counter (s :: l) <> [].
Proof.
  unfold Counter. cbn [fold_left].
  generalize (counter_add_nonempty s []). generalize (counter_add s []).
  induction l as [|a l IH]; intros c Hc; cbn [fold_left]; [exact Hc|].
  apply IH, counter_add_nonempty.
Qed.

Lemma existsb_Qeq_InA (a : Q) (l : list Q) :
  existsb (Qeq_bool a) l = true <-> InA Qeq a l.
Proof.
  rewrite existsb_exists, InA_alt. split; intros (y & H1 & H2).
  - exists y. split; [apply Qeq_bool_iff; exact H2 | exact H1].
  - exists y. split; [exact H2 | apply Qeq_bool_iff; exact H1].
Qed.

Lemma py_set_acc_NoDupA (l acc : list Q) :
  NoDupA Qeq acc ->
  NoDupA Qeq (fold_left (fun acc a => if existsb (Qeq_bool a) acc then acc else acc ++ [a]) l acc).
Proof.
  revert acc. induction l as [|a l IH]; intros acc Hacc; cbn [fold_left]; [exact Hacc|].
  apply IH. destruct (existsb (Qeq_bool a) acc) eqn:Hex; [exact Hacc|].
  apply NoDupA_app; [apply Q_Setoid | exact Hacc | repeat constructor; inversion 1 |].
  intros x Hx Hxa. apply InA_singleton in Hxa.
  assert (Hin : InA Qeq a acc) by (rewrite <- Hxa; exact Hx).
  apply existsb_Qeq_InA in Hin. congruence.
Qed.

Lemma py_set_acc_In (l acc : list Q) (x : Q) :
  In x (fold_left (fun acc a => if existsb (Qeq_bool a) acc then acc else acc ++ [a]) l acc) ->
  In x acc \/ In x l.
Proof.
  revert acc. induction l as [|a l IH]; intros acc Hin; cbn [fold_left] in Hin; [tauto|].
  apply IH in Hin as [Hin|Hin]; [|right; right; exact Hin].
  destruct (existsb (Qeq_bool a) acc); [tauto|].
  apply in_app_or in Hin as [Hin|[<-|[]]]; [tauto|]. right. left. reflexivity.
Qed.

Lemma py_set_NoDupA (l : list Q) : NoDupA Qeq (py_set l).
Proof. apply py_set_acc_NoDupA. constructor. Qed.

Lemma py_set_In (l : list Q) (x : Q) : In x (py_set l) -> In x l.
Proof. intros Hin. apply py_set_acc_In in Hin as [[]|Hin]. exact Hin. Qed.

Lemma firstn_In {A} (n : nat) (l : list A) (x : A) : In x (firstn n l) -> In x l.
Proof.
  revert n. induction l as [|a l IH]; intros [|n]; cbn [firstn In]; try tauto.
  intros [->|Hin]; [left; reflexivity | right; eapply IH; exact Hin].
Qed.

Lemma StronglySorted_firstn {A} (R : A -> A -> Prop) (n : nat) (l : list A) :
  StronglySorted R l -> StronglySorted R (firstn n l).
Proof.
  revert n. induction l as [|a l IH]; intros [|n] Hs; cbn [firstn]; try constructor.
  - apply IH. apply StronglySorted_inv in Hs. tauto.
  - apply StronglySorted_inv in Hs as [_ Ha].
    apply Forall_forall. intros x Hx. rewrite Forall_forall in Ha.
    apply Ha. apply list_elem_of_In. apply list_elem_of_In in Hx.
    eapply firstn_In. exact Hx.
Qed.

Lemma strictly_descending_NoDupA (l : list Q) :
  StronglySorted (strictly_below id) l -> NoDupA Qeq l.
Proof.
  induction l as [|a l IH]; intros Hs; constructor.
  - apply StronglySorted_inv in Hs as [_ Ha]. intros Hin.
    apply InA_alt in Hin as (b & Hab & Hin). rewrite Forall_forall in Ha.
    apply list_elem_of_In in Hin.
    specialize (Ha b Hin). unfold strictly_below, id in Ha. rewrite Hab in Ha.
    exact (Qlt_irrefl _ Ha).
  - apply IH. apply StronglySorted_inv in Hs. tauto.
Qed.

(** C5. For every list of merged lines the analysis returns a pair; its
    significant sizes are at most three, strictly descending, pairwise
    different, and each is strictly greater than the returned base size. *)
Theorem significant_sizes_invariant (lines : list Element) :
  exists sig_sizes base_size,
    analyze_font_distribution lines = Ok (sig_sizes, base_size)
    /\ (length sig_sizes <= 3)%nat
    /\ StronglySorted (fun a b => (b < a)%Q) sig_sizes
    /\ NoDupA Qeq sig_sizes
    /\ Forall (fun s => (base_size < s)%Q) sig_sizes.
Proof.
  unfold analyze_font_distribution.
  destruct (positive_sizes lines) as [|s0 sizes] eqn:Hsizes.
  - exists [], 12%Q. split; [reflexivity|]. split; [cbn; lia|].
    split; [constructor|]. split; constructor.
  - destruct (most_common_1 (Counter (s0 :: sizes))) as [|[base n] tl] eqn:Hmc.
    + exfalso. unfold most_common_1 in Hmc.
      destruct (Counter (s0 :: sizes)) eqn:Hc; [|discriminate].
      exact (Counter_nonempty _ _ Hc).
    + eexists _, base. split; [reflexivity|].
      set (sig := filter _ (map fst (Counter (s0 :: sizes)))).
      assert (Hsorted : StronglySorted (strictly_below id) (sort_desc id (py_set sig))).
      { apply sort_desc_strict. apply py_set_NoDupA. }
      assert (Hfirst : StronglySorted (strictly_below id) (firstn 3 (sort_desc id (py_set sig)))).
      { apply StronglySorted_firstn. exact Hsorted. }
      split; [apply firstn_le_length|]. split; [exact Hfirst|].
      split; [apply strictly_descending_NoDupA; exact Hfirst|].
      apply Forall_forall. intros s Hs. apply list_elem_of_In in Hs.
      apply firstn_In in Hs.
      apply list_elem_of_In in Hs. rewrite sort_desc_Permutation in Hs.
      apply list_elem_of_In, py_set_In in Hs. unfold sig in Hs.
      apply list_elem_of_In, list_elem_of_filter in Hs as [Hs _].
      apply andb_prop_elim in Hs as [Hs _].
      unfold Qlt_bool in Hs. apply Is_true_true in Hs. apply negb_true_iff in Hs.
      apply Qnot_le_lt. intros Hle. apply Qle_bool_iff in Hle. congruence.
Qed.

(** ** Level assignment *)

Lemma Qeq_bool_false (a b : Q) : Qeq_bool a b = false <-> ~ (a == b)%Q.
Proof.
  split.
  - intros Hf Heq. apply Qeq_bool_iff in Heq. congruence.
  - intros Hne. destruct (Qeq_bool a b) eqn:Hb; [|reflexivity].
    exfalso. apply Hne, Qeq_bool_iff, Hb.
Qed.

Lemma dict_get_set_eq (k k' : Q) (v dflt : string) (d : list (Q * string)) :
  (k == k')%Q -> dict_get k dflt (dict_set k' v d) = v.
Proof.
  intros Heq. induction d as [|[k0 v0] d IH]; cbn [dict_set dict_get].
  - assert (Hb : Qeq_bool k' k = true) by (apply Qeq_bool_iff; symmetry; exact Heq).
    rewrite Hb. reflexivity.
  - destruct (Qeq_bool k0 k') eqn:H0; cbn [dict_get].
    + apply Qeq_bool_iff in H0.
      assert (Hb : Qeq_bool k0 k = true).
      { apply Qeq_bool_iff. rewrite H0. symmetry. exact Heq. }
      rewrite Hb. reflexivity.
    + apply Qeq_bool_false in H0.
      assert (Hb : Qeq_bool k0 k = false).
      { apply Qeq_bool_false. intros Hn. apply H0. rewrite Hn. exact Heq. }
      rewrite Hb. exact IH.
Qed.

Lemma dict_get_set_ne (k k' : Q) (v dflt : string) (d : list (Q * string)) :
  ~ (k == k')%Q -> dict_get k dflt (dict_set k' v d) = dict_get k dflt d.
Proof.
  intros Hne. induction d as [|[k0 v0] d IH]; cbn [dict_set dict_get].
  - assert (Hb : Qeq_bool k' k = false).
    { apply Qeq_bool_false. intros Hn. apply Hne. symmetry. exact Hn. }
    rewrite Hb. reflexivity.
  - destruct (Qeq_bool k0 k') eqn:H0; cbn [dict_get].
    + apply Qeq_bool_iff in H0.
      assert (Hb : Qeq_bool k0 k = false).
      { apply Qeq_bool_false. intros Hn. apply Hne. rewrite <- Hn. exact H0. }
      rewrite Hb. reflexivity.
    + destruct (Qeq_bool k0 k); [reflexivity | exact IH].
Qed.

(** A size that is not a key of the comprehension leaves the lookup as it
    was. *)
Lemma level_map_from_other (k : Q) (dflt : string) (sig_sizes : list Q) (i : nat)
    (d : list (Q * string)) :
  ~ InA Qeq k sig_sizes ->
  dict_get k dflt (level_map_from i sig_sizes d) = dict_get k dflt d.
Proof.
  revert i d. induction sig_sizes as [|s rest IH]; intros i d Hnot; cbn [level_map_from].
  - reflexivity.
  - rewrite IH by (intros Hin; apply Hnot; right; exact Hin).
    apply dict_get_set_ne. intros Heq. apply Hnot. left. exact Heq.
Qed.

(** In a list of pairwise different sizes, the size at index [n] gets the
    level of that index. *)
Lemma level_map_from_nth (k s : Q) (dflt : string) (sig_sizes : list Q) (n i : nat)
    (d : list (Q * string)) :
  NoDupA Qeq sig_sizes ->
  sig_sizes !! n = Some s ->
  (k == s)%Q ->
  dict_get k dflt (level_map_from i sig_sizes d) = level_name (i + n + 1).
Proof.
  revert n i d. induction sig_sizes as [|s0 rest IH]; intros n i d Hnd Hn Hk.
  - discriminate.
  - inversion Hnd as [|? ? Hnotin Hnd']; subst. cbn [level_map_from].
    destruct n as [|n].
    + injection Hn as ->.
      rewrite level_map_from_other by (rewrite Hk; exact Hnotin).
      rewrite dict_get_set_eq by exact Hk. f_equal. lia.
    + cbn in Hn. rewrite (IH n (S i) _ Hnd' Hn Hk). f_equal. lia.
Qed.

(** C6. With a significant-size list that is strictly descending (as the
    analysis returns it), every candidate gets one heading, with its cleaned
    text and its page, whose level is "H1" when the candidate's size is the
    largest significant size, "H2" for the second, "H3" for the third, and
    the default "H3" when its size is not a significant size. *)
Theorem level_assignment (candidates : list Element) (sig_sizes : list Q) :
  StronglySorted (fun a b => (b < a)%Q) sig_sizes ->
  Forall2 (assigned sig_sizes) candidates (assign_heading_levels candidates sig_sizes).
Proof.
  intros Hdesc. apply strictly_descending_NoDupA in Hdesc.
  unfold assign_heading_levels.
  induction candidates as [|c rest IH]; cbn [map]; constructor; [|exact IH].
  unfold assigned. cbn [h_text h_page h_level]. unfold level_map.
  split; [reflexivity|]. split; [reflexivity|].
  split; [|split; [|split]].
  - intros s Hs Hc. exact (level_map_from_nth _ _ _ _ 0 0 [] Hdesc Hs Hc).
  - intros s Hs Hc. exact (level_map_from_nth _ _ _ _ 1 0 [] Hdesc Hs Hc).
  - intros s Hs Hc. exact (level_map_from_nth _ _ _ _ 2 0 [] Hdesc Hs Hc).
  - intros Hnot. rewrite level_map_from_other by exact Hnot. reflexivity.
Qed.

Lemma level_assignment_witness :
  Forall2 (assigned sample_sig_sizes) sample_candidates
          (assign_heading_levels sample_candidates sample_sig_sizes)
  /\ map h_level (assign_heading_levels sample_candidates sample_sig_sizes)
     = ["H1"; "H2"; "H3"; "H3"].
Proof.
  split; [|reflexivity].
  apply level_assignment. repeat constructor.
Defined.


(** ** Text cleaning *)

Lemma has_ink_sub_ws (b : bool) (s : string) : has_ink (sub_ws b s) = has_ink s.
Proof.
  unfold has_ink. revert b. induction s as [|c s IH]; intros b; [reflexivity|].
  cbn [sub_ws str_any]. destruct (is_space c) eqn:Hc; cbn [negb orb].
  - destruct b; [apply IH|]. cbn [str_any]. apply IH.
  - cbn [str_any]. rewrite Hc. reflexivity.
Qed.

Lemma has_ink_lstrip (s : string) : has_ink (lstrip s) = has_ink s.
Proof.
  unfold has_ink. induction s as [|c s IH]; [reflexivity|].
  cbn [lstrip str_any]. destruct (is_space c) eqn:Hc; cbn [negb orb]; [exact IH|].
  cbn [str_any]. rewrite Hc. reflexivity.
Qed.

Lemma has_ink_rstrip (s : string) : has_ink (rstrip s) = has_ink s.
Proof.
  unfold has_ink. induction s as [|c s IH]; [reflexivity|].
  cbn [rstrip str_any]. rewrite <- IH.
  destruct (rstrip s) as [|d r]; cbn [str_any].
  - destruct (is_space c) eqn:Hc; cbn [negb orb str_any]; [reflexivity|].
    rewrite Hc. reflexivity.
  - reflexivity.
Qed.

Lemma lstrip_no_ink (s : string) : has_ink s = false -> lstrip s = EmptyString.
Proof.
  unfold has_ink. induction s as [|c s IH]; [reflexivity|].
  cbn [lstrip str_any]. destruct (is_space c); cbn [negb orb]; [exact IH | discriminate].
Qed.

Lemma str_empty_clean_text (s : string) : str_empty (clean_text s) = negb (has_ink s).
Proof.
  unfold clean_text, strip. destruct (has_ink s) eqn:Hink; cbn [negb].
  - assert (H : has_ink (rstrip (lstrip (sub_ws false s))) = true).
    { rewrite has_ink_rstrip, has_ink_lstrip, has_ink_sub_ws. exact Hink. }
    destruct (rstrip _); [discriminate H | reflexivity].
  - rewrite lstrip_no_ink; [reflexivity|]. rewrite has_ink_sub_ws. exact Hink.
Qed.

Lemma single_spaced_sub_ws (b : bool) (s : string) : single_spaced b (sub_ws b s) = true.
Proof.
  revert b. induction s as [|c s IH]; intros b; [reflexivity|].
  cbn [sub_ws]. destruct (is_space c) eqn:Hc.
  - destruct b; [apply IH|]. cbn [single_spaced].
    change (is_space " ") with true. cbn. apply IH.
  - cbn [single_spaced]. rewrite Hc. apply IH.
Qed.

Lemma sub_ws_single_spaced (b : bool) (t : string) :
  single_spaced b t = true -> sub_ws b t = t.
Proof.
  revert b. induction t as [|c t IH]; intros b Hs; [reflexivity|].
  cbn [single_spaced] in Hs. cbn [sub_ws]. destruct (is_space c).
  - apply andb_true_iff in Hs as [Hs Ht]. apply andb_true_iff in Hs as [Hc Hb].
    apply Ascii.eqb_eq in Hc. apply negb_true_iff in Hb. subst b c.
    f_equal. apply IH. exact Ht.
  - f_equal. apply IH. exact Hs.
Qed.

Lemma single_spaced_lstrip (b : bool) (t : string) :
  single_spaced b t = true -> single_spaced false (lstrip t) = true.
Proof.
  revert b. induction t as [|c t IH]; intros b Hs; [reflexivity|].
  cbn [single_spaced] in Hs. cbn [lstrip]. destruct (is_space c) eqn:Hc.
  - apply andb_true_iff in Hs as [_ Ht]. eapply IH. exact Ht.
  - cbn [single_spaced]. rewrite Hc. exact Hs.
Qed.

Lemma single_spaced_rstrip (b : bool) (t : string) :
  single_spaced b t = true -> single_spaced b (rstrip t) = true.
Proof.
  revert b. induction t as [|c t IH]; intros b Hs; [reflexivity|].
  cbn [single_spaced] in Hs. cbn [rstrip].
  destruct (is_space c) eqn:Hc.
  - apply andb_true_iff in Hs as [Hs Ht]. specialize (IH true Ht).
    destruct (rstrip t) as [|d r]; [reflexivity|].
    cbn [single_spaced] in IH |- *. rewrite Hc, Hs. exact IH.
  - specialize (IH false Hs).
    destruct (rstrip t) as [|d r]; cbn [single_spaced] in IH |- *; rewrite Hc;
      [reflexivity | exact IH].
Qed.

Lemma rstrip_idempotent (s : string) : rstrip (rstrip s) = rstrip s.
Proof.
  induction s as [|c s IH]; [reflexivity|].
  cbn [rstrip]. destruct (rstrip s) as [|d r] eqn:Hr.
  - destruct (is_space c) eqn:Hc; [reflexivity|]. cbn [rstrip]. rewrite Hc. reflexivity.
  - change (rstrip (String c (String d r)))
      with (match rstrip (String d r) with
            | EmptyString => if is_space c then EmptyString else String c EmptyString
            | r' => String c r'
            end).
    rewrite IH. reflexivity.
Qed.

Lemma strip_idempotent (t : string) : strip (strip t) = strip t.
Proof.
  unfold strip.
  assert (Hhead : lstrip t = EmptyString
                  \/ exists c t', lstrip t = String c t' /\ is_space c = false).
  { induction t as [|c t IH]; [left; reflexivity|]. cbn [lstrip].
    destruct (is_space c) eqn:Hc; [exact IH|]. right. eauto. }
  destruct Hhead as [->|(c & t' & -> & Hc)]; [reflexivity|].
  assert (Hr : exists r, rstrip (String c t') = String c r).
  { cbn [rstrip]. destruct (rstrip t'); rewrite ?Hc; eauto. }
  destruct Hr as [r Hr]. rewrite Hr. cbn [lstrip]. rewrite Hc.
  rewrite <- Hr. apply rstrip_idempotent.
Qed.

Lemma clean_text_idempotent (s : string) : clean_text (clean_text s) = clean_text s.
Proof.
  unfold clean_text at 1.
  assert (Hs : single_spaced false (clean_text s) = true).
  { unfold clean_text, strip. apply single_spaced_rstrip.
    eapply single_spaced_lstrip. apply single_spaced_sub_ws. }
  rewrite (sub_ws_single_spaced _ _ Hs). unfold clean_text. apply strip_idempotent.
Qed.

(** ** Quantization of the line coordinate *)

Lemma py_round_comp (p q : Q) : (p == q)%Q -> py_round p = py_round q.
Proof.
  intros Heq. unfold py_round. rewrite (Qfloor_comp _ _ Heq).
  assert (Hc : (p - inject_Z (Qfloor q) ?= 1 # 2)%Q = (q - inject_Z (Qfloor q) ?= 1 # 2)%Q).
  { apply Qcompare_comp; [rewrite Heq|]; reflexivity. }
  rewrite Hc. reflexivity.
Qed.

Lemma py_round_Z (j : Z) : py_round (inject_Z j) = j.
Proof.
  unfold py_round. rewrite Qfloor_Z.
  assert (Hlt : (inject_Z j - inject_Z j ?= 1 # 2)%Q = Lt).
  { apply Qlt_alt. assert (H0 : (inject_Z j - inject_Z j == 0)%Q) by ring.
    rewrite H0. reflexivity. }
  rewrite Hlt. reflexivity.
Qed.

Lemma inject_Z_nonzero (tol : Z) : tol <> 0 -> ~ (inject_Z tol == 0)%Q.
Proof. intros Hne Heq. unfold Qeq in Heq. cbn in Heq. lia. Qed.

Lemma line_key_ok (y : Q) (tol : Z) : tol <> 0 -> line_key y tol = Ok (quantized tol y).
Proof.
  intros Hne. unfold line_key, py_div.
  assert (Hb : Qeq_bool (inject_Z tol) 0 = false).
  { apply Qeq_bool_false. apply inject_Z_nonzero. exact Hne. }
  rewrite Hb. reflexivity.
Qed.

Lemma line_key_zero (y : Q) : line_key y 0 = Raise ZeroDivisionError.
Proof. reflexivity. Qed.

Lemma quantized_comp (tol : Z) (y y' : Q) :
  (y == y')%Q -> quantized tol y = quantized tol y'.
Proof.
  intros Heq. unfold quantized. f_equal. apply py_round_comp. rewrite Heq. reflexivity.
Qed.

(** A multiple of the tolerance is its own quantization. *)
Lemma quantized_multiple (tol j : Z) :
  tol <> 0 -> quantized tol (inject_Z (j * tol)) = j * tol.
Proof.
  intros Hne. unfold quantized. f_equal.
  rewrite <- (py_round_Z j) at 2. apply py_round_comp.
  rewrite inject_Z_mult. apply Qdiv_mult_l. apply inject_Z_nonzero. exact Hne.
Qed.

(** ** Grouping *)

(** For a non-zero tolerance the first loop succeeds; the group of a key
    is what the dict held for it followed by the elements of that key, in
    their order, and the keys are those of the dict and of the elements. *)
Lemma group_lines_spec (tol : Z) (els : list Element) (acc : gmap Z (list Element)) :
  tol <> 0 ->
  exists M,
    group_lines acc els tol = Ok M
    /\ (forall k, default [] (M !! k)
                  = default [] (acc !! k) ++ filter (fun e => key_of tol e = k) els)
    /\ dom M = dom acc ∪ list_to_set (map (key_of tol) els).
Proof.
  intros Hne. revert acc. induction els as [|e rest IH]; intros acc.
  - exists acc. split; [reflexivity|]. split.
    + intros k. rewrite filter_nil, app_nil_r. reflexivity.
    + cbn [map list_to_set]. rewrite (right_id_L ∅ (∪)). reflexivity.
  - cbn [group_lines]. rewrite (line_key_ok _ _ Hne). cbn [rbind].
    fold (key_of tol e).
    destruct (IH (<[key_of tol e := default [] (acc !! key_of tol e) ++ [e]]> acc))
      as (M & HM & Hgroups & Hdom).
    exists M. split; [exact HM|]. split.
    + intros k. rewrite Hgroups, filter_cons.
      destruct (decide (key_of tol e = k)) as [->|Hk].
      * rewrite lookup_insert_eq. cbn [default]. unfold id.
        rewrite <- app_assoc. reflexivity.
      * rewrite lookup_insert_ne by exact Hk. reflexivity.
    + rewrite Hdom, dom_insert_L. cbn [map list_to_set].
      rewrite (comm_L (∪) {[key_of tol e]} (dom acc)), (assoc_L (∪)). reflexivity.
Qed.

(** ** One merged line *)

Lemma keyed_spans_ok (spans : list Element) :
  Forall (fun e => is_Some (e_x e)) spans ->
  exists keyed,
    rmap (fun e => let* k := get_x e in Ok (k, e)) spans = Ok keyed
    /\ map snd keyed = spans.
Proof.
  induction 1 as [|e spans [v Hv] _ (keyed & Hk & Hsnd)]; cbn [rmap].
  - exists []. split; reflexivity.
  - unfold get_x at 1. rewrite Hv. cbn [rbind]. rewrite Hk. cbn [rbind].
    exists ((v, e) :: keyed). split; [reflexivity|]. cbn [map snd]. rewrite Hsnd. reflexivity.
Qed.

Lemma sort_by_x_ok (spans : list Element) :
  Forall (fun e => is_Some (e_x e)) spans ->
  exists sorted, sort_by_x spans = Ok sorted /\ sorted ≡ₚ spans.
Proof.
  intros Hx. destruct (keyed_spans_ok spans Hx) as (keyed & Hk & Hsnd).
  unfold sort_by_x. rewrite Hk. cbn [rbind]. eexists. split; [reflexivity|].
  rewrite <- Hsnd. apply Permutation_map. apply sort_asc_Permutation.
Qed.

Lemma has_ink_append (s1 s2 : string) :
  has_ink (s1 +:+ s2) = has_ink s1 || has_ink s2.
Proof.
  unfold has_ink. induction s1 as [|c s1 IH]; [reflexivity|].
  simpl. rewrite IH. apply orb_assoc.
Qed.

Lemma has_ink_join (sep : string) (parts : list string) :
  Exists (fun p => has_ink p = true) parts -> has_ink (join sep parts) = true.
Proof.
  induction parts as [|p rest IH]; intros Hex; [inversion Hex|].
  cbn [join]. destruct rest as [|q rest].
  - inversion Hex as [? ? Hp|? ? Hr]; [exact Hp | inversion Hr].
  - rewrite !has_ink_append. inversion Hex as [? ? Hp|? ? Hr]; subst.
    + rewrite Hp. reflexivity.
    + rewrite (IH Hr). rewrite !orb_true_r. reflexivity.
Qed.

(** What a merged line is, whatever its spans: its line coordinate is the
    key, it has no ["x"], and its text is clean and not empty. *)
Lemma merge_line_inv (key : Z) (spans0 : list Element) (m : Element) :
  merge_line key spans0 = Ok (Some m) ->
  e_line_y m = inject_Z key
  /\ e_x m = None
  /\ clean_text (e_text m) = e_text m
  /\ str_empty (e_text m) = false.
Proof.
  unfold merge_line. destruct (sort_by_x spans0) as [spans|]; cbn [rbind]; [|discriminate].
  destruct (str_empty (clean_text _)) eqn:Hempty; [discriminate|].
  destruct (py_max _) as [max_size|]; cbn [rbind]; [|discriminate].
  destruct spans as [|rep spans]; [discriminate|].
  intros [= <-]. cbn. split; [reflexivity|]. split; [reflexivity|].
  split; [apply clean_text_idempotent | exact Hempty].
Qed.

(** Spans that all have an ["x"], one of them with ink, do make a line. *)
Lemma merge_line_some (key : Z) (spans0 : list Element) :
  Forall (fun e => is_Some (e_x e)) spans0 ->
  Exists (fun e => has_ink (e_text e) = true) spans0 ->
  exists m, merge_line key spans0 = Ok (Some m).
Proof.
  intros Hx Hink. destruct (sort_by_x_ok spans0 Hx) as (spans & Hsort & Hperm).
  unfold merge_line. rewrite Hsort. cbn [rbind].
  assert (Hink' : Exists (fun e => has_ink (e_text e) = true) spans).
  { rewrite Hperm. exact Hink. }
  rewrite str_empty_clean_text, has_ink_join.
  2:{ apply Exists_exists in Hink' as (e & He & Hi). apply Exists_exists.
      exists (e_text e). split; [|exact Hi].
      apply list_elem_of_fmap. exists e. split; [reflexivity | exact He]. }
  cbn [negb]. destruct spans as [|rep spans]; [inversion Hink'|].
  cbn [map py_max rbind]. eexists. reflexivity.
Qed.

(** Merging again a merged line that was given an ["x"], alone in its
    group. *)
Lemma merge_line_remerge (key : Z) (m : Element) (x : Q) :
  e_line_y m = inject_Z key ->
  e_x m = None ->
  clean_text (e_text m) = e_text m ->
  str_empty (e_text m) = false ->
  merge_line key [with_x x m] = Ok (Some (rebold m)).
Proof.
  destruct m as [t sz fl pg mx rx ry ly hb]. cbn [e_line_y e_x e_text].
  intros -> -> Hclean Hempty.
  unfold merge_line, sort_by_x, with_x, rebold. cbn.
  change (rstrip (lstrip (sub_ws false t))) with (clean_text t).
  rewrite Hclean, Hempty. rewrite orb_false_r. reflexivity.
Qed.

Lemma merge_keys_inv (lines : gmap Z (list Element)) (keys : list Z) (out : list Element) :
  merge_keys lines keys = Ok out ->
  exists ks,
    ks `sublist_of` keys
    /\ Forall2 (fun k m => exists spans, merge_line k spans = Ok (Some m)) ks out.
Proof.
  revert out. induction keys as [|key rest IH]; intros out; cbn [merge_keys].
  - intros [= <-]. exists []. split; constructor.
  - destruct (merge_line key _) as [line|] eqn:Hline; cbn [rbind]; [|discriminate].
    destruct (merge_keys lines rest) as [merged|]; cbn [rbind]; [|discriminate].
    destruct (IH merged eq_refl) as (ks & Hsub & Hall).
    intros [= <-]. destruct line as [m|].
    + exists (key :: ks). split; [apply sublist_skip; exact Hsub|].
      constructor; [eauto | exact Hall].
    + exists ks. split; [apply sublist_cons; exact Hsub | exact Hall].
Qed.

(** ** The keys in order *)

Lemma StronglySorted_sublist {A} (R : A -> A -> Prop) (l1 l2 : list A) :
  l1 `sublist_of` l2 -> StronglySorted R l2 -> StronglySorted R l1.
Proof.
  induction 1 as [|a l1 l2 Hsub IH|a l1 l2 Hsub IH]; intros Hs.
  - constructor.
  - apply StronglySorted_inv in Hs as [Hs Ha]. constructor; [apply IH; exact Hs|].
    rewrite Forall_forall in Ha |- *. intros b Hb. apply Ha.
    eapply sublist_subseteq; eassumption.
  - apply StronglySorted_inv in Hs as [Hs _]. apply IH. exact Hs.
Qed.

Lemma StronglySorted_le_lt (l : list Z) :
  StronglySorted Z.le l -> NoDup l -> StronglySorted Z.lt l.
Proof.
  induction l as [|a l IH]; intros Hs Hnd; [constructor|].
  apply StronglySorted_inv in Hs as [Hs Ha]. apply NoDup_cons in Hnd as [Hnotin Hnd].
  constructor; [apply IH; assumption|].
  rewrite Forall_forall in Ha |- *. intros b Hb. specialize (Ha b Hb).
  assert (a <> b) by (intros ->; exact (Hnotin Hb)). lia.
Qed.

Lemma StronglySorted_lt_NoDup (l : list Z) : StronglySorted Z.lt l -> NoDup l.
Proof.
  induction l as [|a l IH]; intros Hs; [constructor|].
  apply StronglySorted_inv in Hs as [Hs Ha]. apply NoDup_cons. split; [|apply IH; exact Hs].
  intros Hin. rewrite Forall_forall in Ha. specialize (Ha a Hin). lia.
Qed.

Lemma StronglySorted_lt_le (l : list Z) : StronglySorted Z.lt l -> StronglySorted Z.le l.
Proof.
  induction 1 as [|a l Hs IH Ha]; constructor; [exact IH|].
  eapply Forall_impl; [exact Ha|]. cbn. lia.
Qed.

Lemma sorted_keys_strict (lines : gmap Z (list Element)) :
  StronglySorted Z.lt (sorted_keys lines).
Proof.
  unfold sorted_keys. apply StronglySorted_le_lt.
  - apply StronglySorted_merge_sort; apply _.
  - rewrite merge_sort_Permutation. apply NoDup_elements.
Qed.

Lemma sorted_keys_elem (lines : gmap Z (list Element)) (k : Z) :
  k ∈ sorted_keys lines <-> k ∈ dom lines.
Proof. unfold sorted_keys. rewrite merge_sort_Permutation. apply elem_of_elements. Qed.

(** A dict whose keys are those of a strictly ascending list is iterated by
    [sorted] in the order of that list. *)
Lemma sorted_keys_unique (lines : gmap Z (list Element)) (ks : list Z) :
  StronglySorted Z.lt ks -> dom lines = list_to_set ks -> sorted_keys lines = ks.
Proof.
  intros Hs Hdom. apply (Sorted_unique Z.le).
  - apply StronglySorted_Sorted, StronglySorted_lt_le, sorted_keys_strict.
  - apply StronglySorted_Sorted, StronglySorted_lt_le, Hs.
  - unfold sorted_keys. rewrite merge_sort_Permutation, Hdom.
    apply elements_list_to_set, StronglySorted_lt_NoDup, Hs.
Qed.

Lemma filter_key_unique {A B} `{EqDecision B} (f : A -> B) (l : list A) (a : A) :
  NoDup (map f l) -> a ∈ l -> filter (fun e => f e = f a) l = [a].
Proof.
  induction l as [|b l IH]; intros Hnd Hin; [apply elem_of_nil in Hin; destruct Hin|].
  cbn [map] in Hnd. apply NoDup_cons in Hnd as [Hnotin Hnd].
  assert (Hnone : forall c, f c = f b -> filter (fun e => f e = f c) l = []).
  { intros c Hc. destruct (filter (fun e => f e = f c) l) as [|e tl] eqn:Hf; [reflexivity|].
    exfalso. assert (He : e ∈ filter (fun e => f e = f c) l) by (rewrite Hf; left).
    apply list_elem_of_filter in He as [Hfe He].
    apply Hnotin. rewrite <- Hc, <- Hfe. apply list_elem_of_fmap. eauto. }
  apply elem_of_cons in Hin as [->|Hin].
  - rewrite filter_cons_True by reflexivity. rewrite Hnone by reflexivity. reflexivity.
  - rewrite filter_cons_False; [apply IH; assumption|].
    intros Hfb. apply Hnotin. rewrite Hfb. apply list_elem_of_fmap. eauto.
Qed.

(** ** The output of [merge_by_line] *)

Lemma merge_by_line_nil (tol : Z) : merge_by_line [] tol = Ok [].
Proof. reflexivity. Qed.

Lemma merge_by_line_zero (els out : list Element) :
  merge_by_line els 0 = Ok out -> els = [] /\ out = [].
Proof.
  destruct els as [|e els]; [intros [= <-]; split; reflexivity|].
  unfold merge_by_line. cbn [group_lines]. rewrite line_key_zero. discriminate.
Qed.

Lemma merged_lines_keys (tol : Z) (ks : list Z) (out : list Element) :
  Forall (fun k => quantized tol (inject_Z k) = k) ks ->
  Forall2 (fun k m => exists spans, merge_line k spans = Ok (Some m)) ks out ->
  map (key_of tol) out = ks /\ Forall (merged_line tol) out.
Proof.
  intros Hks Hall. induction Hall as [|k m ks out (spans & Hm) _ IH].
  - split; constructor.
  - apply Forall_cons in Hks as [Hk Hks]. destruct (IH Hks) as [Hmap Hgood].
    apply merge_line_inv in Hm as (Hy & Hx & Hclean & Hempty).
    assert (Hkey : key_of tol m = k) by (unfold key_of; rewrite Hy; exact Hk).
    split; [cbn [map]; rewrite Hkey, Hmap; reflexivity|].
    constructor; [|exact Hgood]. unfold merged_line. rewrite Hkey. tauto.
Qed.

(** The lines the merger returns are merged lines, and their keys are
    strictly ascending. *)
Lemma merge_by_line_output (tol : Z) (els out : list Element) :
  tol <> 0 ->
  merge_by_line els tol = Ok out ->
  Forall (merged_line tol) out /\ StronglySorted Z.lt (map (key_of tol) out).
Proof.
  intros Hne. unfold merge_by_line.
  destruct (group_lines_spec tol els ∅ Hne) as (M & HM & _ & Hdom).
  rewrite HM. cbn [rbind]. intros Hkeys.
  apply merge_keys_inv in Hkeys as (ks & Hsub & Hall).
  assert (Hks : Forall (fun k => quantized tol (inject_Z k) = k) ks).
  { apply Forall_forall. intros k Hk.
    apply (sublist_subseteq _ _ Hsub), sorted_keys_elem in Hk.
    rewrite Hdom, dom_empty_L, (left_id_L ∅ (∪)) in Hk.
    apply elem_of_list_to_set, list_elem_of_fmap in Hk as (e & -> & _).
    apply quantized_multiple. exact Hne. }
  destruct (merged_lines_keys tol ks out Hks Hall) as [Hmap Hgood].
  split; [exact Hgood|]. rewrite Hmap.
  eapply StronglySorted_sublist; [exact Hsub | apply sorted_keys_strict].
Qed.

Lemma merge_keys_singletons (tol : Z) (x_of : Element -> Q)
    (M : gmap Z (list Element)) (l : list Element) :
  Forall (fun m => merged_line tol m
                   /\ default [] (M !! key_of tol m) = [with_x (x_of m) m]) l ->
  merge_keys M (map (key_of tol) l) = Ok (map rebold l).
Proof.
  induction 1 as [|m l [(Hy & Hx & Hclean & Hempty) Hgroup] _ IH]; [reflexivity|].
  cbn [map merge_keys]. rewrite Hgroup.
  rewrite (merge_line_remerge _ m _ Hy Hx Hclean Hempty). cbn [rbind].
  rewrite IH. reflexivity.
Qed.

(** Merged lines of strictly ascending keys, each given an ["x"], are
    merged one by one: every line is alone in its group and comes out as it
    was, but for ["has_bold"], which is computed from its flags. *)
Lemma remerge (tol : Z) (x_of : Element -> Q) (out : list Element) :
  tol <> 0 ->
  Forall (merged_line tol) out ->
  StronglySorted Z.lt (map (key_of tol) out) ->
  merge_by_line (map (fun m => with_x (x_of m) m) out) tol = Ok (map rebold out).
Proof.
  intros Hne Hgood Hsorted. unfold merge_by_line.
  destruct (group_lines_spec tol (map (fun m => with_x (x_of m) m) out) ∅ Hne)
    as (M & HM & Hgroups & Hdom).
  rewrite HM. cbn [rbind].
  assert (Hkeys : map (key_of tol) (map (fun m => with_x (x_of m) m) out)
                  = map (key_of tol) out).
  { rewrite map_map. reflexivity. }
  rewrite Hkeys, dom_empty_L, (left_id_L ∅ (∪)) in Hdom.
  rewrite (sorted_keys_unique M _ Hsorted Hdom).
  apply (merge_keys_singletons tol x_of). apply Forall_forall. intros m Hm.
  split; [rewrite Forall_forall in Hgood; apply Hgood; exact Hm|].
  rewrite Hgroups, lookup_empty. cbn [default app].
  change (key_of tol m) with (key_of tol (with_x (x_of m) m)).
  apply filter_key_unique.
  - rewrite Hkeys. apply StronglySorted_lt_NoDup. exact Hsorted.
  - apply list_elem_of_fmap. exists m. split; [reflexivity | exact Hm].
Qed.

(** ** Line merging: the claims *)

(** C4, as stated, fails: at tolerance 3 the line coordinates 100 and 101
    round to the multiples 99 and 102, and two fragments of one page at 100
    and 101 come out as two lines. *)
Lemma merge_100_101_counterexample :
  e_page frag_100 = e_page frag_101
  /\ line_key (e_line_y frag_100) 3 = Ok 99
  /\ line_key (e_line_y frag_101) 3 = Ok 102
  /\ (exists m1 m2,
        merge_by_line [frag_100; frag_101] 3 = Ok [m1; m2]
        /\ e_text m1 = "Annual" /\ e_text m2 = "Report")
  /\ ~ (exists m, merge_by_line [frag_100; frag_101] 3 = Ok [m]).
Proof.
  split; [reflexivity|]. split; [reflexivity|]. split; [reflexivity|]. split.
  - eexists _, _. split; [vm_compute; reflexivity|]. split; reflexivity.
  - intros [m Hm]. vm_compute in Hm. discriminate Hm.
Qed.

(** C4, amended.  At tolerance 3 every line coordinate is rounded to the
    nearest multiple of 3, and two fragments are merged when these multiples
    are equal.  The coordinates 101 and 102 both round to 102: two fragments
    at 101 and 102 (each with an ["x"], one with ink) are merged into one
    line, the line built from both under the key 102.  The coordinates 100
    and 101 round to 99 and 102: two such fragments (each with ink) remain
    two lines, each built from its own fragment. *)
Theorem merge_tolerance_quantized (a b : Element) :
  is_Some (e_x a) ->
  is_Some (e_x b) ->
  has_ink (e_text a) = true ->
  ((e_line_y a == 101)%Q ->
   (e_line_y b == 102)%Q ->
   exists m, merge_by_line [a; b] 3 = Ok [m] /\ merge_line 102 [a; b] = Ok (Some m))
  /\ ((e_line_y a == 100)%Q ->
      (e_line_y b == 101)%Q ->
      has_ink (e_text b) = true ->
      exists m1 m2,
        merge_by_line [a; b] 3 = Ok [m1; m2]
        /\ merge_line 99 [a] = Ok (Some m1)
        /\ merge_line 102 [b] = Ok (Some m2)).
Proof.
  intros Hxa Hxb Hink.
  destruct (group_lines_spec 3 [a; b] ∅ ltac:(discriminate)) as (M & HM & Hgroups & Hdom).
  split.
  - intros Hya Hyb.
    assert (Hka : key_of 3 a = 102).
    { unfold key_of. rewrite (quantized_comp 3 _ _ Hya). reflexivity. }
    assert (Hkb : key_of 3 b = 102).
    { unfold key_of. rewrite (quantized_comp 3 _ _ Hyb). reflexivity. }
    destruct (merge_line_some 102 [a; b]) as [m Hm].
    { repeat constructor; assumption. }
    { left. exact Hink. }
    exists m. split; [|exact Hm]. unfold merge_by_line.
    rewrite HM. cbn [rbind].
    assert (Hkeys : sorted_keys M = [102]).
    { apply sorted_keys_unique; [repeat constructor|].
      rewrite Hdom. cbn [map]. rewrite Hka, Hkb. cbn [list_to_set].
      rewrite dom_empty_L. set_solver. }
    rewrite Hkeys. cbn [merge_keys]. rewrite Hgroups, lookup_empty. cbn [default app].
    rewrite filter_cons_True by exact Hka. rewrite filter_cons_True by exact Hkb.
    rewrite filter_nil, Hm. reflexivity.
  - intros Hya Hyb Hinkb.
    assert (Hka : key_of 3 a = 99).
    { unfold key_of. rewrite (quantized_comp 3 _ _ Hya). reflexivity. }
    assert (Hkb : key_of 3 b = 102).
    { unfold key_of. rewrite (quantized_comp 3 _ _ Hyb). reflexivity. }
    destruct (merge_line_some 99 [a]) as [m1 Hm1].
    { repeat constructor; assumption. }
    { left. exact Hink. }
    destruct (merge_line_some 102 [b]) as [m2 Hm2].
    { repeat constructor; assumption. }
    { left. exact Hinkb. }
    exists m1, m2. split; [|split; assumption]. unfold merge_by_line.
    rewrite HM. cbn [rbind].
    assert (Hkeys : sorted_keys M = [99; 102]).
    { apply sorted_keys_unique.
      - repeat constructor.
      - rewrite Hdom. cbn [map]. rewrite Hka, Hkb. cbn [list_to_set].
        rewrite dom_empty_L. set_solver. }
    rewrite Hkeys. cbn [merge_keys]. rewrite !Hgroups, !lookup_empty. cbn [default app].
    rewrite (filter_cons_True (fun e => key_of 3 e = 99) a) by exact Hka.
    rewrite (filter_cons_False (fun e => key_of 3 e = 99) b) by (rewrite Hkb; discriminate).
    rewrite (filter_cons_False (fun e => key_of 3 e = 102) a) by (rewrite Hka; discriminate).
    rewrite (filter_cons_True (fun e => key_of 3 e = 102) b) by exact Hkb.
    rewrite !filter_nil, Hm1. cbn [rbind]. rewrite Hm2. reflexivity.
Qed.

Lemma merge_tolerance_quantized_witness :
  (exists m, merge_by_line [frag_plain_101; frag_bold_102] 3 = Ok [m]
             /\ merge_line 102 [frag_plain_101; frag_bold_102] = Ok (Some m))
  /\ (exists m1 m2,
        merge_by_line [frag_100; frag_101] 3 = Ok [m1; m2]
        /\ merge_line 99 [frag_100] = Ok (Some m1)
        /\ merge_line 102 [frag_101] = Ok (Some m2)).
Proof.
  split.
  - apply (merge_tolerance_quantized frag_plain_101 frag_bold_102);
      [eexists; reflexivity | eexists; reflexivity | reflexivity..].
  - apply (merge_tolerance_quantized frag_100 frag_101);
      [eexists; reflexivity | eexists; reflexivity | reflexivity..].
Defined.

(** C1, at a failing input: a fragment of page 1 and a fragment of page 2
    with the same line coordinate are merged into one line, which is
    reported on page 1; the clustering key is the quantized coordinate
    alone.  So the two headings of a two-page document that lie at the same
    height come out of [extract_outline] as one heading of page 1. *)
Theorem page_isolation_failing_input :
  e_page frag_page1 = 1 /\ e_page frag_page2 = 2
  /\ (exists m,
        merge_by_line [frag_page1; frag_page2] 3 = Ok [m]
        /\ e_text m = "Annual Summary" /\ e_page m = 1)
  /\ fst (extract_outline sample_open "dataset/collide.pdf" world0)
     = Ok {| title := "1. Introduction";
             outline := [ {| h_level := "H3";
                             h_text := "1. Introduction 2. Methods";
                             h_page := 1 |} ] |}.
Proof.
  split; [reflexivity|]. split; [reflexivity|]. split.
  - eexists. split; [vm_compute; reflexivity|]. split; reflexivity.
  - vm_compute. reflexivity.
Qed.

(** The merged lines themselves cannot be sorted by ["x"]: merging a
    non-empty output again raises on its first line. *)
Lemma remerge_raises (tol : Z) (out : list Element) :
  tol <> 0 ->
  Forall (merged_line tol) out ->
  StronglySorted Z.lt (map (key_of tol) out) ->
  out <> [] ->
  merge_by_line out tol = Raise (KeyError "x").
Proof.
  intros Hne Hgood Hsorted Hnonempty. unfold merge_by_line.
  destruct (group_lines_spec tol out ∅ Hne) as (M & HM & Hgroups & Hdom).
  rewrite HM. cbn [rbind].
  rewrite dom_empty_L, (left_id_L ∅ (∪)) in Hdom.
  rewrite (sorted_keys_unique M _ Hsorted Hdom).
  destruct out as [|m rest]; [congruence|].
  cbn [map merge_keys]. rewrite Hgroups, lookup_empty. cbn [default app].
  rewrite filter_key_unique; [| apply StronglySorted_lt_NoDup; exact Hsorted | left].
  apply Forall_cons in Hgood as [(_ & Hx & _) _].
  unfold merge_line, sort_by_x. cbn [rmap]. unfold get_x. rewrite Hx. reflexivity.
Qed.

(** C8, as stated, fails: the merger applied to its own output raises,
    because a merged line has no ["x"]; and when the output is given an
    ["x"], the line merged from a plain and a bold fragment loses its
    ["has_bold"]. *)
Lemma remerge_counterexample :
  merge_by_line [frag_plain_101; frag_bold_102] 3 = Ok [merged_plain_bold]
  /\ merge_by_line [merged_plain_bold] 3 = Raise (KeyError "x")
  /\ merge_by_line [with_x 72 merged_plain_bold] 3 = Ok [rebold merged_plain_bold]
  /\ e_has_bold merged_plain_bold = Some true
  /\ e_has_bold (rebold merged_plain_bold) = Some false.
Proof.
  split; [vm_compute; reflexivity|].
  split; [vm_compute; reflexivity|]. split; [vm_compute; reflexivity|].
  split; reflexivity.
Qed.

(** C8, amended.  When the merger at some tolerance returned [out], merging
    [out] again at that tolerance, each line having been given an ["x"],
    returns the same lines in the same order, with the same text, size,
    flags, page, relative position and line coordinate; ["has_bold"] alone
    is computed anew, from the flags the line carries.  Without the ["x"]
    the second merge of a non-empty [out] raises [KeyError]. *)
Theorem line_merging_remerge (tol : Z) (els out : list Element) (x_of : Element -> Q) :
  merge_by_line els tol = Ok out ->
  merge_by_line (map (fun m => with_x (x_of m) m) out) tol = Ok (map rebold out)
  /\ (out <> [] -> merge_by_line out tol = Raise (KeyError "x")).
Proof.
  intros Hout. destruct (decide (tol = 0)) as [->|Hne].
  - apply merge_by_line_zero in Hout as [_ ->]. split; [reflexivity | congruence].
  - destruct (merge_by_line_output tol els out Hne Hout) as [Hgood Hsorted].
    split; [apply remerge; assumption | apply remerge_raises; assumption].
Qed.

Lemma line_merging_remerge_witness :
  merge_by_line (map (fun m => with_x 72 m) [merged_plain_bold]) 3
  = Ok (map rebold [merged_plain_bold])
  /\ ([merged_plain_bold] <> [] ->
      merge_by_line [merged_plain_bold] 3 = Raise (KeyError "x")).
Proof.
  apply (line_merging_remerge 3 [frag_plain_101; frag_bold_102]).
  vm_compute. reflexivity.
Defined.

(** ** Orchestration *)

(** The [try] block changes the world only by opening and closing the
    document. *)
Lemma extract_outline_try_world (pymupdf_open : string -> result Document)
    (pdf_path : string) (w w1 : World) (r : result Outline) :
  extract_outline_try pymupdf_open pdf_path w = (r, w1) ->
  stdout w1 = stdout w /\ written w1 = written w.
Proof.
  unfold extract_outline_try, bind, doc_open, doc_close, lift.
  destruct (pymupdf_open pdf_path) as [doc|e]; [|intros [= <- <-]; split; reflexivity].
  destruct (extract_text_with_metadata doc) as [pages|e];
    intros [= <- <-]; split; reflexivity.
Qed.

Lemma extract_outline_total (pymupdf_open : string -> result Document)
    (pdf_path : string) (w : World) :
  exists o w',
    extract_outline pymupdf_open pdf_path w = (Ok o, w')
    /\ written w' = written w
    /\ (forall line, line ∈ stdout w -> line ∈ stdout w')
    /\ (forall e w1, extract_outline_try pymupdf_open pdf_path w = (Raise e, w1) ->
                     o = {| title := stem pdf_path; outline := [] |}).
Proof.
  unfold extract_outline, try_except.
  destruct (extract_outline_try pymupdf_open pdf_path w) as [[o|e] w1] eqn:Htry;
    destruct (extract_outline_try_world _ _ _ _ _ Htry) as [Hout Hwritten].
  - exists o, w1. split; [reflexivity|]. split; [exact Hwritten|].
    split; [rewrite Hout; tauto | discriminate].
  - eexists _, _. split; [reflexivity|]. cbn [written stdout]. split; [exact Hwritten|].
    split; [|reflexivity].
    intros line Hline. rewrite Hout. apply elem_of_app. left. exact Hline.
Qed.

Lemma process_and_save_total (pymupdf_open : string -> result Document)
    (can_mkdir can_write : string -> bool) (pdf_path output_dir : string) (w : World) :
  can_mkdir output_dir = true ->
  can_write (output_file output_dir pdf_path) = true ->
  exists o w',
    process_and_save pymupdf_open can_mkdir can_write pdf_path output_dir w = (Ok tt, w')
    /\ written w' = <[output_file output_dir pdf_path := o]> (written w)
    /\ (forall line, line ∈ stdout w -> line ∈ stdout w')
    /\ ("Saved outline to " +:+ output_file output_dir pdf_path) ∈ stdout w'
    /\ (forall e w1, extract_outline_try pymupdf_open pdf_path w = (Raise e, w1) ->
                     o = {| title := stem pdf_path; outline := [] |}).
Proof.
  intros Hdir Hfile.
  destruct (extract_outline_total pymupdf_open pdf_path w)
    as (o & w1 & Hrun & Hwritten & Hout & Hfail).
  unfold process_and_save, bind, mkdir, write_json. rewrite Hdir, Hrun, Hfile. cbn.
  eexists o, _. split; [reflexivity|]. cbn [written stdout].
  split; [rewrite Hwritten; reflexivity|].
  split; [|split; [|exact Hfail]].
  - intros line Hline. apply elem_of_app. left. apply Hout. exact Hline.
  - apply elem_of_app. right. left.
Qed.

(** The loop of [process_folder] runs to its end whatever the decoder
    does with the documents: every document of the list gets its output file
    and its ["Saved outline"] line. *)
Lemma process_each_total (pymupdf_open : string -> result Document)
    (can_mkdir can_write : string -> bool)
    (pdf_files : list string) (output_dir : string) (w : World) :
  can_mkdir output_dir = true ->
  (forall pdf, pdf ∈ pdf_files -> can_write (output_file output_dir pdf) = true) ->
  exists w',
    process_each pymupdf_open can_mkdir can_write pdf_files output_dir w = (Ok tt, w')
    /\ (forall f, is_Some (written w !! f) -> is_Some (written w' !! f))
    /\ (forall line, line ∈ stdout w -> line ∈ stdout w')
    /\ (forall pdf, pdf ∈ pdf_files ->
          is_Some (written w' !! output_file output_dir pdf)
          /\ ("Saved outline to " +:+ output_file output_dir pdf) ∈ stdout w').
Proof.
  intros Hdir. revert w.
  induction pdf_files as [|pdf rest IH]; intros w Hfiles_ok; cbn [process_each].
  - exists w. split; [reflexivity|]. split; [tauto|]. split; [tauto|].
    intros pdf Hin. apply elem_of_nil in Hin. destruct Hin.
  - unfold bind at 1. cbn [print].
    set (w0 := {| open_handles := open_handles w;
                  stdout := stdout w ++ ["Processing " +:+ path_name pdf +:+ " ..."];
                  written := written w |}).
    destruct (process_and_save_total pymupdf_open can_mkdir can_write pdf output_dir w0 Hdir)
      as (o & w1 & Hsave & Hwritten & Hout & Hsaved & _).
    { apply Hfiles_ok. left. }
    unfold bind at 1. rewrite Hsave.
    destruct (IH w1) as (w' & Hrest & Hfiles & Hlines & Hall).
    { intros pdf' Hin. apply Hfiles_ok. right. exact Hin. }
    exists w'. split; [exact Hrest|]. split; [|split].
    + intros f Hf. apply Hfiles. rewrite Hwritten.
      destruct (decide (output_file output_dir pdf = f)) as [->|Hne].
      * rewrite lookup_insert_eq. eauto.
      * rewrite lookup_insert_ne by exact Hne. exact Hf.
    + intros line Hline. apply Hlines, Hout. cbn [stdout w0].
      apply elem_of_app. left. exact Hline.
    + intros pdf' Hin. apply elem_of_cons in Hin as [->|Hin]; [|apply Hall; exact Hin].
      split; [|apply Hlines; exact Hsaved].
      apply Hfiles. rewrite Hwritten, lookup_insert_eq. eauto.
Qed.

(** C2. [extract_outline] never raises; when its [try] block fails, at
    whatever step, the record it returns is the title-only record of the
    document's stem with an empty outline, and that record is the one written
    to the document's output file.  No failure of the decoder or of the
    pipeline stops the batch: where the output directory can be made and the
    output files written, the loop over the documents of a folder, and
    [process_folder] itself, run to their end, and every document of the
    batch gets its output file. *)
Theorem failure_isolation (pymupdf_open : string -> result Document)
    (glob_pdf : string -> option (list string))
    (can_mkdir can_write : string -> bool) :
  (forall pdf_path w,
     exists o w',
       extract_outline pymupdf_open pdf_path w = (Ok o, w')
       /\ (forall e w1,
             extract_outline_try pymupdf_open pdf_path w = (Raise e, w1) ->
             o = {| title := stem pdf_path; outline := [] |}))
  /\ (forall pdf_path output_dir w e w1,
        can_mkdir output_dir = true ->
        can_write (output_file output_dir pdf_path) = true ->
        extract_outline_try pymupdf_open pdf_path w = (Raise e, w1) ->
        exists w',
          process_and_save pymupdf_open can_mkdir can_write pdf_path output_dir w
          = (Ok tt, w')
          /\ written w' !! output_file output_dir pdf_path
             = Some {| title := stem pdf_path; outline := [] |})
  /\ (forall pdf_files output_dir w,
        can_mkdir output_dir = true ->
        (forall pdf, pdf ∈ pdf_files -> can_write (output_file output_dir pdf) = true) ->
        exists w',
          process_each pymupdf_open can_mkdir can_write pdf_files output_dir w
          = (Ok tt, w')
          /\ forall pdf, pdf ∈ pdf_files ->
               is_Some (written w' !! output_file output_dir pdf)
               /\ ("Saved outline to " +:+ output_file output_dir pdf) ∈ stdout w')
  /\ (forall input_dir output_dir w,
        can_mkdir output_dir = true ->
        (forall file, can_write file = true) ->
        exists w',
          process_folder pymupdf_open glob_pdf can_mkdir can_write input_dir output_dir w
          = (Ok tt, w')).
Proof.
  split; [|split; [|split]].
  - intros pdf_path w.
    destruct (extract_outline_total pymupdf_open pdf_path w) as (o & w' & Hrun & _ & _ & Hfail).
    eauto.
  - intros pdf_path output_dir w e w1 Hdir Hfile Htry.
    destruct (process_and_save_total pymupdf_open can_mkdir can_write
                pdf_path output_dir w Hdir Hfile)
      as (o & w' & Hsave & Hwritten & _ & _ & Hfail).
    exists w'. split; [exact Hsave|].
    rewrite Hwritten, lookup_insert_eq, (Hfail e w1 Htry). reflexivity.
  - intros pdf_files output_dir w Hdir Hfiles.
    destruct (process_each_total pymupdf_open can_mkdir can_write
                pdf_files output_dir w Hdir Hfiles)
      as (w' & Hrun & _ & _ & Hall).
    eauto.
  - intros input_dir output_dir w Hdir Hfiles. unfold process_folder.
    destruct (glob_pdf input_dir) as [[|pdf rest]|]; try (eexists; reflexivity).
    unfold bind at 1. cbn [print].
    match goal with |- exists _, bind _ _ ?w0 = _ =>
      destruct (process_each_total pymupdf_open can_mkdir can_write
                  (pdf :: rest) output_dir w0 Hdir)
        as (w1 & Hrun & _)
    end.
    { intros pdf' _. apply Hfiles. }
    unfold bind at 1. rewrite Hrun. eexists. reflexivity.
Qed.

Lemma failure_isolation_witness :
  (exists w',
     process_and_save sample_open always always "dataset/damaged.pdf" "output" world0
     = (Ok tt, w')
     /\ written w' !! output_file "output" "dataset/damaged.pdf"
        = Some {| title := stem "dataset/damaged.pdf"; outline := [] |})
  /\ (exists w',
        process_each sample_open always always
                     ["dataset/corrupt.pdf"; "dataset/report.pdf"] "output" world0
        = (Ok tt, w')
        /\ is_Some (written w' !! output_file "output" "dataset/report.pdf"))
  /\ (exists w',
        process_folder sample_open sample_glob always always "dataset" "output" world0
        = (Ok tt, w')).
Proof.
  destruct (failure_isolation sample_open sample_glob always always)
    as (_ & Hsave & Heach & Hfolder).
  split; [|split].
  - eapply Hsave; reflexivity.
  - destruct (Heach ["dataset/corrupt.pdf"; "dataset/report.pdf"] "output" world0)
      as (w' & Hrun & Hall); [reflexivity | reflexivity |].
    exists w'. split; [exact Hrun|].
    apply (Hall "dataset/report.pdf"). right. left.
  - apply Hfolder; reflexivity.
Defined.

(** The claim as it is written fails where the step that fails is the writing
    of the output: on a machine that cannot write the output file of the
    damaged document, [process_folder] raises at that document, which gets no
    record at all, and the report that comes after it in the folder is never
    processed. *)
Lemma failure_isolation_counterexample :
  fst (process_folder sample_open sample_glob always locked "dataset" "output" world0)
  = Raise (OSError "Permission denied: output/output_damaged.json")
  /\ written (snd (process_folder sample_open sample_glob always locked
                                  "dataset" "output" world0))
     = {[ "output/output_corrupt.json" := {| title := "corrupt"; outline := [] |} ]}
  /\ stdout (snd (process_folder sample_open sample_glob always locked
                                 "dataset" "output" world0))
     = [ "Processing 3 PDFs from dataset";
         "Processing corrupt.pdf ...";
         "Failed to process dataset/corrupt.pdf: cannot open document";
         "Saved outline to output/output_corrupt.json";
         "Processing damaged.pdf ...";
         "Failed to process dataset/damaged.pdf: cannot read page" ].
Proof. split; [|split]; vm_compute; reflexivity. Qed.

(** When the document opens and the extraction raises, the document is
    still open when [extract_outline] returns. *)
Lemma extract_outline_leaves_open (pymupdf_open : string -> result Document)
    (pdf_path : string) (doc : Document) (e : exn) (w : World) :
  pymupdf_open pdf_path = Ok doc ->
  extract_text_with_metadata doc = Raise e ->
  pdf_path ∈ open_handles (snd (extract_outline pymupdf_open pdf_path w)).
Proof.
  intros Hopen Hextract.
  unfold extract_outline, try_except, extract_outline_try, bind, doc_open, lift.
  rewrite Hopen, Hextract. cbn. left.
Qed.

(** When the extraction returns, the document is closed before the
    pipeline runs. *)
Lemma extract_outline_closes (pymupdf_open : string -> result Document)
    (pdf_path : string) (doc : Document) (pages : list (list Element)) (w : World) :
  pymupdf_open pdf_path = Ok doc ->
  extract_text_with_metadata doc = Ok pages ->
  pdf_path ∉ open_handles (snd (extract_outline pymupdf_open pdf_path w)).
Proof.
  intros Hopen Hextract.
  unfold extract_outline, try_except, extract_outline_try, bind, doc_open, doc_close, lift.
  rewrite Hopen, Hextract.
  destruct (outline_of_pages pdf_path pages); unfold print, ret;
    cbn [snd fst open_handles]; rewrite list_elem_of_In; apply remove_In.
Qed.

(** C9, at a failing input: for a document that opens and whose page the
    decoder cannot read, [extract_outline] returns the title-only record and
    leaves the document open, since [doc.close()] is reached only when
    the extraction returns; the report, whose extraction returns, is
    closed. *)
Theorem decoder_release_failing_input :
  extract_outline sample_open "dataset/damaged.pdf" world0
  = (Ok {| title := "damaged"; outline := [] |},
     {| open_handles := ["dataset/damaged.pdf"];
        stdout := ["Failed to process dataset/damaged.pdf: cannot read page"];
        written := ∅ |})
  /\ open_handles (snd (extract_outline sample_open "dataset/report.pdf" world0)) = [].
Proof. split; vm_compute; reflexivity. Qed.

(** C3, at a failing input: in the report the heading of page 2, which lies
    higher on its page than the heading of page 1 does on its own, comes
    first in the outline; the lines are ordered by their quantized line
    coordinate, whatever their pages. *)
Theorem outline_order_failing_input :
  fst (extract_outline sample_open "dataset/report.pdf" world0)
  = Ok {| title := "Report";
          outline := [ {| h_level := "H3"; h_text := "2. Methods"; h_page := 2 |};
                       {| h_level := "H3"; h_text := "1. Introduction"; h_page := 1 |} ] |}.
Proof. vm_compute. reflexivity. Qed.

(** ** Determinism and tie-breaks *)

(** The record [extract_outline] returns depends on the document alone, not
    on the world the call starts in. *)
Lemma extract_outline_world_independent (pymupdf_open : string -> result Document)
    (pdf_path : string) (w1 w2 : World) :
  fst (extract_outline pymupdf_open pdf_path w1)
  = fst (extract_outline pymupdf_open pdf_path w2).
Proof.
  unfold extract_outline, try_except, extract_outline_try, bind, doc_open, doc_close, lift.
  destruct (pymupdf_open pdf_path) as [doc|e]; [|reflexivity].
  destruct (extract_text_with_metadata doc) as [pages|e]; [|reflexivity].
  destruct (outline_of_pages pdf_path pages); reflexivity.
Qed.

(** Sorting makes the order in which [set] lists the sizes irrelevant. *)
Lemma sorted_set_order_independent (l order : list Q) :
  order ≡ₚ py_set l -> sort_desc id order = sort_desc id (py_set l).
Proof.
  intros Hperm.
  assert (Hnd : NoDupA Qeq order).
  { eapply PermutationA_preserves_NoDupA; [apply Q_Setoid | | apply py_set_NoDupA].
    apply Permutation_PermutationA; [apply Q_Setoid|]. symmetry. exact Hperm. }
  apply (StronglySorted_unique_strong (strictly_below id)).
  - unfold strictly_below, id. intros x1 x2 _ _ H1 H2. exfalso.
    exact (Qlt_irrefl _ (Qlt_trans _ _ _ H1 H2)).
  - apply sort_desc_strict. exact Hnd.
  - apply sort_desc_strict. apply py_set_NoDupA.
  - rewrite !sort_desc_Permutation. exact Hperm.
Qed.

(** The title is the text of the first candidate of largest size. *)
Lemma get_title_first_largest (first_page : list Element) (rest : list (list Element)) :
  title_candidates first_page <> [] ->
  exists s,
    first_largest fst (s, get_title (first_page :: rest)) (title_candidates first_page).
Proof.
  intros Hcand. unfold get_title.
  destruct (sort_desc fst (title_candidates first_page)) as [|[s t] tl] eqn:Hsort.
  - exfalso. apply Hcand. apply Permutation_nil_r.
    rewrite <- Hsort. symmetry. apply sort_desc_Permutation.
  - exists s. apply (sort_desc_head fst _ _ _ Hsort).
Qed.

Lemma Qeq_bool_sym (a b : Q) : Qeq_bool a b = Qeq_bool b a.
Proof.
  destruct (Qeq_bool b a) eqn:Hba.
  - apply Qeq_bool_iff. symmetry. apply Qeq_bool_iff. exact Hba.
  - apply Qeq_bool_false. intros Heq. apply Qeq_bool_false in Hba. apply Hba.
    symmetry. exact Heq.
Qed.

(** Counting one more value in a counter of pairwise different keys. *)
Lemma counter_add_map (a : Q) (c : Q -> nat) (ks : list Q) :
  NoDupA Qeq ks ->
  counter_add a (map (fun k => (k, c k)) ks)
  = if existsb (Qeq_bool a) ks
    then map (fun k => (k, if Qeq_bool k a then S (c k) else c k)) ks
    else map (fun k => (k, c k)) ks ++ [(a, 1%nat)].
Proof.
  induction 1 as [|k0 ks Hnotin Hnd IH]; [reflexivity|].
  cbn [map counter_add existsb]. rewrite (Qeq_bool_sym a k0).
  destruct (Qeq_bool k0 a) eqn:H0; cbn [orb].
  - f_equal. apply map_ext_in. intros k Hk.
    assert (Hka : Qeq_bool k a = false).
    { apply Qeq_bool_false. intros Heq. apply Hnotin. apply InA_alt.
      exists k. split; [|exact Hk]. apply Qeq_bool_iff in H0.
      rewrite H0, Heq. reflexivity. }
    rewrite Hka. reflexivity.
  - rewrite IH. destruct (existsb (Qeq_bool a) ks); reflexivity.
Qed.

Lemma Counter_snoc (l : list Q) (a : Q) : Counter (l ++ [a]) = counter_add a (Counter l).
Proof. unfold Counter. rewrite fold_left_app. reflexivity. Qed.

Lemma py_set_snoc (l : list Q) (a : Q) :
  py_set (l ++ [a])
  = if existsb (Qeq_bool a) (py_set l) then py_set l else py_set l ++ [a].
Proof. unfold py_set. rewrite fold_left_app. reflexivity. Qed.

Lemma count_of_snoc (k : Q) (l : list Q) (a : Q) :
  count_of k (l ++ [a]) = if Qeq_bool a k then S (count_of k l) else count_of k l.
Proof.
  unfold count_of. rewrite filter_app, length_app, filter_cons, filter_nil.
  destruct (Qeq_bool a k); cbn; case_decide; try tauto; cbn; lia.
Qed.

Lemma py_set_existsb (a : Q) (l : list Q) :
  existsb (Qeq_bool a) (py_set l) = existsb (Qeq_bool a) l.
Proof.
  induction l as [|b l IH] using rev_ind; [reflexivity|].
  rewrite py_set_snoc, existsb_app. cbn [existsb]. rewrite orb_false_r.
  destruct (existsb (Qeq_bool b) (py_set l)) eqn:Hb.
  - rewrite IH. destruct (Qeq_bool a b) eqn:Hab; [|rewrite orb_false_r; reflexivity].
    rewrite orb_true_r. rewrite <- IH. rewrite <- Hb.
    apply Qeq_bool_iff in Hab.
    apply eq_true_iff_eq. rewrite !existsb_Qeq_InA. rewrite Hab. reflexivity.
  - rewrite existsb_app, IH. cbn [existsb]. rewrite orb_false_r. reflexivity.
Qed.

Lemma count_of_absent (a : Q) (l : list Q) :
  existsb (Qeq_bool a) l = false -> count_of a l = 0%nat.
Proof.
  unfold count_of. induction l as [|b l IH]; [reflexivity|].
  cbn [existsb]. intros Hex. apply orb_false_iff in Hex as [Hab Hex].
  rewrite filter_cons. rewrite (Qeq_bool_sym b a), Hab. cbn. apply IH. exact Hex.
Qed.

(** A counter lists the distinct values in the order of their first
    occurrence, each with the number of its occurrences. *)
Lemma Counter_spec (l : list Q) :
  Counter l = map (fun k => (k, count_of k l)) (py_set l).
Proof.
  induction l as [|a l IH] using rev_ind; [reflexivity|].
  rewrite Counter_snoc, IH, counter_add_map by apply py_set_NoDupA.
  rewrite py_set_snoc.
  destruct (existsb (Qeq_bool a) (py_set l)) eqn:Hex.
  - apply map_ext. intros k. rewrite count_of_snoc, (Qeq_bool_sym k a). reflexivity.
  - rewrite map_app. cbn [map]. f_equal.
    + apply map_ext_in. intros k Hk. rewrite count_of_snoc.
      assert (Hak : Qeq_bool a k = false).
      { apply Qeq_bool_false. intros Heq.
        assert (Hin : existsb (Qeq_bool a) (py_set l) = true).
        { apply existsb_Qeq_InA, InA_alt. exists k. split; [exact Heq | exact Hk]. }
        congruence. }
      rewrite Hak. reflexivity.
    + rewrite count_of_snoc.
      assert (Haa : Qeq_bool a a = true) by (apply Qeq_bool_iff; reflexivity).
      rewrite Haa, count_of_absent; [reflexivity|].
      rewrite <- py_set_existsb. exact Hex.
Qed.

(** [max(items, key=count)] returns the first item of largest count. *)
Lemma most_common_first (it m : Q * nat) (rest : list (Q * nat)) :
  fold_left (fun m it' => if (snd m <? snd it')%nat then it' else m) rest it = m ->
  exists pre post,
    it :: rest = pre ++ m :: post
    /\ Forall (fun c => (snd c < snd m)%nat) pre
    /\ Forall (fun c => (snd c <= snd m)%nat) post.
Proof.
  revert m. induction rest as [|x rest IH] using rev_ind; intros m Hm.
  - cbn in Hm. subst m. exists [], []. repeat split; constructor.
  - rewrite fold_left_app in Hm. cbn [fold_left] in Hm.
    destruct (IH _ eq_refl) as (pre & post & Hsplit & Hpre & Hpost).
    set (m' := fold_left _ rest it) in *.
    destruct (snd m' <? snd x)%nat eqn:Hlt.
    + apply Nat.ltb_lt in Hlt. subst m.
      exists (it :: rest), []. split; [rewrite app_comm_cons; reflexivity|].
      split; [|constructor]. rewrite Hsplit. apply Forall_app. split.
      * eapply Forall_impl; [exact Hpre|]. cbn. lia.
      * constructor; [exact Hlt|]. eapply Forall_impl; [exact Hpost|]. cbn. lia.
    + apply Nat.ltb_ge in Hlt. subst m.
      exists pre, (post ++ [x]). split.
      * rewrite app_comm_cons, Hsplit, <- app_assoc. reflexivity.
      * split; [exact Hpre|]. apply Forall_app. split; [exact Hpost|].
        constructor; [exact Hlt | constructor].
Qed.

(** The base size is the first-met size among the most frequent ones. *)
Lemma base_size_first_most_frequent (lines : list Element) (sig_sizes : list Q)
    (base_size : Q) :
  positive_sizes lines <> [] ->
  analyze_font_distribution lines = Ok (sig_sizes, base_size) ->
  first_most_frequent (fun s => count_of s (positive_sizes lines)) base_size
                      (py_set (positive_sizes lines)).
Proof.
  intros Hsizes. unfold analyze_font_distribution.
  destruct (positive_sizes lines) as [|s0 sizes] eqn:Hpos; [congruence|].
  destruct (most_common_1 (Counter (s0 :: sizes))) as [|[base n] tl] eqn:Hmc; [discriminate|].
  intros [= _ <-]. unfold most_common_1 in Hmc.
  destruct (Counter (s0 :: sizes)) as [|it rest] eqn:Hc; [discriminate|].
  injection Hmc as Hmc _.
  apply most_common_first in Hmc as (pre & post & Hsplit & Hpre & Hpost).
  rewrite <- Hc, Counter_spec in Hsplit.
  apply map_eq_app in Hsplit as (kpre & kpost' & Hks & Hkpre & Hkpost).
  apply map_eq_cons in Hkpost as (kb & kpost & -> & Hb & Hkpost).
  injection Hb as -> Hn. subst pre post n.
  exists kpre, kpost. split; [exact Hks|]. split.
  - apply Forall_forall. intros k Hk. rewrite Forall_forall in Hpre.
    apply (Hpre (k, count_of k (s0 :: sizes))).
    apply list_elem_of_fmap. exists k. split; [reflexivity | exact Hk].
  - apply Forall_forall. intros k Hk. rewrite Forall_forall in Hpost.
    apply (Hpost (k, count_of k (s0 :: sizes))).
    apply list_elem_of_fmap. exists k. split; [reflexivity | exact Hk].
Qed.

Lemma keyed_spans_inv (spans : list Element) (keyed : list (Q * Element)) :
  rmap (fun e => let* k := get_x e in Ok (k, e)) spans = Ok keyed ->
  map snd keyed = spans
  /\ Forall (fun p => x_of_element (snd p) = fst p) keyed.
Proof.
  revert keyed. induction spans as [|e spans IH]; intros keyed; cbn [rmap].
  - intros [= <-]. split; constructor.
  - unfold get_x at 1. destruct (e_x e) as [v|] eqn:Hv; cbn [rbind]; [|discriminate].
    destruct (rmap _ spans) as [keyed'|]; cbn [rbind]; [|discriminate].
    intros [= <-]. destruct (IH keyed' eq_refl) as [Hsnd Hall].
    split; [cbn [map snd]; rewrite Hsnd; reflexivity|].
    constructor; [|exact Hall]. unfold x_of_element. cbn [snd fst]. rewrite Hv. reflexivity.
Qed.

(** The representative of a line, [spans[0]] after the sort, is the first
    of its leftmost spans. *)
Lemma sort_by_x_first_leftmost (spans tl : list Element) (rep : Element) :
  sort_by_x spans = Ok (rep :: tl) -> first_smallest x_of_element rep spans.
Proof.
  unfold sort_by_x.
  destruct (rmap _ spans) as [keyed|] eqn:Hkeyed; cbn [rbind]; [|discriminate].
  apply keyed_spans_inv in Hkeyed as [Hsnd Hall].
  destruct (sort_asc fst keyed) as [|[k r] tl'] eqn:Hsort; [discriminate|].
  cbn [map snd]. intros [= -> _].
  apply sort_asc_head in Hsort as (pre & post & -> & Hpre & Hpost).
  apply Forall_app in Hall as [Hall_pre Hall_post].
  apply Forall_cons in Hall_post as [Hrep Hall_post]. cbn [snd fst] in Hrep.
  exists (map snd pre), (map snd post). split.
  - rewrite <- Hsnd, map_app. reflexivity.
  - cbn [fst] in Hpre, Hpost. rewrite Hrep. split.
    + apply Forall_forall. intros c Hc. apply list_elem_of_fmap in Hc as (p & -> & Hp).
      rewrite Forall_forall in Hpre, Hall_pre.
      rewrite (Hall_pre p Hp). apply Hpre. exact Hp.
    + apply Forall_forall. intros c Hc. apply list_elem_of_fmap in Hc as (p & -> & Hp).
      rewrite Forall_forall in Hpost, Hall_post.
      rewrite (Hall_post p Hp). apply Hpost. exact Hp.
Qed.

(** C10. The pipeline is deterministic.  The record [extract_outline]
    returns for a document is the same from whatever world the run starts;
    the order in which [set] lists the significant sizes does not show in
    the sorted list; and the ties are broken by first encounter: the base
    size is the first-met size among the most frequent sizes, the title the
    text of the first candidate of largest size, the representative of a
    line the first of its leftmost spans. *)
Theorem pipeline_determinism :
  (forall (pymupdf_open : string -> result Document) pdf_path w1 w2,
     fst (extract_outline pymupdf_open pdf_path w1)
     = fst (extract_outline pymupdf_open pdf_path w2))
  /\ (forall l order,
        order ≡ₚ py_set l -> sort_desc id order = sort_desc id (py_set l))
  /\ (forall lines sig_sizes base_size,
        positive_sizes lines <> [] ->
        analyze_font_distribution lines = Ok (sig_sizes, base_size) ->
        first_most_frequent (fun s => count_of s (positive_sizes lines)) base_size
                            (py_set (positive_sizes lines)))
  /\ (forall first_page rest,
        title_candidates first_page <> [] ->
        exists s,
          first_largest fst (s, get_title (first_page :: rest))
                        (title_candidates first_page))
  /\ (forall spans rep tl,
        sort_by_x spans = Ok (rep :: tl) -> first_smallest x_of_element rep spans).
Proof.
  split; [exact extract_outline_world_independent|].
  split; [exact sorted_set_order_independent|].
  split; [exact base_size_first_most_frequent|].
  split; [exact get_title_first_largest|].
  intros spans rep tl. apply sort_by_x_first_leftmost.
Qed.

Lemma pipeline_determinism_witness :
  sort_desc id [14; 24; 18]%Q = sort_desc id (py_set [24; 18; 24; 14]%Q)
  /\ first_most_frequent (fun s => count_of s (positive_sizes tie_lines)) 10%Q
                         (py_set (positive_sizes tie_lines))
  /\ (exists s, first_largest fst (s, get_title [tie_page]) (title_candidates tie_page))
  /\ get_title [tie_page] = "Quarterly Review"
  /\ first_smallest x_of_element frag_page1 [frag_page1; frag_100].
Proof.
  destruct pipeline_determinism as (_ & Hset & Hbase & Htitle & Hrep).
  split; [|split; [|split; [|split]]].
  - apply Hset. vm_compute.
    apply (Permutation_trans (l' := [24; 14; 18]%Q));
      [apply Permutation_swap | apply Permutation_skip, Permutation_swap].
  - apply (Hbase tie_lines []); [discriminate | reflexivity].
  - apply Htitle. discriminate.
  - reflexivity.
  - apply (Hrep _ _ [frag_100]). reflexivity.
Defined.

(** * Further properties of the code *)

(** ** [clean_text] *)

Lemma sub_ws_length (b : bool) (s : string) :
  (String.length (sub_ws b s) <= String.length s)%nat.
Proof.
  revert b. induction s as [|c s IH]; intros b; [reflexivity|].
  pose proof (IH true) as Ht. pose proof (IH false) as Hf.
  cbn [sub_ws]. destruct (is_space c); [destruct b|]; cbn [String.length]; lia.
Qed.

Lemma lstrip_length (s : string) : (String.length (lstrip s) <= String.length s)%nat.
Proof.
  induction s as [|c s IH]; [reflexivity|].
  cbn [lstrip]. destruct (is_space c); cbn [String.length]; lia.
Qed.

Lemma rstrip_length (s : string) : (String.length (rstrip s) <= String.length s)%nat.
Proof.
  induction s as [|c s IH]; [reflexivity|].
  cbn [rstrip]. destruct (rstrip s) as [|d r].
  - destruct (is_space c); cbn [String.length] in *; lia.
  - cbn [String.length] in *. lia.
Qed.

(** X1. [clean_text] returns a normal form: cleaning again, stripping again
    or collapsing white space again changes nothing; the result is never
    longer than the text; it keeps the ink of the text, and is empty exactly
    when the text has no ink. *)
Theorem clean_text_normal_form (s : string) :
  clean_text (clean_text s) = clean_text s
  /\ strip (clean_text s) = clean_text s
  /\ sub_ws false (clean_text s) = clean_text s
  /\ (String.length (clean_text s) <= String.length s)%nat
  /\ has_ink (clean_text s) = has_ink s
  /\ (clean_text s = EmptyString <-> has_ink s = false).
Proof.
  split; [apply clean_text_idempotent|].
  split; [unfold clean_text; apply strip_idempotent|].
  split.
  { apply sub_ws_single_spaced. unfold clean_text, strip.
    apply single_spaced_rstrip. eapply single_spaced_lstrip. apply single_spaced_sub_ws. }
  split.
  { unfold clean_text, strip.
    etransitivity; [apply rstrip_length|].
    etransitivity; [apply lstrip_length|]. apply sub_ws_length. }
  split.
  { unfold clean_text, strip. rewrite has_ink_rstrip, has_ink_lstrip. apply has_ink_sub_ws. }
  pose proof (str_empty_clean_text s) as Hempty.
  destruct (clean_text s) eqn:Hc; destruct (has_ink s); cbn in Hempty;
    split; intros H; congruence.
Qed.

(** ** [is_bold] *)

(** X2. A span is bold exactly when bit 4 of its flags is set, for every
    integer, negative ones included; the other bits do not matter. *)
Theorem is_bold_bit_4 (flags : Z) :
  is_bold flags = Z.testbit flags 4
  /\ (forall other, Z.testbit other 4 = false -> is_bold (Z.lor flags other) = is_bold flags).
Proof.
  assert (Hbit : forall f, is_bold f = Z.testbit f 4).
  { intros f. unfold is_bold. change (Z.shiftl 1 4) with (2 ^ 4).
    destruct (Z.testbit f 4) eqn:Hb.
    - apply negb_true_iff, Z.eqb_neq. intros H0.
      assert (Ht : Z.testbit (Z.land f (2 ^ 4)) 4 = false) by (rewrite H0; apply Z.bits_0).
      rewrite Z.land_spec, Hb, Z.pow2_bits_true in Ht by lia. discriminate.
    - apply negb_false_iff, Z.eqb_eq. apply Z.bits_inj'. intros n Hn.
      rewrite Z.land_spec, Z.bits_0, Z.pow2_bits_eqb by lia.
      destruct (Z.eqb_spec 4 n) as [<-|Hne]; [rewrite Hb; reflexivity | apply andb_false_r]. }
  split; [apply Hbit|].
  intros other Hother. rewrite !Hbit, Z.lor_spec, Hother. apply orb_false_r.
Qed.

(** ** [extract_text_with_metadata] *)

Lemma str_empty_strip (t : string) : str_empty (strip t) = negb (has_ink t).
Proof.
  unfold strip. destruct (has_ink t) eqn:Hink; cbn [negb].
  - assert (H : has_ink (rstrip (lstrip t)) = true).
    { rewrite has_ink_rstrip, has_ink_lstrip. exact Hink. }
    destruct (rstrip _); [discriminate H | reflexivity].
  - rewrite lstrip_no_ink by exact Hink. reflexivity.
Qed.

Lemma rflat_map_Forall {A B} (P : B -> Prop) (f : A -> result (list B)) (l : list A)
    (out : list B) :
  (forall a bs, In a l -> f a = Ok bs -> Forall P bs) ->
  rflat_map f l = Ok out -> Forall P out.
Proof.
  revert out. induction l as [|a l IH]; intros out Hf; cbn [rflat_map].
  - intros [= <-]. constructor.
  - destruct (f a) as [bs|] eqn:Ha; cbn [rbind]; [|discriminate].
    destruct (rflat_map f l) as [rest|]; cbn [rbind]; [|discriminate].
    intros [= <-]. apply Forall_app. split.
    + apply (Hf a); [left; reflexivity | exact Ha].
    + apply IH; [|reflexivity]. intros a' bs' Hin. apply Hf. right. exact Hin.
Qed.

Lemma span_elements_raw (page_num : nat) (page : Page) (line : TextLine) (span : Span)
    (els : list Element) :
  span_elements page_num page line span = Ok els -> Forall (raw_element page_num) els.
Proof.
  unfold span_elements.
  destruct (str_empty (strip (span_text span))) eqn:Hempty; [intros [= <-]; constructor|].
  destruct (py_div _ (rect_width page)) as [rx|]; cbn [rbind]; [|discriminate].
  destruct (py_div _ (rect_height page)) as [ry|]; cbn [rbind]; [|discriminate].
  intros [= <-]. constructor; [|constructor].
  unfold raw_element. cbn.
  split; [reflexivity|]. split; [eexists; reflexivity|]. split; [reflexivity|].
  split; [|apply strip_idempotent].
  rewrite str_empty_strip in Hempty. apply negb_false_iff in Hempty.
  unfold strip. rewrite has_ink_rstrip, has_ink_lstrip. exact Hempty.
Qed.

Lemma page_elements_raw (page_num : nat) (page : Page) (els : list Element) :
  page_elements page_num page = Ok els -> Forall (raw_element page_num) els.
Proof.
  unfold page_elements. destruct (get_text_blocks page) as [blocks|]; cbn [rbind]; [|discriminate].
  apply rflat_map_Forall. intros block bs _.
  destruct (block_lines block) as [lines|]; [|intros [= <-]; constructor].
  apply rflat_map_Forall. intros line bs' _.
  apply rflat_map_Forall. intros span bs'' _.
  apply (span_elements_raw page_num page line span).
Qed.

Lemma pages_from_raw (doc : Document) (page_num : nat) (pages : list (list Element)) :
  pages_from page_num doc = Ok pages ->
  length pages = length doc
  /\ forall i els, pages !! i = Some els -> Forall (raw_element (page_num + i)) els.
Proof.
  revert page_num pages. induction doc as [|page rest IH]; intros page_num pages;
    cbn [pages_from].
  - intros [= <-]. split; [reflexivity|]. intros i els Hi. discriminate.
  - destruct (page_elements page_num page) as [els0|] eqn:Hpage; cbn [rbind]; [|discriminate].
    destruct (pages_from (S page_num) rest) as [pages'|] eqn:Hrest; cbn [rbind]; [|discriminate].
    intros [= <-]. destruct (IH _ _ Hrest) as [Hlen Hall].
    split; [cbn [length]; rewrite Hlen; reflexivity|].
    intros [|i] els Hi.
    + injection Hi as <-. rewrite Nat.add_0_r.
      apply (page_elements_raw page_num page). exact Hpage.
    + cbn in Hi. replace (page_num + S i)%nat with (S page_num + i)%nat by lia.
      apply Hall. exact Hi.
Qed.

(** X3. When the extraction returns, it returns one list per page, and
    every element of the list of page index [i] carries the page number
    [i + 1], has an ["x"] and no ["has_bold"], and its text is stripped and
    has ink. *)
Theorem extraction_elements (doc : Document) (pages : list (list Element)) :
  extract_text_with_metadata doc = Ok pages ->
  length pages = length doc
  /\ forall i els e,
       pages !! i = Some els -> e ∈ els ->
       e_page e = Z.of_nat i + 1
       /\ is_Some (e_x e)
       /\ e_has_bold e = None
       /\ has_ink (e_text e) = true
       /\ strip (e_text e) = e_text e.
Proof.
  intros Hextract. apply pages_from_raw in Hextract as [Hlen Hall].
  split; [exact Hlen|]. intros i els e Hi He.
  specialize (Hall i els Hi). rewrite Forall_forall in Hall. exact (Hall e He).
Qed.

Lemma extraction_elements_witness :
  length [[fragment "1. Introduction" 12 0 1 72 300]; [fragment "2. Methods" 12 0 2 72 90]]
  = length report_doc
  /\ forall i els e,
       [[fragment "1. Introduction" 12 0 1 72 300]; [fragment "2. Methods" 12 0 2 72 90]] !! i
       = Some els ->
       e ∈ els ->
       e_page e = Z.of_nat i + 1
       /\ is_Some (e_x e)
       /\ e_has_bold e = None
       /\ has_ink (e_text e) = true
       /\ strip (e_text e) = e_text e.
Proof. apply extraction_elements. reflexivity. Defined.

Lemma rflat_map_raise_or_nil {A B} (e0 : exn) (p : A -> bool)
    (f : A -> result (list B)) (l : list A) :
  (forall a, In a l -> f a = if p a then Raise e0 else Ok []) ->
  rflat_map f l = if existsb p l then Raise e0 else Ok [].
Proof.
  induction l as [|a l IH]; intros Hf; [reflexivity|].
  cbn [rflat_map existsb]. rewrite (Hf a) by (left; reflexivity).
  destruct (p a); [reflexivity|]. cbn [rbind orb].
  rewrite IH by (intros a' Hin; apply Hf; right; exact Hin).
  destruct (existsb p l); reflexivity.
Qed.

Lemma rflat_map_nil {A B} (f : A -> result (list B)) (l : list A) :
  (forall a, In a l -> f a = Ok []) -> rflat_map f l = Ok [].
Proof.
  induction l as [|a l IH]; intros Hf; [reflexivity|].
  cbn [rflat_map]. rewrite (Hf a) by (left; reflexivity). cbn [rbind].
  rewrite IH by (intros a' Hin; apply Hf; right; exact Hin). reflexivity.
Qed.

Lemma existsb_flat_map {A B} (p : B -> bool) (g : A -> list B) (l : list A) :
  existsb p (flat_map g l) = existsb (fun a => existsb p (g a)) l.
Proof.
  induction l as [|a l IH]; [reflexivity|].
  cbn [flat_map existsb]. rewrite existsb_app, IH. reflexivity.
Qed.

(** On a page without ink nothing is divided; on a page of zero width or
    height the first span with ink raises. *)
Lemma page_elements_degenerate (page_num : nat) (page : Page) (blocks : list Block) :
  get_text_blocks page = Ok blocks ->
  (existsb (fun sp => has_ink (span_text sp)) (page_spans blocks) = false ->
   page_elements page_num page = Ok [])
  /\ ((rect_width page == 0)%Q \/ (rect_height page == 0)%Q ->
      existsb (fun sp => has_ink (span_text sp)) (page_spans blocks) = true ->
      page_elements page_num page = Raise ZeroDivisionError).
Proof.
  intros Hblocks. unfold page_elements. rewrite Hblocks. cbn [rbind].
  set (ink := fun sp => has_ink (span_text sp)).
  assert (Hlift : forall (f : Span -> result (list Element)),
             (forall sp, f sp = if ink sp then Raise ZeroDivisionError else Ok []) ->
             rflat_map (fun block =>
                          match block_lines block with
                          | None => Ok []
                          | Some lines =>
                              rflat_map (fun line => rflat_map f (line_spans line)) lines
                          end) blocks
             = if existsb ink (page_spans blocks) then Raise ZeroDivisionError else Ok []).
  { intros f Hf. unfold page_spans. rewrite existsb_flat_map.
    apply rflat_map_raise_or_nil. intros block _.
    destruct (block_lines block) as [lines|]; [|reflexivity].
    rewrite existsb_flat_map. apply rflat_map_raise_or_nil. intros line _.
    apply rflat_map_raise_or_nil. intros sp _. apply Hf. }
  split.
  - intros Hnone.
    assert (Hsame :
      forall line sp, In sp (page_spans blocks) ->
        span_elements page_num page line sp = Ok []).
    { intros line sp Hin. unfold span_elements. rewrite str_empty_strip.
      assert (Hsp : ink sp = false).
      { destruct (ink sp) eqn:Hi; [|reflexivity].
        assert (Hex : existsb ink (page_spans blocks) = true)
          by (apply existsb_exists; eauto).
        congruence. }
      unfold ink in Hsp. rewrite Hsp. reflexivity. }
    clear Hlift. apply rflat_map_nil. intros block Hblock.
    destruct (block_lines block) as [lines|] eqn:Hlines; [|reflexivity].
    apply rflat_map_nil. intros line Hline.
    apply rflat_map_nil. intros sp Hsp. apply Hsame.
    unfold page_spans. apply in_flat_map. exists block. split; [exact Hblock|].
    rewrite Hlines. apply in_flat_map. exists line. split; assumption.
  - intros Hzero Hink.
    assert (Hspan : forall line sp,
              span_elements page_num page line sp
              = if ink sp then Raise ZeroDivisionError else Ok []).
    { intros line sp. unfold span_elements. rewrite str_empty_strip. unfold ink.
      destruct (has_ink (span_text sp)); cbn [negb]; [|reflexivity].
      unfold py_div. destruct (Qeq_bool (rect_width page) 0) eqn:Hw; [reflexivity|].
      cbn [rbind]. destruct Hzero as [Hz|Hz].
      - apply Qeq_bool_iff in Hz. congruence.
      - apply Qeq_bool_iff in Hz. rewrite Hz. reflexivity. }
    clear Hlift. unfold page_spans in Hink. rewrite existsb_flat_map in Hink.
    rewrite (rflat_map_raise_or_nil ZeroDivisionError
               (fun block => existsb ink match block_lines block with
                                         | None => []
                                         | Some lines => flat_map line_spans lines
                                         end)).
    + rewrite Hink. reflexivity.
    + intros block _. destruct (block_lines block) as [lines|]; [|reflexivity].
      rewrite existsb_flat_map. apply rflat_map_raise_or_nil. intros line _.
      apply rflat_map_raise_or_nil. intros sp _. apply Hspan.
Qed.

Lemma pages_from_app (pre doc : Document) (page_num : nat) :
  pages_from page_num (pre ++ doc)
  = (let* a := pages_from page_num pre in
     let* b := pages_from (page_num + length pre) doc in
     Ok (a ++ b)).
Proof.
  revert page_num. induction pre as [|page pre IH]; intros page_num.
  - cbn [app pages_from rbind length]. rewrite Nat.add_0_r.
    destruct (pages_from page_num doc); reflexivity.
  - cbn [app pages_from length]. destruct (page_elements page_num page); [|reflexivity].
    cbn [rbind]. rewrite IH. replace (S page_num + length pre)%nat
      with (page_num + S (length pre))%nat by lia.
    destruct (pages_from (S page_num) pre); [|reflexivity]. cbn [rbind].
    destruct (pages_from _ doc); reflexivity.
Qed.

(** X4. A page of zero width or zero height that holds a span with ink
    makes the extraction raise [ZeroDivisionError], whatever follows it,
    when the pages before it are read without error. *)
Theorem extraction_zero_page (pre rest : Document) (page : Page) (blocks : list Block)
    (pages : list (list Element)) :
  extract_text_with_metadata pre = Ok pages ->
  get_text_blocks page = Ok blocks ->
  (rect_width page == 0)%Q \/ (rect_height page == 0)%Q ->
  Exists (fun sp => has_ink (span_text sp) = true) (page_spans blocks) ->
  extract_text_with_metadata (pre ++ page :: rest) = Raise ZeroDivisionError.
Proof.
  intros Hpre Hblocks Hzero Hink. unfold extract_text_with_metadata in *.
  rewrite pages_from_app, Hpre. cbn [rbind pages_from].
  destruct (page_elements_degenerate (0 + length pre) page blocks Hblocks) as [_ Hraise].
  rewrite Hraise; [reflexivity | exact Hzero |].
  apply existsb_exists. apply Exists_exists in Hink as (sp & Hin & Hsp).
  exists sp. split; [apply list_elem_of_In; exact Hin | exact Hsp].
Qed.

(** ** [merge_by_line]: the key *)

Lemma py_round_near (q : Q) :
  (inject_Z (py_round q) - q <= 1 # 2)%Q /\ (q - inject_Z (py_round q) <= 1 # 2)%Q.
Proof.
  unfold py_round.
  pose proof (Qfloor_le q) as Hlo. pose proof (Qlt_floor q) as Hhi.
  rewrite inject_Z_plus in Hhi. change (inject_Z 1) with 1%Q in Hhi.
  destruct (Qcompare_spec (q - inject_Z (Qfloor q)) (1 # 2)) as [Heq|Hlt|Hgt].
  - destruct (Z.even (Qfloor q)).
    + split; lra.
    + rewrite inject_Z_plus. change (inject_Z 1) with 1%Q. split; lra.
  - split; lra.
  - rewrite inject_Z_plus. change (inject_Z 1) with 1%Q. split; lra.
Qed.

Lemma binade_lower (q : Q) :
  ~ (q == 0)%Q -> (2 ^ binade q <= Qabs q)%Q.
Proof.
  intros Hq. unfold binade.
  set (a := Z.log2 (Z.abs (Qnum q))). set (b := Z.log2 (Z.pos (Qden q))).
  destruct (Qle_bool (2 ^ (a - b)) (Qabs q)) eqn:Htest.
  - apply Qle_bool_iff. exact Htest.
  - assert (Hn : 0 < Z.abs (Qnum q)).
    { destruct q as [n d]. unfold Qeq in Hq. cbn in Hq |- *. lia. }
    destruct (Z.log2_spec _ Hn) as [Hlo _]. fold a in Hlo.
    destruct (Z.log2_spec (Z.pos (Qden q)) (Pos2Z.is_pos _)) as [_ Hhi]. fold b in Hhi.
    assert (Ha : 0 <= a) by apply Z.log2_nonneg.
    assert (Hb : 0 <= b) by apply Z.log2_nonneg.
    replace (a - b - 1) with (a - Z.succ b) by lia.
    rewrite Qpower_minus by discriminate.
    change 2%Q with (inject_Z 2).
    rewrite <- !Zpower_Qpower by lia.
    apply Qle_shift_div_r.
    + change 0%Q with (inject_Z 0). rewrite <- Zlt_Qlt. lia.
    + destruct q as [n d]. cbn [Qnum Qden] in *.
      unfold Qle, Qabs, Qmult, inject_Z. cbn [Qnum Qden].
      rewrite !Z.mul_1_r, Pos.mul_1_r. nia.
Qed.

(** The error of the rounding to a double is at most 2^-53 of the number. *)
Lemma round_double_error (q : Q) :
  (Qabs (round_double q - q) * inject_Z (2 ^ 53) <= Qabs q)%Q.
Proof.
  unfold round_double. destruct (Qeq_bool q 0) eqn:Hzero.
  - apply Qeq_bool_iff in Hzero. rewrite Hzero. vm_compute. discriminate.
  - assert (Hq : ~ (q == 0)%Q).
    { intros Heq. apply Qeq_bool_iff in Heq. congruence. }
    pose proof (binade_lower q Hq) as Hlow.
    set (ulp := (2 ^ (binade q - 52))%Q).
    assert (Hulp : (0 < ulp)%Q) by (apply Qpower_0_lt; reflexivity).
    assert (Hbin : (2 ^ binade q == ulp * inject_Z (2 ^ 52))%Q).
    { unfold ulp. rewrite (Zpower_Qpower 2 52) by lia.
      rewrite <- Qpower_plus by discriminate. f_equiv. lia. }
    rewrite Hbin in Hlow.
    destruct (py_round_near (q / ulp)) as [Hup Hdown].
    set (m := inject_Z (py_round (q / ulp))) in *.
    assert (Hx : (q == (q / ulp) * ulp)%Q) by (field; lra).
    set (x := (q / ulp)%Q) in *.
    assert (Hdiff : (m * ulp - q == (m - x) * ulp)%Q) by (rewrite Hx at 1; ring).
    rewrite Hdiff, Qabs_Qmult, (Qabs_pos ulp) by lra.
    assert (Hhalf : (Qabs (m - x) <= 1 # 2)%Q).
    { apply Qabs_Qle_condition. split; lra. }
    change (inject_Z (2 ^ 53)) with (2 * inject_Z (2 ^ 52))%Q.
    pose proof (Qabs_nonneg (m - x)) as Hnn.
    assert (Hprod : (Qabs (m - x) * ulp <= (1 # 2) * ulp)%Q).
    { apply Qmult_le_compat_r; lra. }
    set (P := inject_Z (2 ^ 52)) in *.
    assert (HP : (0 < P)%Q) by reflexivity.
    assert (Hstep : (Qabs (m - x) * ulp * (2 * P) <= (1 # 2) * ulp * (2 * P))%Q).
    { apply Qmult_le_compat_r; lra. }
    eapply Qle_trans; [exact Hstep|].
    eapply Qle_trans; [|exact Hlow]. apply Qle_lteq. right. ring.
Qed.

Lemma binade_Z (z : Z) : z <> 0 -> binade (inject_Z z) = Z.log2 (Z.abs z).
Proof.
  intros Hz. unfold binade. cbn [inject_Z Qnum Qden].
  change (Z.log2 1) with 0. rewrite Z.sub_0_r.
  assert (Hn : 0 < Z.abs z) by lia.
  destruct (Z.log2_spec _ Hn) as [Hlo _].
  destruct (Qle_bool _ _) eqn:Htest; [reflexivity|]. exfalso.
  assert (Hle : (2 ^ Z.log2 (Z.abs z) <= Qabs (inject_Z z))%Q).
  { change 2%Q with (inject_Z 2). rewrite <- Zpower_Qpower by apply Z.log2_nonneg.
    change (Qabs (inject_Z z)) with (inject_Z (Z.abs z)). rewrite <- Zle_Qle. exact Hlo. }
  apply Qle_bool_iff in Hle. congruence.
Qed.

(** An integer of at most 53 bits is a double. *)
Lemma round_double_Z (z : Z) :
  Z.abs z <= 2 ^ 53 -> (round_double (inject_Z z) == inject_Z z)%Q.
Proof.
  intros Hz.
  destruct (Z.eq_dec z 0) as [->|Hne]; [reflexivity|].
  destruct (Z.eq_dec (Z.abs z) (2 ^ 53)) as [Htop|Hlt].
  { assert (Hcases : z = 2 ^ 53 \/ z = - 2 ^ 53) by lia.
    destruct Hcases as [-> | ->]; vm_compute; reflexivity. }
  unfold round_double.
  destruct (Qeq_bool (inject_Z z) 0) eqn:Hzero.
  { apply Qeq_bool_iff in Hzero. exfalso. exact (inject_Z_nonzero z Hne Hzero). }
  rewrite (binade_Z z Hne).
  set (d := Z.log2 (Z.abs z)).
  assert (Hd : 0 <= d <= 52).
  { split; [apply Z.log2_nonneg|].
    assert (Z.log2 (Z.abs z) < 53); [|unfold d; lia].
    apply Z.log2_lt_pow2; lia. }
  set (k := 52 - d).
  assert (Hulp : (2 ^ (d - 52) == / inject_Z (2 ^ k))%Q).
  { replace (d - 52) with (- k) by (unfold k; lia).
    rewrite Qpower_opp. rewrite (Zpower_Qpower 2 k) by (unfold k; lia). reflexivity. }
  assert (Hpos : 0 < 2 ^ k) by (apply Z.pow_pos_nonneg; unfold k; lia).
  assert (Hnz : ~ (inject_Z (2 ^ k) == 0)%Q) by (apply inject_Z_nonzero; lia).
  assert (Hquot : (inject_Z z / 2 ^ (d - 52) == inject_Z (z * 2 ^ k))%Q).
  { rewrite Hulp, inject_Z_mult. field. exact Hnz. }
  rewrite (py_round_comp _ _ Hquot), py_round_Z, Hulp, inject_Z_mult.
  field. exact Hnz.
Qed.

Lemma binade_upper (q : Q) : (Qabs q < 2 ^ (binade q + 1))%Q.
Proof.
  unfold binade.
  set (a := Z.log2 (Z.abs (Qnum q))). set (b := Z.log2 (Z.pos (Qden q))).
  destruct (Qle_bool (2 ^ (a - b)) (Qabs q)) eqn:Htest.
  - assert (Ha : 0 <= a) by apply Z.log2_nonneg.
    assert (Hb : 0 <= b) by apply Z.log2_nonneg.
    assert (Hhi : Z.abs (Qnum q) < 2 ^ Z.succ a).
    { destruct (Z.eq_dec (Z.abs (Qnum q)) 0) as [H0|Hn0].
      - rewrite H0. apply Z.pow_pos_nonneg; lia.
      - apply (Z.log2_spec (Z.abs (Qnum q))). lia. }
    destruct (Z.log2_spec (Z.pos (Qden q)) (Pos2Z.is_pos _)) as [Hlo _]. fold b in Hlo.
    replace (a - b + 1) with (Z.succ a - b) by lia.
    rewrite Qpower_minus by discriminate.
    change 2%Q with (inject_Z 2).
    rewrite <- !Zpower_Qpower by lia.
    apply Qlt_shift_div_l.
    + change 0%Q with (inject_Z 0). rewrite <- Zlt_Qlt. apply Z.pow_pos_nonneg; lia.
    + assert (Hpb : 0 < 2 ^ b) by (apply Z.pow_pos_nonneg; lia).
      destruct q as [n d]. cbn [Qnum Qden] in *.
      unfold Qlt, Qabs, Qmult, inject_Z. cbn [Qnum Qden].
      rewrite !Z.mul_1_r. nia.
  - replace (a - b - 1 + 1) with (a - b) by lia.
    apply Qnot_le_lt. intros Hle. apply Qle_bool_iff in Hle. congruence.
Qed.

Lemma binade_comp (p q : Q) : ~ (p == 0)%Q -> (p == q)%Q -> binade p = binade q.
Proof.
  intros Hp Heq.
  assert (Hq : ~ (q == 0)%Q) by (rewrite <- Heq; exact Hp).
  pose proof (binade_lower p Hp) as Hlp. pose proof (binade_upper p) as Hup.
  pose proof (binade_lower q Hq) as Hlq. pose proof (binade_upper q) as Huq.
  assert (Habs : (Qabs p == Qabs q)%Q) by (apply Qabs_wd; exact Heq).
  rewrite Habs in Hlp, Hup.
  assert (H1 : binade p < binade q + 1).
  { apply (Qpower_lt_compat_l_inv 2); [|reflexivity].
    eapply Qle_lt_trans; eassumption. }
  assert (H2 : binade q < binade p + 1).
  { apply (Qpower_lt_compat_l_inv 2); [|reflexivity].
    eapply Qle_lt_trans; eassumption. }
  lia.
Qed.

Lemma round_double_comp (p q : Q) :
  (p == q)%Q -> (round_double p == round_double q)%Q.
Proof.
  intros Heq. unfold round_double.
  destruct (Qeq_bool p 0) eqn:Hp.
  - apply Qeq_bool_iff in Hp.
    assert (Hq : Qeq_bool q 0 = true) by (apply Qeq_bool_iff; rewrite <- Heq; exact Hp).
    rewrite Hq. reflexivity.
  - assert (Hp' : ~ (p == 0)%Q) by (intros H0; apply Qeq_bool_iff in H0; congruence).
    assert (Hq : Qeq_bool q 0 = false).
    { destruct (Qeq_bool q 0) eqn:Hq; [|reflexivity].
      apply Qeq_bool_iff in Hq. rewrite <- Heq in Hq. contradiction. }
    rewrite Hq, (binade_comp p q Hp' Heq).
    rewrite (py_round_comp (p / 2 ^ (binade q - 52)) (q / 2 ^ (binade q - 52)));
      [reflexivity|].
    rewrite Heq. reflexivity.
Qed.

Lemma line_key_double_ok (y : Q) (tol : Z) :
  tol <> 0 -> Z.abs tol <= 2 ^ 53 ->
  line_key_double y tol = Ok (py_round (round_double (y / inject_Z tol)) * tol).
Proof.
  intros Hne Hsmall. unfold line_key_double, py_div.
  pose proof (round_double_Z tol Hsmall) as Ht.
  destruct (Qeq_bool (round_double (inject_Z tol)) 0) eqn:Hzero.
  { apply Qeq_bool_iff in Hzero. rewrite Ht in Hzero.
    exfalso. exact (inject_Z_nonzero tol Hne Hzero). }
  cbn [rbind]. do 2 f_equal. apply py_round_comp, round_double_comp.
  rewrite Ht. reflexivity.
Qed.

(** X5. The key the machine computes, for a tolerance that is not zero and
    that a double holds: it is a multiple of the tolerance; it lies within
    half a tolerance of the line coordinate, up to the rounding of the
    quotient to a double, which adds at most 2^-53 of the coordinate; it is
    the key of the exact quotient when that quotient is a double; and equal
    coordinates have equal keys. *)
Theorem line_key_double_near (y : Q) (tol : Z) :
  tol <> 0 ->
  Z.abs tol <= 2 ^ 53 ->
  exists k,
    line_key_double y tol = Ok k
    /\ (exists j, k = j * tol)
    /\ (Qabs (inject_Z k - y)
        <= inject_Z (Z.abs tol) / 2 + Qabs y / inject_Z (2 ^ 53))%Q
    /\ ((round_double (y / inject_Z tol) == y / inject_Z tol)%Q ->
        line_key y tol = Ok k)
    /\ (forall y', (y == y')%Q -> line_key_double y' tol = Ok k).
Proof.
  intros Hne Hsmall. rewrite (line_key_double_ok y tol Hne Hsmall).
  eexists. split; [reflexivity|]. split; [eexists; reflexivity|].
  assert (HT : ~ (inject_Z tol == 0)%Q) by (apply inject_Z_nonzero; exact Hne).
  split; [|split].
  - set (q := (y / inject_Z tol)%Q).
    assert (Hy : (y == q * inject_Z tol)%Q) by (unfold q; field; exact HT).
    pose proof (round_double_error q) as Herr.
    destruct (py_round_near (round_double q)) as [Hup Hdown].
    set (f := round_double q) in *. set (r := inject_Z (py_round f)) in *.
    rewrite inject_Z_mult. fold r.
    change (inject_Z (Z.abs tol)) with (Qabs (inject_Z tol)).
    set (T := inject_Z tol) in *.
    assert (Hdiff : (r * T - y == ((r - f) + (f - q)) * T)%Q) by (rewrite Hy at 1; ring).
    assert (Habsy : (Qabs y == Qabs q * Qabs T)%Q) by (rewrite Hy at 1; apply Qabs_Qmult).
    rewrite Hdiff, Qabs_Qmult, Habsy.
    assert (Hhalf : (Qabs (r - f) <= 1 # 2)%Q) by (apply Qabs_Qle_condition; split; lra).
    pose proof (Qabs_triangle (r - f) (f - q)) as Htri.
    pose proof (Qabs_nonneg T) as HaT.
    set (E := Qabs (f - q)) in *. set (A := Qabs q) in *. set (aT := Qabs T) in *.
    set (S := Qabs (r - f + (f - q))) in *.
    change (inject_Z (2 ^ 53)) with 9007199254740992%Q in *.
    assert (Hsum : (S * aT <= ((1 # 2) + E) * aT)%Q).
    { apply Qmult_le_compat_r; lra. }
    assert (Herr' : (E * 9007199254740992 * aT <= A * aT)%Q).
    { apply Qmult_le_compat_r; lra. }
    eapply Qle_trans; [exact Hsum|].
    apply Qle_minus_iff.
    assert (Heq : (aT / 2 + A * aT / 9007199254740992 + - (((1 # 2) + E) * aT)
                   == (A * aT - E * 9007199254740992 * aT) / 9007199254740992)%Q) by field.
    rewrite Heq. apply Qle_shift_div_l; [reflexivity | lra].
  - intros Hexact. rewrite (line_key_ok y tol Hne). unfold quantized.
    do 2 f_equal. apply py_round_comp. symmetry. exact Hexact.
  - intros y' Hy'. rewrite (line_key_double_ok y' tol Hne Hsmall).
    do 2 f_equal. apply py_round_comp, round_double_comp. rewrite Hy'. reflexivity.
Qed.

(** ** [merge_by_line]: when it returns and what it raises *)

Lemma keyed_spans_keyerror (spans : list Element) :
  Exists (fun e => e_x e = None) spans ->
  rmap (fun e => let* k := get_x e in Ok (k, e)) spans = Raise (KeyError "x").
Proof.
  induction spans as [|e spans IH]; intros Hex; [inversion Hex|].
  cbn [rmap]. unfold get_x at 1. destruct (e_x e) as [v|] eqn:Hv; [|reflexivity].
  cbn [rbind]. inversion Hex as [? ? Hnone|? ? Hrest]; subst; [congruence|].
  rewrite (IH Hrest). reflexivity.
Qed.

Lemma merge_line_keyerror (key : Z) (spans0 : list Element) :
  Exists (fun e => e_x e = None) spans0 ->
  merge_line key spans0 = Raise (KeyError "x").
Proof.
  intros Hex. unfold merge_line, sort_by_x. rewrite (keyed_spans_keyerror _ Hex). reflexivity.
Qed.

Lemma merge_line_total (key : Z) (spans0 : list Element) :
  Forall (fun e => is_Some (e_x e)) spans0 ->
  exists o, merge_line key spans0 = Ok o.
Proof.
  intros Hx. destruct (sort_by_x_ok spans0 Hx) as (spans & Hsort & _).
  unfold merge_line. rewrite Hsort. cbn [rbind].
  destruct spans as [|rep spans]; [eexists; reflexivity|].
  destruct (str_empty _); [eauto|]. cbn [map py_max rbind]. eauto.
Qed.

Lemma has_x_or_not (spans : list Element) :
  Forall (fun e => is_Some (e_x e)) spans \/ Exists (fun e => e_x e = None) spans.
Proof.
  induction spans as [|e spans [IH|IH]].
  - left. constructor.
  - destruct (e_x e) as [v|] eqn:Hv.
    + left. constructor; [rewrite Hv; eauto | exact IH].
    + right. left. exact Hv.
  - right. right. exact IH.
Qed.

Lemma merge_keys_total (lines : gmap Z (list Element)) (keys : list Z) :
  Forall (fun k => Forall (fun e => is_Some (e_x e)) (default [] (lines !! k))) keys ->
  exists out, merge_keys lines keys = Ok out.
Proof.
  induction 1 as [|key keys Hkey _ [merged IH]]; cbn [merge_keys]; [eauto|].
  destruct (merge_line_total key _ Hkey) as [o Ho]. rewrite Ho, IH. cbn [rbind]. eauto.
Qed.

Lemma merge_keys_keyerror (lines : gmap Z (list Element)) (keys : list Z) :
  Exists (fun k => Exists (fun e => e_x e = None) (default [] (lines !! k))) keys ->
  merge_keys lines keys = Raise (KeyError "x").
Proof.
  induction keys as [|key keys IH]; intros Hex; [inversion Hex|].
  cbn [merge_keys].
  destruct (has_x_or_not (default [] (lines !! key))) as [Hall|Hmiss].
  - destruct (merge_line_total key _ Hall) as [o Ho]. rewrite Ho. cbn [rbind].
    inversion Hex as [? ? Hhead|? ? Hrest]; subst.
    + exfalso. apply Exists_exists in Hhead as (e & He & Hnone).
      rewrite Forall_forall in Hall. destruct (Hall e He) as [v Hv]. congruence.
    + rewrite (IH Hrest). reflexivity.
  - rewrite (merge_line_keyerror _ _ Hmiss). reflexivity.
Qed.

(** X6. [merge_by_line] returns exactly when the list is empty, or the
    tolerance is not zero and every element has an ["x"]: a zero tolerance
    raises [ZeroDivisionError] on a non-empty list, and an element without
    ["x"] raises [KeyError] at a non-zero tolerance. *)
Theorem merge_by_line_defined (els : list Element) (tol : Z) :
  (els <> [] -> tol = 0 -> merge_by_line els tol = Raise ZeroDivisionError)
  /\ (tol <> 0 -> Forall (fun e => is_Some (e_x e)) els ->
      exists out, merge_by_line els tol = Ok out)
  /\ (tol <> 0 -> Exists (fun e => e_x e = None) els ->
      merge_by_line els tol = Raise (KeyError "x")).
Proof.
  split; [|split].
  - intros Hnonempty ->. destruct els as [|e els]; [congruence|]. reflexivity.
  - intros Hne Hx. unfold merge_by_line.
    destruct (group_lines_spec tol els ∅ Hne) as (M & HM & Hgroups & _).
    rewrite HM. cbn [rbind]. apply merge_keys_total.
    apply Forall_forall. intros k _. rewrite Hgroups, lookup_empty. cbn [default app].
    apply Forall_forall. intros e He. apply list_elem_of_filter in He as [_ He].
    rewrite Forall_forall in Hx. apply Hx. exact He.
  - intros Hne Hmiss. unfold merge_by_line.
    destruct (group_lines_spec tol els ∅ Hne) as (M & HM & Hgroups & Hdom).
    rewrite HM. cbn [rbind]. apply merge_keys_keyerror.
    apply Exists_exists in Hmiss as (e & He & Hnone).
    apply Exists_exists. exists (key_of tol e). split.
    + apply sorted_keys_elem. rewrite Hdom, dom_empty_L, (left_id_L ∅ (∪)).
      apply elem_of_list_to_set, list_elem_of_fmap. eauto.
    + rewrite Hgroups, lookup_empty. cbn [default app].
      apply Exists_exists. exists e. split; [|exact Hnone].
      apply list_elem_of_filter. split; [reflexivity | exact He].
Qed.

(** ** [merge_by_line]: the lines it returns *)

Lemma merge_keys_elem (lines : gmap Z (list Element)) (keys : list Z) (out : list Element) :
  merge_keys lines keys = Ok out ->
  (forall m, m ∈ out <->
     exists k, k ∈ keys /\ merge_line k (default [] (lines !! k)) = Ok (Some m))
  /\ (length out <= length keys)%nat.
Proof.
  revert out. induction keys as [|key keys IH]; intros out; cbn [merge_keys].
  - intros [= <-]. split; [|reflexivity]. intros m. split.
    + intros Hin. apply elem_of_nil in Hin. destruct Hin.
    + intros (k & Hin & _). apply elem_of_nil in Hin. destruct Hin.
  - destruct (merge_line key _) as [line|] eqn:Hline; cbn [rbind]; [|discriminate].
    destruct (merge_keys lines keys) as [merged|]; cbn [rbind]; [|discriminate].
    destruct (IH merged eq_refl) as [Helem Hlen]. intros [= <-]. split.
    + intros m. destruct line as [m0|].
      * rewrite elem_of_cons, Helem. split.
        -- intros [->|(k & Hk & Hm)]; [exists key | exists k];
             (split; [|assumption]); [left | right; exact Hk].
        -- intros (k & Hk & Hm). apply elem_of_cons in Hk as [->|Hk].
           ++ left. congruence.
           ++ right. eauto.
      * rewrite Helem. split.
        -- intros (k & Hk & Hm). exists k. split; [right; exact Hk | exact Hm].
        -- intros (k & Hk & Hm). apply elem_of_cons in Hk as [->|Hk]; [congruence|eauto].
    + destruct line; cbn [length]; lia.
Qed.

(** A line of the output is the line made of all the elements of one key. *)
Lemma merge_by_line_elem (tol : Z) (els out : list Element) :
  tol <> 0 ->
  merge_by_line els tol = Ok out ->
  (forall m, m ∈ out <->
     exists e, e ∈ els
               /\ merge_line (key_of tol e)
                             (filter (fun e' => key_of tol e' = key_of tol e) els)
                  = Ok (Some m))
  /\ (length out <= length els)%nat.
Proof.
  intros Hne. unfold merge_by_line.
  destruct (group_lines_spec tol els ∅ Hne) as (M & HM & Hgroups & Hdom).
  rewrite HM. cbn [rbind]. intros Hkeys.
  apply merge_keys_elem in Hkeys as [Helem Hlen].
  rewrite dom_empty_L, (left_id_L ∅ (∪)) in Hdom.
  assert (Hgroup : forall k, default [] (M !! k) = filter (fun e' => key_of tol e' = k) els).
  { intros k. rewrite Hgroups, lookup_empty. reflexivity. }
  split.
  - intros m. rewrite Helem. split.
    + intros (k & Hk & Hm). apply sorted_keys_elem in Hk. rewrite Hdom in Hk.
      apply elem_of_list_to_set, list_elem_of_fmap in Hk as (e & -> & He).
      exists e. split; [exact He|]. rewrite <- Hgroup. exact Hm.
    + intros (e & He & Hm). exists (key_of tol e). split.
      * apply sorted_keys_elem. rewrite Hdom.
        apply elem_of_list_to_set, list_elem_of_fmap. eauto.
      * rewrite Hgroup. exact Hm.
  - etransitivity; [exact Hlen|].
    rewrite <- (length_map (key_of tol) els). apply submseteq_length, NoDup_submseteq.
    + apply StronglySorted_lt_NoDup, sorted_keys_strict.
    + intros k Hk. apply sorted_keys_elem in Hk. rewrite Hdom in Hk.
      apply elem_of_list_to_set in Hk. exact Hk.
Qed.

Lemma py_max_spec (l : list Q) (v : Q) :
  py_max l = Ok v -> In v l /\ Forall (fun s => (s <= v)%Q) l.
Proof.
  destruct l as [|a rest]; [discriminate|]. cbn [py_max]. intros [= <-].
  revert a. induction rest as [|s rest IH]; intros a; cbn [fold_left].
  - split; [left; reflexivity|]. constructor; [apply Qle_refl | constructor].
  - destruct (IH (if Qlt_bool a s then s else a)) as [Hin Hall].
    apply Forall_cons in Hall as [Hstep Hall].
    assert (Ha : (a <= (if Qlt_bool a s then s else a))%Q
                 /\ (s <= (if Qlt_bool a s then s else a))%Q).
    { unfold Qlt_bool. destruct (Qle_bool s a) eqn:Hle; cbn [negb].
      - apply Qle_bool_iff in Hle. split; [apply Qle_refl | exact Hle].
      - split; [|apply Qle_refl]. apply Qlt_le_weak, Qnot_le_lt. intros Hn.
        apply Qle_bool_iff in Hn. congruence. }
    destruct Ha as [Ha Hs]. split.
    + destruct Hin as [Hin|Hin]; [|right; right; exact Hin].
      destruct (Qlt_bool a s); [right; left | left]; exact Hin.
    + constructor; [eapply Qle_trans; eassumption|].
      constructor; [eapply Qle_trans; eassumption | exact Hall].
Qed.

Lemma insert_asc_sorted {A} (key : A -> Q) (a : A) (l : list A) :
  StronglySorted (fun x y => (key x <= key y)%Q) l ->
  StronglySorted (fun x y => (key x <= key y)%Q) (insert_asc key a l).
Proof.
  induction l as [|b l IH]; intros Hs; cbn [insert_asc].
  - repeat constructor.
  - apply StronglySorted_inv in Hs as [Hs Hb].
    destruct (Qle_bool (key a) (key b)) eqn:Hle.
    + apply Qle_bool_iff in Hle. constructor; [constructor; assumption|].
      constructor; [exact Hle|]. eapply Forall_impl; [exact Hb|]. cbn.
      intros c Hc. eapply Qle_trans; eassumption.
    + assert (Hba : (key b <= key a)%Q).
      { apply Qlt_le_weak, Qnot_le_lt. intros Hn. apply Qle_bool_iff in Hn. congruence. }
      constructor; [apply IH; exact Hs|].
      rewrite insert_asc_Permutation. constructor; assumption.
Qed.

Lemma sort_asc_sorted {A} (key : A -> Q) (l : list A) :
  StronglySorted (fun x y => (key x <= key y)%Q) (sort_asc key l).
Proof.
  induction l as [|a l IH]; cbn [sort_asc]; [constructor|].
  apply insert_asc_sorted. exact IH.
Qed.

(** [sort_by_x], when it returns, returns the spans from left to right. *)
Lemma sort_by_x_sorted (spans sorted : list Element) :
  sort_by_x spans = Ok sorted ->
  sorted ≡ₚ spans
  /\ StronglySorted (fun a b => (x_of_element a <= x_of_element b)%Q) sorted.
Proof.
  unfold sort_by_x.
  destruct (rmap _ spans) as [keyed|] eqn:Hkeyed; cbn [rbind]; [|discriminate].
  apply keyed_spans_inv in Hkeyed as [Hsnd Hall]. intros [= <-]. split.
  - rewrite <- Hsnd. apply Permutation_map, sort_asc_Permutation.
  - assert (Hall' : Forall (fun p => x_of_element (snd p) = fst p) (sort_asc fst keyed)).
    { rewrite sort_asc_Permutation. exact Hall. }
    pose proof (sort_asc_sorted fst keyed) as Hs.
    induction Hs as [|p l Hs IH Hp]; cbn [map]; [constructor|].
    apply Forall_cons in Hall' as [Hp' Hl']. constructor; [apply IH; exact Hl'|].
    apply Forall_forall. intros c Hc. apply list_elem_of_fmap in Hc as (q & -> & Hq).
    rewrite Forall_forall in Hp, Hl'. rewrite Hp', (Hl' q Hq). apply Hp. exact Hq.
Qed.

(** How one line is built from its sorted spans. *)
Lemma merge_line_built (key : Z) (spans0 : list Element) (m : Element) :
  merge_line key spans0 = Ok (Some m) ->
  exists rep tl,
    sort_by_x spans0 = Ok (rep :: tl)
    /\ e_text m = clean_text (join " " (map e_text (rep :: tl)))
    /\ py_max (map e_size (rep :: tl)) = Ok (e_size m)
    /\ e_has_bold m = Some (existsb (fun span => is_bold (e_flags span)) (rep :: tl))
    /\ e_flags m = e_flags rep /\ e_page m = e_page rep
    /\ e_relative_x m = e_relative_x rep /\ e_relative_y m = e_relative_y rep.
Proof.
  unfold merge_line. destruct (sort_by_x spans0) as [spans|]; cbn [rbind]; [|discriminate].
  destruct (str_empty (clean_text _)); [discriminate|].
  destruct (py_max _) as [max_size|] eqn:Hmax; cbn [rbind]; [|discriminate].
  destruct spans as [|rep tl]; [discriminate|].
  intros [= <-]. exists rep, tl. cbn. repeat split; try reflexivity. exact Hmax.
Qed.

Lemma existsb_Permutation {A} (p : A -> bool) (l l' : list A) :
  l ≡ₚ l' -> existsb p l = existsb p l'.
Proof.
  intros Hperm. apply eq_true_iff_eq. rewrite !existsb_exists.
  split; intros (a & Hin & Hp); exists a; (split; [|exact Hp]).
  - apply list_elem_of_In. rewrite <- Hperm. apply list_elem_of_In. exact Hin.
  - apply list_elem_of_In. rewrite Hperm. apply list_elem_of_In. exact Hin.
Qed.

(** X7. The lines [merge_by_line] returns come in strictly ascending order
    of their keys; each has as line coordinate its own key, a clean text
    that is not empty, a ["has_bold"] and no ["x"]; and there are at most as
    many lines as elements. *)
Theorem merge_by_line_lines (els out : list Element) (tol : Z) :
  merge_by_line els tol = Ok out ->
  StronglySorted Z.lt (map (key_of tol) out)
  /\ Forall (fun m => e_line_y m = inject_Z (key_of tol m)
                      /\ clean_text (e_text m) = e_text m
                      /\ e_text m <> EmptyString
                      /\ is_Some (e_has_bold m)
                      /\ e_x m = None) out
  /\ (length out <= length els)%nat.
Proof.
  intros Hout. destruct (decide (tol = 0)) as [->|Hne].
  - apply merge_by_line_zero in Hout as [_ ->]. split; [constructor|].
    split; [constructor | cbn; lia].
  - destruct (merge_by_line_output tol els out Hne Hout) as [Hgood Hsorted].
    destruct (merge_by_line_elem tol els out Hne Hout) as [Helem Hlen].
    split; [exact Hsorted|]. split; [|exact Hlen].
    apply Forall_forall. intros m Hm. rewrite Forall_forall in Hgood.
    destruct (Hgood m Hm) as (Hy & Hx & Hclean & Hempty).
    split; [exact Hy|]. split; [exact Hclean|].
    split; [intros Ht; rewrite Ht in Hempty; discriminate|]. split; [|exact Hx].
    apply Helem in Hm as (e & _ & Hline).
    apply merge_line_built in Hline as (rep & tl & _ & _ & _ & Hbold & _).
    rewrite Hbold. eauto.
Qed.

(** X8. What a line of the output holds.  Among the elements that share
    its key, its size is the largest size, its ["has_bold"] tells whether
    one of them is bold, its flags, page and relative position are those of
    the first of the leftmost ones, and its text is the cleaned join of
    their texts from left to right. *)
Theorem merged_line_attributes (els out : list Element) (tol : Z) (m : Element) :
  tol <> 0 ->
  merge_by_line els tol = Ok out ->
  m ∈ out ->
  exists group,
    group = filter (fun e => key_of tol e = key_of tol m) els
    /\ (exists e, e ∈ group /\ e_size e = e_size m)
    /\ Forall (fun e => (e_size e <= e_size m)%Q) group
    /\ e_has_bold m = Some (existsb (fun e => is_bold (e_flags e)) group)
    /\ (exists rep,
          first_smallest x_of_element rep group
          /\ e_flags m = e_flags rep /\ e_page m = e_page rep
          /\ e_relative_x m = e_relative_x rep /\ e_relative_y m = e_relative_y rep)
    /\ (exists spans,
          spans ≡ₚ group
          /\ StronglySorted (fun a b => (x_of_element a <= x_of_element b)%Q) spans
          /\ e_text m = clean_text (join " " (map e_text spans))).
Proof.
  intros Hne Hout Hm.
  destruct (merge_by_line_output tol els out Hne Hout) as [Hgood _].
  destruct (merge_by_line_elem tol els out Hne Hout) as [Helem _].
  apply Helem in Hm as (e0 & He0 & Hline).
  assert (Hkey : key_of tol m = key_of tol e0).
  { apply merge_line_inv in Hline as (Hy & _). unfold key_of at 1. rewrite Hy.
    unfold key_of, quantized. apply quantized_multiple. exact Hne. }
  rewrite <- Hkey in Hline. eexists. split; [reflexivity|].
  set (group := filter (fun e => key_of tol e = key_of tol m) els) in *.
  apply merge_line_built in Hline
    as (rep & tl & Hsort & Htext & Hmax & Hbold & Hflags & Hpage & Hrx & Hry).
  destruct (sort_by_x_sorted _ _ Hsort) as [Hperm Hsorted].
  apply py_max_spec in Hmax as [Hin Hall].
  split; [|split; [|split; [|split]]].
  - apply in_map_iff in Hin as (e & Hsize & He). exists e. split; [|exact Hsize].
    rewrite <- Hperm. apply list_elem_of_In. exact He.
  - rewrite <- Hperm. apply Forall_forall. intros e He.
    rewrite Forall_forall in Hall. apply Hall.
    apply list_elem_of_fmap. exists e. split; [reflexivity | exact He].
  - rewrite Hbold. f_equal. apply existsb_Permutation. exact Hperm.
  - exists rep. split; [|tauto]. eapply sort_by_x_first_leftmost. exact Hsort.
  - exists (rep :: tl). split; [exact Hperm|]. split; [exact Hsorted | exact Htext].
Qed.

Lemma has_ink_join_inv (parts : list string) :
  has_ink (join " " parts) = true -> Exists (fun p => has_ink p = true) parts.
Proof.
  induction parts as [|p rest IH]; [discriminate|].
  cbn [join]. destruct rest as [|q rest].
  - intros Hp. left. exact Hp.
  - rewrite !has_ink_append. change (has_ink " ") with false. cbn [orb].
    intros Hor. apply orb_true_iff in Hor as [Hp|Hrest]; [left; exact Hp|].
    right. apply IH. exact Hrest.
Qed.

(** X9. No ink is dropped and no line is made of nothing: when
    [merge_by_line] returns, every element with ink has its key among the
    keys of the lines, and every line has the key of an element with ink. *)
Theorem merge_by_line_keeps_ink (els out : list Element) (tol : Z) :
  tol <> 0 ->
  merge_by_line els tol = Ok out ->
  (forall e, e ∈ els -> has_ink (e_text e) = true ->
     exists m, m ∈ out /\ key_of tol m = key_of tol e)
  /\ (forall m, m ∈ out ->
        exists e, e ∈ els /\ has_ink (e_text e) = true /\ key_of tol e = key_of tol m).
Proof.
  intros Hne Hout.
  destruct (merge_by_line_elem tol els out Hne Hout) as [Helem _].
  assert (Hx : Forall (fun e => is_Some (e_x e)) els).
  { destruct (has_x_or_not els) as [Hall|Hmiss]; [exact Hall|].
    exfalso. unfold merge_by_line in Hout.
    destruct (group_lines_spec tol els ∅ Hne) as (M & HM & Hgroups & Hdom).
    rewrite HM in Hout. cbn [rbind] in Hout.
    rewrite merge_keys_keyerror in Hout; [discriminate|].
    apply Exists_exists in Hmiss as (e & He & Hnone).
    apply Exists_exists. exists (key_of tol e). split.
    - apply sorted_keys_elem. rewrite Hdom, dom_empty_L, (left_id_L ∅ (∪)).
      apply elem_of_list_to_set, list_elem_of_fmap. eauto.
    - rewrite Hgroups, lookup_empty. cbn [default app].
      apply Exists_exists. exists e. split; [|exact Hnone].
      apply list_elem_of_filter. split; [reflexivity | exact He]. }
  assert (Hkey : forall e m,
            merge_line (key_of tol e) (filter (fun e' => key_of tol e' = key_of tol e) els)
            = Ok (Some m) -> key_of tol m = key_of tol e).
  { intros e m Hline. apply merge_line_inv in Hline as (Hy & _).
    unfold key_of at 1. rewrite Hy. unfold key_of, quantized.
    apply quantized_multiple. exact Hne. }
  split.
  - intros e He Hink.
    destruct (merge_line_some (key_of tol e)
                (filter (fun e' => key_of tol e' = key_of tol e) els)) as [m Hm].
    + apply Forall_forall. intros e' He'. apply list_elem_of_filter in He' as [_ He'].
      rewrite Forall_forall in Hx. apply Hx. exact He'.
    + apply Exists_exists. exists e. split; [|exact Hink].
      apply list_elem_of_filter. split; [reflexivity | exact He].
    + exists m. split; [apply Helem; eauto | apply Hkey; exact Hm].
  - intros m Hm. apply Helem in Hm as (e0 & He0 & Hline).
    pose proof (Hkey _ _ Hline) as Hk.
    pose proof (merge_line_inv _ _ _ Hline) as (_ & _ & _ & Hempty).
    apply merge_line_built in Hline as (rep & tl & Hsort & Htext & _).
    apply sort_by_x_sorted in Hsort as [Hperm _].
    rewrite Htext, str_empty_clean_text in Hempty. apply negb_false_iff in Hempty.
    apply has_ink_join_inv in Hempty.
    apply Exists_exists in Hempty as (t & Ht & Hink).
    apply list_elem_of_fmap in Ht as (e & -> & He).
    rewrite Hperm in He. apply list_elem_of_filter in He as [Hke He].
    exists e. split; [exact He|]. split; [exact Hink | congruence].
Qed.

(** ** [analyze_font_distribution]: the base size and the significant sizes *)

Lemma count_of_comp (k k' : Q) (l : list Q) : (k == k')%Q -> count_of k l = count_of k' l.
Proof.
  intros Heq. unfold count_of. f_equal. apply list_filter_iff. intros s.
  assert (Hb : Qeq_bool s k = Qeq_bool s k').
  { apply eq_true_iff_eq. rewrite !Qeq_bool_iff. rewrite Heq. reflexivity. }
  rewrite Hb. reflexivity.
Qed.

Lemma counter_get_map (s : Q) (c : Q -> nat) (ks : list Q) :
  (forall k, (k == s)%Q -> c k = c s) ->
  counter_get s (map (fun k => (k, c k)) ks)
  = if existsb (Qeq_bool s) ks then c s else 0%nat.
Proof.
  intros Hc. induction ks as [|k ks IH]; [reflexivity|].
  cbn [map counter_get existsb]. rewrite (Qeq_bool_sym s k).
  destruct (Qeq_bool k s) eqn:Hk; cbn [orb]; [|exact IH].
  apply Hc. apply Qeq_bool_iff. exact Hk.
Qed.

(** [counts[s]] is the number of occurrences of [s]. *)
Lemma counter_get_Counter (s : Q) (l : list Q) : counter_get s (Counter l) = count_of s l.
Proof.
  rewrite Counter_spec, counter_get_map.
  - rewrite py_set_existsb. destruct (existsb (Qeq_bool s) l) eqn:Hex; [reflexivity|].
    symmetry. apply count_of_absent. exact Hex.
  - intros k Hk. apply count_of_comp. exact Hk.
Qed.

Lemma positive_sizes_In (lines : list Element) (s : Q) :
  In s (positive_sizes lines) -> (0 < s)%Q /\ exists line, line ∈ lines /\ e_size line = s.
Proof.
  unfold positive_sizes. intros Hin.
  apply list_elem_of_In, list_elem_of_filter in Hin as [Hpos Hin].
  split.
  - unfold Qlt_bool in Hpos. apply Is_true_true, negb_true_iff in Hpos.
    apply Qnot_le_lt. intros Hle. apply Qle_bool_iff in Hle. congruence.
  - apply list_elem_of_fmap in Hin as (line & -> & Hline). eauto.
Qed.

(** X10. Without a line of positive size the analysis returns no significant
    size and the base size 12.  Otherwise the base size is the positive size
    of some line, and no size occurs on more lines than it does. *)
Theorem base_size_mode (lines : list Element) (sig_sizes : list Q) (base_size : Q) :
  analyze_font_distribution lines = Ok (sig_sizes, base_size) ->
  (positive_sizes lines = [] -> sig_sizes = [] /\ base_size = 12%Q)
  /\ (positive_sizes lines <> [] ->
      (0 < base_size)%Q
      /\ (exists line, line ∈ lines /\ e_size line = base_size)
      /\ forall s, (count_of s (positive_sizes lines)
                    <= count_of base_size (positive_sizes lines))%nat).
Proof.
  intros Hrun. split.
  - intros Hnone. unfold analyze_font_distribution in Hrun. rewrite Hnone in Hrun.
    injection Hrun as <- <-. split; reflexivity.
  - intros Hsome.
    destruct (base_size_first_most_frequent lines sig_sizes base_size Hsome Hrun)
      as (pre & post & Hsplit & Hpre & Hpost).
    assert (Hbase : In base_size (py_set (positive_sizes lines))).
    { rewrite Hsplit. apply in_or_app. right. left. reflexivity. }
    apply py_set_In, positive_sizes_In in Hbase as [Hpos Hline].
    split; [exact Hpos|]. split; [exact Hline|].
    intros s. destruct (existsb (Qeq_bool s) (positive_sizes lines)) eqn:Hex.
    + rewrite <- py_set_existsb in Hex. apply existsb_exists in Hex as (k & Hk & Hsk).
      apply Qeq_bool_iff in Hsk. rewrite (count_of_comp s k) by exact Hsk.
      rewrite Hsplit in Hk. apply in_app_or in Hk as [Hk|[<-|Hk]].
      * rewrite Forall_forall in Hpre. apply list_elem_of_In in Hk.
        specialize (Hpre k Hk). cbn in Hpre. lia.
      * reflexivity.
      * rewrite Forall_forall in Hpost. apply list_elem_of_In in Hk.
        exact (Hpost k Hk).
    + rewrite (count_of_absent s) by exact Hex. lia.
Qed.

Lemma base_size_positive (lines : list Element) (sig_sizes : list Q) (base_size : Q) :
  analyze_font_distribution lines = Ok (sig_sizes, base_size) -> (0 < base_size)%Q.
Proof.
  intros Hrun. destruct (positive_sizes lines) as [|s0 sizes] eqn:Hsizes.
  - unfold analyze_font_distribution in Hrun. rewrite Hsizes in Hrun.
    injection Hrun as _ <-. reflexivity.
  - assert (Hsome : positive_sizes lines <> []) by (rewrite Hsizes; discriminate).
    destruct (base_size_first_most_frequent lines sig_sizes base_size Hsome Hrun)
      as (pre & post & Hsplit & _).
    assert (Hbase : In base_size (py_set (positive_sizes lines))).
    { rewrite Hsplit. apply in_or_app. right. left. reflexivity. }
    apply py_set_In, positive_sizes_In in Hbase as [Hpos _]. exact Hpos.
Qed.

Lemma StronglySorted_firstn_skipn {A} (R : A -> A -> Prop) (n : nat) (l : list A) :
  StronglySorted R l ->
  forall a b, In a (firstn n l) -> In b (skipn n l) -> R a b.
Proof.
  intros Hs a b Ha Hb. rewrite <- (firstn_skipn n l) in Hs.
  apply StronglySorted_app in Hs as (Hab & _ & _).
  apply Hab; apply list_elem_of_In; assumption.
Qed.

(** X11. Every significant size is the positive size of some line, larger
    than the base size, and the size of fewer than 40 percent of the lines.
    The list holds the largest such sizes: a size of that kind that is not
    in the list is smaller than the three sizes of the list. *)
Theorem significant_sizes_rare (lines : list Element) (sig_sizes : list Q) (base_size : Q) :
  analyze_font_distribution lines = Ok (sig_sizes, base_size) ->
  Forall (fun s =>
            (exists line, line ∈ lines /\ e_size line = s)
            /\ (base_size < s)%Q
            /\ (5 * count_of s (positive_sizes lines) < 2 * length lines)%nat)
         sig_sizes
  /\ forall line,
       line ∈ lines ->
       (base_size < e_size line)%Q ->
       (5 * count_of (e_size line) (positive_sizes lines) < 2 * length lines)%nat ->
       InA Qeq (e_size line) sig_sizes
       \/ (length sig_sizes = 3%nat /\ Forall (fun t => (e_size line < t)%Q) sig_sizes).
Proof.
  intros Hrun. pose proof (base_size_positive _ _ _ Hrun) as Hpos. revert Hrun Hpos.
  unfold analyze_font_distribution.
  destruct (positive_sizes lines) as [|s0 sizes] eqn:Hsizes.
  { intros [= <- <-] Hpos. split; [constructor|]. intros line Hline Hlarge Hrare.
    exfalso. assert (Hin : e_size line ∈ positive_sizes lines).
    { unfold positive_sizes. apply list_elem_of_filter. split.
      - unfold Qlt_bool. apply Is_true_true, negb_true_iff.
        destruct (Qle_bool (e_size line) 0) eqn:Hle; [|reflexivity].
        apply Qle_bool_iff in Hle. exfalso.
        apply (Qlt_irrefl 0). eapply Qlt_le_trans; [|exact Hle].
        eapply Qlt_trans; eassumption.
      - apply list_elem_of_fmap. eauto. }
    rewrite Hsizes in Hin. apply elem_of_nil in Hin. exact Hin. }
  rewrite <- Hsizes.
  destruct (most_common_1 (Counter (positive_sizes lines))) as [|[base n] tl]; [discriminate|].
  intros [= <- <-] Hpos.
  set (wanted := fun size => Qlt_bool base size
                             && below_40_percent
                                  (counter_get size (Counter (positive_sizes lines)))
                                  (length lines)).
  set (chosen := filter (fun size => wanted size) (map fst (Counter (positive_sizes lines)))).
  assert (Hwanted : forall s, wanted s = true <->
            (base < s)%Q
            /\ (5 * count_of s (positive_sizes lines) < 2 * length lines)%nat).
  { intros s. unfold wanted, below_40_percent, Qlt_bool.
    rewrite counter_get_Counter, andb_true_iff, negb_true_iff, Nat.ltb_lt.
    split; intros [Hlt Hc]; (split; [|exact Hc]).
    - apply Qnot_le_lt. intros Hle. apply Qle_bool_iff in Hle. congruence.
    - destruct (Qle_bool s base) eqn:Hle; [|reflexivity].
      apply Qle_bool_iff in Hle. exfalso. exact (Qlt_irrefl _ (Qlt_le_trans _ _ _ Hlt Hle)). }
  assert (Hkeys : map fst (Counter (positive_sizes lines)) = py_set (positive_sizes lines)).
  { rewrite Counter_spec, map_map. cbn [fst]. apply map_id. }
  pose proof (sort_desc_strict id (py_set chosen) (py_set_NoDupA chosen)) as Hsorted.
  split.
  - apply Forall_forall. intros s Hs. apply list_elem_of_In, firstn_In in Hs.
    apply list_elem_of_In in Hs. rewrite sort_desc_Permutation in Hs.
    apply list_elem_of_In, py_set_In in Hs. unfold chosen in Hs.
    apply list_elem_of_In, list_elem_of_filter in Hs as [Hw Hs].
    apply Is_true_true, Hwanted in Hw as [Hlt Hc].
    rewrite Hkeys in Hs. apply list_elem_of_In, py_set_In, positive_sizes_In in Hs as [_ Hline].
    tauto.
  - intros line Hline Hlarge Hrare.
    assert (Hin : existsb (Qeq_bool (e_size line)) (positive_sizes lines) = true).
    { apply existsb_exists. exists (e_size line). split; [|apply Qeq_bool_iff; reflexivity].
      apply list_elem_of_In. unfold positive_sizes. apply list_elem_of_filter. split.
      - unfold Qlt_bool. apply Is_true_true, negb_true_iff.
        destruct (Qle_bool (e_size line) 0) eqn:Hle; [|reflexivity].
        apply Qle_bool_iff in Hle. exfalso.
        apply (Qlt_irrefl 0). eapply Qlt_le_trans; [|exact Hle].
        eapply Qlt_trans; eassumption.
      - apply list_elem_of_fmap. eauto. }
    rewrite <- py_set_existsb in Hin. apply existsb_exists in Hin as (k & Hk & Hsk).
    apply Qeq_bool_iff in Hsk.
    assert (Hkw : wanted k = true).
    { apply Hwanted. split; [rewrite <- Hsk; exact Hlarge|].
      rewrite <- (count_of_comp (e_size line) k) by exact Hsk. exact Hrare. }
    assert (Hchosen : InA Qeq k (py_set chosen)).
    { apply existsb_Qeq_InA. rewrite py_set_existsb. apply existsb_exists.
      exists k. split; [|apply Qeq_bool_iff; reflexivity].
      apply list_elem_of_In. unfold chosen. apply list_elem_of_filter.
      split; [apply Is_true_true; exact Hkw|]. rewrite Hkeys. apply list_elem_of_In. exact Hk. }
    apply InA_alt in Hchosen as (k' & Hkk' & Hk').
    assert (Hk'' : In k' (sort_desc id (py_set chosen))).
    { apply list_elem_of_In. rewrite sort_desc_Permutation. apply list_elem_of_In. exact Hk'. }
    rewrite <- (firstn_skipn 3 (sort_desc id (py_set chosen))) in Hk''.
    apply in_app_or in Hk'' as [Hfirst|Hskip].
    + left. apply InA_alt. exists k'. split; [|exact Hfirst]. rewrite Hsk. exact Hkk'.
    + right. split.
      * assert (Hlen : (3 < length (sort_desc id (py_set chosen)))%nat).
        { destruct (le_lt_dec (length (sort_desc id (py_set chosen))) 3) as [Hle|Hgt];
            [|exact Hgt].
          rewrite skipn_all2 in Hskip by exact Hle. destruct Hskip. }
        rewrite length_firstn. apply Nat.min_l, Nat.lt_le_incl. exact Hlen.
      * apply Forall_forall. intros t Ht. apply list_elem_of_In in Ht.
        pose proof (StronglySorted_firstn_skipn _ 3 _ Hsorted t k' Ht Hskip) as Hlt.
        unfold strictly_below, id in Hlt. rewrite Hsk, Hkk'. exact Hlt.
Qed.

(** ** [is_heading_candidate] *)

Lemma Qlt_bool_iff (a b : Q) : Qlt_bool a b = true <-> (a < b)%Q.
Proof.
  unfold Qlt_bool. rewrite negb_true_iff. split.
  - intros Hle. apply Qnot_le_lt. intros Hn. apply Qle_bool_iff in Hn. congruence.
  - intros Hlt. destruct (Qle_bool b a) eqn:Hle; [|reflexivity].
    apply Qle_bool_iff in Hle. exfalso. exact (Qlt_irrefl _ (Qlt_le_trans _ _ _ Hlt Hle)).
Qed.

(** X12. On an element that has a ["has_bold"], as every merged line has,
    the classifier never raises, and it accepts exactly the elements whose
    cleaned text has at least 3 characters, is not a number, and that meet
    one of the five rules; the order of the rules does not show. *)
Theorem is_heading_candidate_rules (element : Element) (sig_sizes : list Q)
    (base_size : Q) (bold : bool) :
  e_has_bold element = Some bold ->
  exists accepted,
    is_heading_candidate element sig_sizes base_size = Ok accepted
    /\ (accepted = true <->
        (3 <= String.length (clean_text (e_text element)))%nat
        /\ isdigit (clean_text (e_text element)) = false
        /\ (InA Qeq (e_size element) sig_sizes
            \/ (bold = true /\ (base_size <= e_size element)%Q)
            \/ (isupper (clean_text (e_text element)) = true
                /\ (6 < String.length (clean_text (e_text element)))%nat)
            \/ match_numbered (clean_text (e_text element)) = true
            \/ (e_relative_y element < 1 # 5)%Q)).
Proof.
  intros Hbold. unfold is_heading_candidate, get_has_bold. rewrite Hbold.
  set (txt := clean_text (e_text element)).
  destruct (String.length txt <? 3)%nat eqn:Hlen.
  { cbn [orb]. exists false. split; [reflexivity|].
    apply Nat.ltb_lt in Hlen. split; [discriminate|]. intros [Hl _]. lia. }
  apply Nat.ltb_ge in Hlen. cbn [orb].
  destruct (isdigit txt) eqn:Hdigit.
  { exists false. split; [reflexivity|]. split; [discriminate|]. intros (_ & Hd & _). discriminate. }
  destruct (existsb (Qeq_bool (e_size element)) sig_sizes) eqn:Hsig.
  { exists true. split; [reflexivity|]. split; [|reflexivity]. intros _.
    split; [exact Hlen|]. split; [reflexivity|]. left. apply existsb_Qeq_InA. exact Hsig. }
  assert (Hnotsig : ~ InA Qeq (e_size element) sig_sizes).
  { intros Hin. apply existsb_Qeq_InA in Hin. congruence. }
  cbn [rbind].
  destruct (bold && Qle_bool base_size (e_size element)) eqn:Hb.
  { exists true. split; [reflexivity|]. split; [|reflexivity]. intros _.
    split; [exact Hlen|]. split; [reflexivity|]. right. left.
    apply andb_true_iff in Hb as [Hb Hle]. split; [exact Hb | apply Qle_bool_iff; exact Hle]. }
  assert (Hnotbold : ~ (bold = true /\ (base_size <= e_size element)%Q)).
  { intros [-> Hle]. apply Qle_bool_iff in Hle. rewrite Hle in Hb. discriminate. }
  destruct (isupper txt && (6 <? String.length txt)%nat) eqn:Hu.
  { exists true. split; [reflexivity|]. split; [|reflexivity]. intros _.
    split; [exact Hlen|]. split; [reflexivity|]. right. right. left.
    apply andb_true_iff in Hu as [Hu Hl]. split; [exact Hu | apply Nat.ltb_lt; exact Hl]. }
  assert (Hnotupper : ~ (isupper txt = true /\ (6 < String.length txt)%nat)).
  { intros [Hup Hl]. apply Nat.ltb_lt in Hl. rewrite Hup, Hl in Hu. discriminate. }
  destruct (match_numbered txt) eqn:Hnum.
  { exists true. split; [reflexivity|]. split; [|reflexivity]. intros _.
    split; [exact Hlen|]. split; [reflexivity|]. right. right. right. left. reflexivity. }
  destruct (Qlt_bool (e_relative_y element) (1 # 5)) eqn:Htop.
  { exists true. split; [reflexivity|]. split; [|reflexivity]. intros _.
    split; [exact Hlen|]. split; [reflexivity|]. right. right. right. right.
    apply Qlt_bool_iff. exact Htop. }
  exists false. split; [reflexivity|]. split; [discriminate|].
  intros (_ & _ & [H|[H|[H|[H|H]]]]); try tauto; try discriminate.
  apply Qlt_bool_iff in H. congruence.
Qed.

(** X13. On an element without ["has_bold"], as the decoder's raw elements
    are, the classifier rejects a short or numeric text and accepts a
    significant size without reading the key; in every other case it raises
    [KeyError]. *)
Theorem is_heading_candidate_raw (element : Element) (sig_sizes : list Q) (base_size : Q) :
  e_has_bold element = None ->
  ((String.length (clean_text (e_text element)) < 3)%nat
   \/ isdigit (clean_text (e_text element)) = true ->
   is_heading_candidate element sig_sizes base_size = Ok false)
  /\ ((3 <= String.length (clean_text (e_text element)))%nat ->
      isdigit (clean_text (e_text element)) = false ->
      InA Qeq (e_size element) sig_sizes ->
      is_heading_candidate element sig_sizes base_size = Ok true)
  /\ ((3 <= String.length (clean_text (e_text element)))%nat ->
      isdigit (clean_text (e_text element)) = false ->
      ~ InA Qeq (e_size element) sig_sizes ->
      is_heading_candidate element sig_sizes base_size = Raise (KeyError "has_bold")).
Proof.
  intros Hbold. unfold is_heading_candidate, get_has_bold. rewrite Hbold.
  set (txt := clean_text (e_text element)).
  split; [|split].
  - intros [Hlen|Hdigit].
    + apply Nat.ltb_lt in Hlen. rewrite Hlen. reflexivity.
    + rewrite Hdigit, orb_true_r. reflexivity.
  - intros Hlen Hdigit Hsig. apply Nat.ltb_ge in Hlen. rewrite Hlen, Hdigit. cbn [orb].
    apply existsb_Qeq_InA in Hsig. rewrite Hsig. reflexivity.
  - intros Hlen Hdigit Hsig. apply Nat.ltb_ge in Hlen. rewrite Hlen, Hdigit. cbn [orb].
    destruct (existsb (Qeq_bool (e_size element)) sig_sizes) eqn:Hex; [|reflexivity].
    exfalso. apply Hsig, existsb_Qeq_InA. exact Hex.
Qed.

Lemma after_digits_not_all_digits (s : string) :
  after_digits s = true -> str_all is_digit s = false.
Proof.
  induction s as [|c s IH]; [discriminate|].
  cbn [after_digits str_all]. destruct (is_digit c) eqn:Hc; cbn [andb]; [exact IH | reflexivity].
Qed.

(** X14. A numbered line is a heading candidate whatever its size, boldness
    and position: when the cleaned text begins with digits followed by a dot
    or a closing parenthesis and has at least 3 characters, a merged line is
    accepted. *)
Theorem numbered_line_accepted (element : Element) (sig_sizes : list Q)
    (base_size : Q) (bold : bool) :
  e_has_bold element = Some bold ->
  match_numbered (clean_text (e_text element)) = true ->
  (3 <= String.length (clean_text (e_text element)))%nat ->
  is_heading_candidate element sig_sizes base_size = Ok true.
Proof.
  intros Hbold Hnum Hlen. unfold is_heading_candidate, get_has_bold. rewrite Hbold.
  set (txt := clean_text (e_text element)) in *.
  apply Nat.ltb_ge in Hlen. rewrite Hlen. cbn [orb].
  assert (Hdigit : isdigit txt = false).
  { unfold isdigit. destruct txt as [|c t]; [discriminate|].
    cbn [match_numbered] in Hnum. apply andb_true_iff in Hnum as [Hc Hafter].
    cbn [str_empty negb str_all andb]. rewrite Hc. cbn [andb].
    apply after_digits_not_all_digits. exact Hafter. }
  rewrite Hdigit, Hnum. cbn [rbind].
  destruct (existsb _ sig_sizes); [reflexivity|].
  destruct (bold && _); [reflexivity|].
  destruct (isupper txt && _); reflexivity.
Qed.

(** ** [assign_heading_levels]: every list of sizes *)

Lemma level_map_from_level (k : Q) (dflt : string) (sig_sizes : list Q) (i : nat)
    (d : list (Q * string)) :
  dict_get k dflt (level_map_from i sig_sizes d) = dict_get k dflt d
  \/ exists n, (n < length sig_sizes)%nat
               /\ dict_get k dflt (level_map_from i sig_sizes d) = level_name (i + n + 1).
Proof.
  revert i d. induction sig_sizes as [|s rest IH]; intros i d; cbn [level_map_from].
  - left. reflexivity.
  - destruct (IH (S i) (dict_set s (level_name (i + 1)) d)) as [Hsame|(n & Hn & Hlevel)].
    + rewrite Hsame. destruct (Qeq_bool k s) eqn:Hks.
      * right. exists 0%nat. split; [cbn; lia|].
        rewrite dict_get_set_eq by (apply Qeq_bool_iff; exact Hks). f_equal. lia.
      * left. apply dict_get_set_ne. apply Qeq_bool_false. exact Hks.
    + right. exists (S n). split; [cbn; lia|]. rewrite Hlevel. f_equal. lia.
Qed.

Lemma level_map_from_app (l1 l2 : list Q) (i : nat) (d : list (Q * string)) :
  level_map_from i (l1 ++ l2) d
  = level_map_from (i + length l1) l2 (level_map_from i l1 d).
Proof.
  revert i d. induction l1 as [|s l1 IH]; intros i d; cbn [app level_map_from length].
  - rewrite Nat.add_0_r. reflexivity.
  - rewrite IH. f_equal. lia.
Qed.

(** X15. [assign_heading_levels] makes one heading of every candidate, in
    order.  With at most three significant sizes every level is "H1", "H2"
    or "H3"; in general a level is "H3" or the level of an index of the
    list. *)
Theorem heading_levels_range (candidates : list Element) (sig_sizes : list Q) :
  length (assign_heading_levels candidates sig_sizes) = length candidates
  /\ Forall (fun h => h_level h = "H3"
                      \/ exists n, (n < length sig_sizes)%nat
                                   /\ h_level h = level_name (n + 1))
            (assign_heading_levels candidates sig_sizes)
  /\ ((length sig_sizes <= 3)%nat ->
      Forall (fun h => h_level h = "H1" \/ h_level h = "H2" \/ h_level h = "H3")
             (assign_heading_levels candidates sig_sizes)).
Proof.
  unfold assign_heading_levels.
  assert (Hlevels : forall c,
            dict_get (e_size c) "H3" (level_map sig_sizes) = "H3"
            \/ exists n, (n < length sig_sizes)%nat
                         /\ dict_get (e_size c) "H3" (level_map sig_sizes)
                            = level_name (n + 1)).
  { intros c. unfold level_map.
    destruct (level_map_from_level (e_size c) "H3" sig_sizes 0 []) as [Hd|(n & Hn & Hl)].
    - left. exact Hd.
    - right. exists n. split; [exact Hn | exact Hl]. }
  split; [apply length_map|]. split.
  - apply Forall_forall. intros h Hh. apply list_elem_of_fmap in Hh as (c & -> & _).
    cbn [h_level]. apply Hlevels.
  - intros Hshort. apply Forall_forall. intros h Hh.
    apply list_elem_of_fmap in Hh as (c & -> & _). cbn [h_level].
    destruct (Hlevels c) as [Hd|(n & Hn & Hl)]; [tauto|]. rewrite Hl.
    destruct n as [|[|[|n]]]; [tauto | tauto | tauto | lia].
Qed.

(** X16. When a size occurs more than once in the list of sizes, its last
    occurrence decides: a candidate gets the level of the last index at
    which its size stands. *)
Theorem heading_level_last_occurrence (c : Element) (pre post : list Q) (s : Q) :
  (e_size c == s)%Q ->
  ~ InA Qeq (e_size c) post ->
  map h_level (assign_heading_levels [c] (pre ++ s :: post))
  = [level_name (length pre + 1)].
Proof.
  intros Hs Hpost. unfold assign_heading_levels, level_map. cbn [map h_level]. f_equal.
  rewrite level_map_from_app. cbn [level_map_from].
  rewrite level_map_from_other by exact Hpost.
  rewrite dict_get_set_eq by exact Hs. reflexivity.
Qed.

(** ** [get_title] *)

Lemma title_candidates_In (first_page : list Element) (s : Q) (t : string) :
  In (s, t) (title_candidates first_page) <->
  exists e, e ∈ first_page
            /\ s = e_size e /\ t = clean_text (e_text e)
            /\ (10 < String.length (clean_text (e_text e)))%nat
            /\ (e_relative_y e < float_0_3)%Q.
Proof.
  unfold title_candidates. rewrite in_flat_map. split.
  - intros (e & He & Hin).
    destruct ((10 <? String.length (clean_text (e_text e)))%nat
              && Qlt_bool (e_relative_y e) float_0_3) eqn:Hc; [|destruct Hin].
    destruct Hin as [[= <- <-]|[]]. apply andb_true_iff in Hc as [Hl Hy].
    exists e. split; [apply list_elem_of_In; exact He|].
    split; [reflexivity|]. split; [reflexivity|].
    split; [apply Nat.ltb_lt; exact Hl | apply Qlt_bool_iff; exact Hy].
  - intros (e & He & -> & -> & Hl & Hy). exists e. split; [apply list_elem_of_In; exact He|].
    apply Nat.ltb_lt in Hl. apply Qlt_bool_iff in Hy. rewrite Hl, Hy. left. reflexivity.
Qed.

(** X17. The title comes from the first page alone.  It is empty when no
    element of that page has a cleaned text of more than 10 characters and a
    relative height below the double 0.3; otherwise it is the cleaned text of
    such an element, and no such element has a larger size. *)
Theorem get_title_selected (first_page : list Element) (rest : list (list Element)) :
  get_title [] = EmptyString
  /\ ((forall e, e ∈ first_page ->
         ~ ((10 < String.length (clean_text (e_text e)))%nat
            /\ (e_relative_y e < float_0_3)%Q)) ->
      get_title (first_page :: rest) = EmptyString)
  /\ (forall e0, e0 ∈ first_page ->
        (10 < String.length (clean_text (e_text e0)))%nat ->
        (e_relative_y e0 < float_0_3)%Q ->
        exists e, e ∈ first_page
                  /\ get_title (first_page :: rest) = clean_text (e_text e)
                  /\ (10 < String.length (get_title (first_page :: rest)))%nat
                  /\ (e_relative_y e < float_0_3)%Q
                  /\ forall e', e' ∈ first_page ->
                       (10 < String.length (clean_text (e_text e')))%nat ->
                       (e_relative_y e' < float_0_3)%Q ->
                       (e_size e' <= e_size e)%Q).
Proof.
  split; [reflexivity|]. split.
  - intros Hnone. unfold get_title.
    destruct (title_candidates first_page) as [|[s t] tl] eqn:Hc; [reflexivity|].
    exfalso. assert (Hin : In (s, t) (title_candidates first_page)) by (rewrite Hc; left; reflexivity).
    apply title_candidates_In in Hin as (e & He & _ & _ & Hl & Hy).
    exact (Hnone e He (conj Hl Hy)).
  - intros e0 He0 Hl0 Hy0.
    assert (Hcand : title_candidates first_page <> []).
    { intros Hc. assert (Hin : In (e_size e0, clean_text (e_text e0)) (title_candidates first_page)).
      { apply title_candidates_In. exists e0. tauto. }
      rewrite Hc in Hin. destruct Hin. }
    destruct (get_title_first_largest first_page rest Hcand)
      as (s & pre & post & Hsplit & Hpre & Hpost).
    assert (Hin : In (s, get_title (first_page :: rest)) (title_candidates first_page)).
    { rewrite Hsplit. apply in_or_app. right. left. reflexivity. }
    apply title_candidates_In in Hin as (e & He & Hs & Ht & Hl & Hy).
    exists e. split; [exact He|]. split; [exact Ht|].
    split; [rewrite Ht; exact Hl|]. split; [exact Hy|].
    intros e' He' Hl' Hy'.
    assert (Hin' : In (e_size e', clean_text (e_text e')) (title_candidates first_page)).
    { apply title_candidates_In. exists e'. tauto. }
    rewrite Hsplit in Hin'. rewrite <- Hs.
    apply in_app_or in Hin' as [Hin'|[Heq|Hin']].
    + rewrite Forall_forall in Hpre. apply list_elem_of_In in Hin'.
      specialize (Hpre _ Hin'). cbn [fst] in Hpre. apply Qlt_le_weak. exact Hpre.
    + injection Heq as Heq _. rewrite <- Heq. apply Qle_refl.
    + rewrite Forall_forall in Hpost. apply list_elem_of_In in Hin'.
      exact (Hpost _ Hin').
Qed.

(** ** The pipeline of [extract_outline] *)

Lemma merge_by_line_total (els : list Element) (tol : Z) :
  tol <> 0 -> Forall (fun e => is_Some (e_x e)) els ->
  exists out, merge_by_line els tol = Ok out.
Proof.
  intros Hne Hx. unfold merge_by_line.
  destruct (group_lines_spec tol els ∅ Hne) as (M & HM & Hgroups & _).
  rewrite HM. cbn [rbind]. apply merge_keys_total.
  apply Forall_forall. intros k _. rewrite Hgroups, lookup_empty. cbn [default app].
  apply Forall_forall. intros e He. apply list_elem_of_filter in He as [_ He].
  rewrite Forall_forall in Hx. apply Hx. exact He.
Qed.

Lemma analyze_total (lines : list Element) :
  exists sig_sizes base_size,
    analyze_font_distribution lines = Ok (sig_sizes, base_size)
    /\ (length sig_sizes <= 3)%nat.
Proof.
  unfold analyze_font_distribution.
  destruct (positive_sizes lines) as [|s0 sizes]; [exists [], 12%Q; split; [reflexivity | cbn; lia]|].
  destruct (most_common_1 (Counter (s0 :: sizes))) as [|[base n] tl] eqn:Hmc.
  - exfalso. unfold most_common_1 in Hmc.
    destruct (Counter (s0 :: sizes)) eqn:Hc; [|discriminate].
    exact (Counter_nonempty _ _ Hc).
  - eexists _, base. split; [reflexivity | apply firstn_le_length].
Qed.

Lemma is_heading_candidate_total (element : Element) (sig_sizes : list Q) (base_size : Q) :
  is_Some (e_has_bold element) ->
  exists b, is_heading_candidate element sig_sizes base_size = Ok b.
Proof.
  intros [bold Hbold]. unfold is_heading_candidate, get_has_bold. rewrite Hbold. cbn [rbind].
  destruct (_ || _); [eauto|]. destruct (existsb _ _); [eauto|].
  destruct (bold && _); [eauto|]. destruct (isupper _ && _); [eauto|].
  destruct (match_numbered _); [eauto|]. destruct (Qlt_bool _ _); eauto.
Qed.

Lemma rfilter_total {A} (p : A -> result bool) (l : list A) :
  Forall (fun a => exists b, p a = Ok b) l ->
  exists out, rfilter p l = Ok out /\ out `sublist_of` l.
Proof.
  induction 1 as [|a l [b Hb] _ (out & Hout & Hsub)]; cbn [rfilter].
  - exists []. split; [reflexivity | constructor].
  - rewrite Hb, Hout. cbn [rbind]. destruct b.
    + exists (a :: out). split; [reflexivity | apply sublist_skip; exact Hsub].
    + exists out. split; [reflexivity | apply sublist_cons; exact Hsub].
Qed.

Lemma rfilter_sublist {A} (p : A -> result bool) (l out : list A) :
  rfilter p l = Ok out -> out `sublist_of` l.
Proof.
  revert out. induction l as [|a l IH]; intros out; cbn [rfilter].
  - intros [= <-]. constructor.
  - destruct (p a) as [b|]; cbn [rbind]; [|discriminate].
    destruct (rfilter p l) as [rest|]; cbn [rbind]; [|discriminate].
    intros [= <-]. destruct b; [apply sublist_skip | apply sublist_cons]; apply IH; reflexivity.
Qed.

Lemma merged_has_bold (els out : list Element) (tol : Z) :
  merge_by_line els tol = Ok out -> Forall (fun m => is_Some (e_has_bold m)) out.
Proof.
  intros Hout. destruct (decide (tol = 0)) as [->|Hne].
  - apply merge_by_line_zero in Hout as [_ ->]. constructor.
  - destruct (merge_by_line_elem tol els out Hne Hout) as [Helem _].
    apply Forall_forall. intros m Hm. apply Helem in Hm as (e & _ & Hline).
    apply merge_line_built in Hline as (rep & tl & _ & _ & _ & Hbold & _).
    rewrite Hbold. eauto.
Qed.

Lemma outline_of_pages_total (pdf_path : string) (pages : list (list Element)) :
  Forall (fun e => is_Some (e_x e)) (concat pages) ->
  exists o, outline_of_pages pdf_path pages = Ok o.
Proof.
  intros Hx. unfold outline_of_pages.
  destruct (merge_by_line_total (concat pages) 3 ltac:(discriminate) Hx) as [merged Hmerged].
  rewrite Hmerged. cbn [rbind].
  destruct (analyze_total merged) as (sig & base & Hstats & _). rewrite Hstats. cbn [rbind fst snd].
  destruct (rfilter_total (fun el => is_heading_candidate el sig base) merged)
    as (candidates & Hcand & _).
  { eapply Forall_impl; [exact (merged_has_bold _ _ _ Hmerged)|].
    intros m Hm. apply is_heading_candidate_total. exact Hm. }
  rewrite Hcand. cbn [rbind]. eauto.
Qed.

Lemma extraction_has_x (doc : Document) (pages : list (list Element)) :
  extract_text_with_metadata doc = Ok pages ->
  Forall (fun e => is_Some (e_x e)) (concat pages).
Proof.
  intros Hextract. apply pages_from_raw in Hextract as [_ Hall].
  apply Forall_forall. intros e He. apply list_elem_of_In, in_concat in He as (els & Hels & He).
  apply list_elem_of_In, list_elem_of_lookup in Hels as [i Hi].
  specialize (Hall i els Hi). rewrite Forall_forall in Hall.
  apply list_elem_of_In in He. destruct (Hall e He) as (_ & Hx & _). exact Hx.
Qed.

(** X18. What the decoder hands over never makes the pipeline fail: when the
    extraction returns, the rest of the [try] block returns an outline.  So
    the [try] block of [extract_outline] fails only when the document cannot
    be opened or the extraction raises. *)
Theorem pipeline_never_fails (pymupdf_open : string -> result Document)
    (pdf_path : string) (w : World) :
  (forall doc pages,
     extract_text_with_metadata doc = Ok pages ->
     exists o, outline_of_pages pdf_path pages = Ok o)
  /\ (forall e w1,
        extract_outline_try pymupdf_open pdf_path w = (Raise e, w1) ->
        pymupdf_open pdf_path = Raise e
        \/ exists doc, pymupdf_open pdf_path = Ok doc
                       /\ extract_text_with_metadata doc = Raise e).
Proof.
  assert (Htotal : forall doc pages,
            extract_text_with_metadata doc = Ok pages ->
            exists o, outline_of_pages pdf_path pages = Ok o).
  { intros doc pages Hextract. apply outline_of_pages_total.
    eapply extraction_has_x. exact Hextract. }
  split; [exact Htotal|].
  intros e w1. unfold extract_outline_try, bind, doc_open, doc_close, lift.
  destruct (pymupdf_open pdf_path) as [doc|e0] eqn:Hopen; [|intros [= -> _]; left; reflexivity].
  destruct (extract_text_with_metadata doc) as [pages|e0] eqn:Hextract.
  - destruct (Htotal doc pages Hextract) as [o Ho]. rewrite Ho. discriminate.
  - intros [= -> _]. right. eauto.
Qed.

Lemma merged_page_from_element (els out : list Element) (tol : Z) (m : Element) :
  merge_by_line els tol = Ok out -> m ∈ out ->
  exists e, e ∈ els /\ e_page e = e_page m.
Proof.
  intros Hout Hm. destruct (decide (tol = 0)) as [->|Hne].
  - apply merge_by_line_zero in Hout as [_ ->]. apply elem_of_nil in Hm. destruct Hm.
  - destruct (merge_by_line_elem tol els out Hne Hout) as [Helem _].
    apply Helem in Hm as (e0 & _ & Hline).
    apply merge_line_built in Hline as (rep & tl & Hsort & _ & _ & _ & _ & Hpage & _).
    apply sort_by_x_sorted in Hsort as [Hperm _].
    assert (Hrep : rep ∈ filter (fun e' => key_of tol e' = key_of tol e0) els).
    { rewrite <- Hperm. left. }
    apply list_elem_of_filter in Hrep as [_ Hrep]. exists rep. split; [exact Hrep | congruence].
Qed.

(** X19. The outline of a document, when the pipeline returns one, holds no
    two headings of the same level and text; every heading has a clean text
    of more than 3 characters, a level among "H1", "H2" and "H3", and the
    page number of an element of the document. *)
Theorem outline_well_formed (pdf_path : string) (pages : list (list Element)) (o : Outline) :
  outline_of_pages pdf_path pages = Ok o ->
  NoDup (map heading_key (outline o))
  /\ Forall (fun h =>
               (3 < String.length (h_text h))%nat
               /\ clean_text (h_text h) = h_text h
               /\ (h_level h = "H1" \/ h_level h = "H2" \/ h_level h = "H3")
               /\ exists e, e ∈ concat pages /\ e_page e = h_page h)
            (outline o).
Proof.
  unfold outline_of_pages.
  destruct (merge_by_line (concat pages) 3) as [merged|] eqn:Hmerged; cbn [rbind]; [|discriminate].
  destruct (analyze_total merged) as (sig & base & Hstats & Hlen).
  rewrite Hstats. cbn [rbind fst snd].
  destruct (rfilter _ merged) as [candidates|] eqn:Hcand; cbn [rbind]; [|discriminate].
  intros [= <-]. cbn [outline]. unfold unique_headings.
  destruct (unique_loop_kept (assign_heading_levels candidates sig) ∅) as [Hkept Hnodup].
  split; [exact Hnodup|].
  apply Forall_forall. intros h Hh.
  rewrite Forall_forall in Hkept. destruct (Hkept h Hh) as [Hlong _].
  split; [exact Hlong|].
  apply (sublist_subseteq _ _ (unique_loop_sublist _ _)) in Hh.
  unfold assign_heading_levels in Hh. apply list_elem_of_fmap in Hh as (c & -> & Hc).
  cbn [h_text h_level h_page]. split; [apply clean_text_idempotent|]. split.
  - unfold level_map.
    destruct (level_map_from_level (e_size c) "H3" sig 0 []) as [Hd|(n & Hn & Hl)].
    + right. right. exact Hd.
    + rewrite Hl. destruct n as [|[|[|n]]]; [tauto | tauto | tauto | lia].
  - apply (sublist_subseteq _ _ (rfilter_sublist _ _ _ Hcand)) in Hc.
    exact (merged_page_from_element _ _ _ _ Hmerged Hc).
Qed.

Lemma concat_nil_get_title (pages : list (list Element)) :
  concat pages = [] -> get_title pages = EmptyString.
Proof.
  destruct pages as [|first rest]; [reflexivity|]. cbn [concat]. intros Hnil.
  apply app_eq_nil in Hnil as [-> _]. reflexivity.
Qed.

Lemma blank_doc_pages (doc : Document) (page_num : nat) :
  Forall (fun page => exists blocks,
            get_text_blocks page = Ok blocks
            /\ existsb (fun sp => has_ink (span_text sp)) (page_spans blocks) = false) doc ->
  exists pages, pages_from page_num doc = Ok pages /\ concat pages = [].
Proof.
  intros Hblank. revert page_num.
  induction Hblank as [|page doc (blocks & Hblocks & Hnone) _ IH]; intros page_num.
  - exists []. split; reflexivity.
  - cbn [pages_from].
    destruct (page_elements_degenerate page_num page blocks Hblocks) as [Hnil _].
    rewrite (Hnil Hnone). cbn [rbind].
    destruct (IH (S page_num)) as (pages & Hpages & Hconcat).
    rewrite Hpages. cbn [rbind]. exists ([] :: pages). split; [reflexivity | exact Hconcat].
Qed.

(** X20. A document without ink -- no page, or pages whose spans are all
    blank -- gets the title made from its file name and an empty outline,
    and nothing is printed; the size of its pages does not matter. *)
Theorem blank_document_outline (pymupdf_open : string -> result Document)
    (pdf_path : string) (doc : Document) (w : World) :
  pymupdf_open pdf_path = Ok doc ->
  Forall (fun page => exists blocks,
            get_text_blocks page = Ok blocks
            /\ existsb (fun sp => has_ink (span_text sp)) (page_spans blocks) = false) doc ->
  exists w',
    extract_outline pymupdf_open pdf_path w
    = (Ok {| title := str_title (replace_underscores (stem pdf_path)); outline := [] |}, w')
    /\ stdout w' = stdout w.
Proof.
  intros Hopen Hblank.
  destruct (blank_doc_pages doc 0 Hblank) as (pages & Hpages & Hconcat).
  unfold extract_outline, try_except, extract_outline_try, bind, doc_open, doc_close, lift.
  rewrite Hopen. unfold extract_text_with_metadata. rewrite Hpages.
  unfold outline_of_pages. rewrite (concat_nil_get_title pages Hconcat), Hconcat.
  cbn. eexists. split; reflexivity.
Qed.

(** X21. [extract_outline] always returns a record.  It writes no file; it
    prints nothing, or the one line that reports the failure, and then the
    record is the title-only record of the stem; and it leaves the documents
    other than its own as they were, open or closed. *)
Theorem extract_outline_effects (pymupdf_open : string -> result Document)
    (pdf_path : string) (w : World) :
  exists o w',
    extract_outline pymupdf_open pdf_path w = (Ok o, w')
    /\ written w' = written w
    /\ (stdout w' = stdout w
        \/ exists e,
             stdout w' = stdout w ++ ["Failed to process " +:+ pdf_path +:+ ": " +:+ exn_str e]
             /\ o = {| title := stem pdf_path; outline := [] |})
    /\ (forall other, other <> pdf_path ->
          (other ∈ open_handles w' <-> other ∈ open_handles w)).
Proof.
  unfold extract_outline, try_except, extract_outline_try, bind, doc_open, doc_close, lift,
    print, ret.
  assert (Hremove : forall other l, other <> pdf_path ->
            (other ∈ remove string_dec pdf_path (pdf_path :: l) <-> other ∈ l)).
  { intros other l Hne. rewrite !list_elem_of_In. split.
    - intros Hin. apply in_remove in Hin as [Hin _]. destruct Hin as [Heq|Hin]; [congruence | exact Hin].
    - intros Hin. apply in_in_remove; [exact Hne | right; exact Hin]. }
  destruct (pymupdf_open pdf_path) as [doc|e].
  - destruct (extract_text_with_metadata doc) as [pages|e].
    + destruct (outline_of_pages pdf_path pages) as [o|e].
      * eexists _, _. split; [reflexivity|]. cbn [written stdout open_handles].
        split; [reflexivity|]. split; [left; reflexivity|]. intros other Hne.
        apply Hremove. exact Hne.
      * eexists _, _. split; [reflexivity|]. cbn [written stdout open_handles].
        split; [reflexivity|]. split; [right; eauto|]. intros other Hne.
        apply Hremove. exact Hne.
    + eexists _, _. split; [reflexivity|]. cbn [written stdout open_handles].
      split; [reflexivity|]. split; [right; eauto|]. intros other Hne.
      rewrite elem_of_cons. split; [intros [Heq|Hin]; [congruence | exact Hin] | tauto].
  - eexists _, _. split; [reflexivity|]. cbn [written stdout open_handles].
    split; [reflexivity|]. split; [right; eauto | tauto].
Qed.

(** ** [process_and_save] and the batch *)

Lemma extract_outline_record (pymupdf_open : string -> result Document)
    (pdf_path : string) (w : World) :
  exists w',
    extract_outline pymupdf_open pdf_path w = (Ok (outline_record pymupdf_open pdf_path), w')
    /\ written w' = written w.
Proof.
  destruct (extract_outline_total pymupdf_open pdf_path w) as (o & w' & Hrun & Hwritten & _).
  exists w'. split; [|exact Hwritten]. rewrite Hrun. f_equal. f_equal.
  unfold outline_record.
  rewrite (extract_outline_world_independent pymupdf_open pdf_path world0 w), Hrun.
  reflexivity.
Qed.

Lemma process_and_save_unwritable (pymupdf_open : string -> result Document)
    (can_mkdir can_write : string -> bool) (pdf_path output_dir : string) (w : World) :
  can_mkdir output_dir = true ->
  can_write (output_file output_dir pdf_path) = false ->
  exists w',
    process_and_save pymupdf_open can_mkdir can_write pdf_path output_dir w
    = (Raise (OSError ("Permission denied: " +:+ output_file output_dir pdf_path)), w')
    /\ written w' = written w.
Proof.
  intros Hdir Hfile.
  destruct (extract_outline_record pymupdf_open pdf_path w) as (w1 & Hrun & Hwritten).
  unfold process_and_save, bind, mkdir, write_json. rewrite Hdir, Hrun, Hfile.
  exists w1. split; [reflexivity | exact Hwritten].
Qed.

(** X22. A failure of the output is not caught.  When the output directory
    cannot be made, [process_and_save] raises before the document is opened
    and leaves the world as it was; when the file cannot be written, it
    raises after the outline was made, and no file is written. *)
Theorem process_and_save_output_failure (pymupdf_open : string -> result Document)
    (can_mkdir can_write : string -> bool) (pdf_path output_dir : string) (w : World) :
  (can_mkdir output_dir = false ->
   process_and_save pymupdf_open can_mkdir can_write pdf_path output_dir w
   = (Raise (OSError ("Permission denied: " +:+ output_dir)), w))
  /\ (can_mkdir output_dir = true ->
      can_write (output_file output_dir pdf_path) = false ->
      exists w',
        process_and_save pymupdf_open can_mkdir can_write pdf_path output_dir w
        = (Raise (OSError ("Permission denied: " +:+ output_file output_dir pdf_path)), w')
        /\ written w' = written w).
Proof.
  split.
  - intros Hdir. unfold process_and_save, bind, mkdir. rewrite Hdir. reflexivity.
  - apply process_and_save_unwritable.
Qed.

Lemma process_and_save_record (pymupdf_open : string -> result Document)
    (can_mkdir can_write : string -> bool) (pdf_path output_dir : string) (w : World) :
  can_mkdir output_dir = true ->
  can_write (output_file output_dir pdf_path) = true ->
  exists w',
    process_and_save pymupdf_open can_mkdir can_write pdf_path output_dir w = (Ok tt, w')
    /\ written w'
       = <[output_file output_dir pdf_path := outline_record pymupdf_open pdf_path]> (written w).
Proof.
  intros Hdir Hfile.
  destruct (extract_outline_record pymupdf_open pdf_path w) as (w1 & Hrun & Hwritten).
  unfold process_and_save, bind, mkdir, write_json, print. rewrite Hdir, Hrun, Hfile.
  eexists. split; [reflexivity|]. cbn [written]. rewrite Hwritten. reflexivity.
Qed.

(** The files after the loop: one insertion per document, in order. *)
Lemma process_each_written (pymupdf_open : string -> result Document)
    (can_mkdir can_write : string -> bool)
    (pdf_files : list string) (output_dir : string) (w : World) :
  can_mkdir output_dir = true ->
  (forall pdf, pdf ∈ pdf_files -> can_write (output_file output_dir pdf) = true) ->
  exists w',
    process_each pymupdf_open can_mkdir can_write pdf_files output_dir w = (Ok tt, w')
    /\ written w'
       = fold_left (fun files pdf =>
                      <[output_file output_dir pdf := outline_record pymupdf_open pdf]> files)
                   pdf_files (written w).
Proof.
  intros Hdir. revert w.
  induction pdf_files as [|pdf rest IH]; intros w Hfiles; cbn [process_each fold_left].
  - exists w. split; reflexivity.
  - unfold bind at 1. cbn [print].
    set (w0 := {| open_handles := open_handles w;
                  stdout := stdout w ++ ["Processing " +:+ path_name pdf +:+ " ..."];
                  written := written w |}).
    destruct (process_and_save_record pymupdf_open can_mkdir can_write pdf output_dir w0 Hdir)
      as (w1 & Hsave & Hwritten); [apply Hfiles; left|].
    unfold bind at 1. rewrite Hsave.
    destruct (IH w1) as (w' & Hrest & Hfold); [intros p Hp; apply Hfiles; right; exact Hp|].
    exists w'. split; [exact Hrest|]. rewrite Hfold, Hwritten. reflexivity.
Qed.

Lemma fold_insert_lookup_other {V} (key : string -> string) (value : string -> V)
    (l : list string) (files : gmap string V) (f : string) :
  f ∉ map key l ->
  fold_left (fun files p => <[key p := value p]> files) l files !! f = files !! f.
Proof.
  revert files. induction l as [|p l IH]; intros files Hnot; [reflexivity|].
  cbn [fold_left]. rewrite IH.
  - apply lookup_insert_ne. intros Heq. apply Hnot. rewrite <- Heq. left.
  - intros Hin. apply Hnot. right. exact Hin.
Qed.

Lemma fold_insert_lookup_kept {V} (key : string -> string) (value : string -> V)
    (l : list string) (files : gmap string V) (f : string) :
  is_Some (files !! f) ->
  is_Some (fold_left (fun files p => <[key p := value p]> files) l files !! f).
Proof.
  revert files. induction l as [|q l IH]; intros files Hf; [exact Hf|].
  cbn [fold_left]. apply IH.
  destruct (decide (key q = f)) as [->|Hne].
  - rewrite lookup_insert_eq. eauto.
  - rewrite lookup_insert_ne by exact Hne. exact Hf.
Qed.

Lemma fold_insert_lookup_in {V} (key : string -> string) (value : string -> V)
    (l : list string) (files : gmap string V) (p : string) :
  p ∈ l ->
  is_Some (fold_left (fun files p => <[key p := value p]> files) l files !! key p).
Proof.
  revert files. induction l as [|q l IH]; intros files Hp.
  - apply elem_of_nil in Hp. destruct Hp.
  - cbn [fold_left]. apply elem_of_cons in Hp as [->|Hp]; [|apply IH; exact Hp].
    apply fold_insert_lookup_kept. rewrite lookup_insert_eq. eauto.
Qed.

(** X23. Where the output can be written, the loop over the documents ends
    with every document's file holding that document's outline record; when
    two documents have the same output file, the later one stays.  Files of
    other names are left as they were. *)
Theorem batch_files (pymupdf_open : string -> result Document)
    (can_mkdir can_write : string -> bool)
    (pdf_files : list string) (output_dir : string) (w : World) :
  can_mkdir output_dir = true ->
  (forall pdf, pdf ∈ pdf_files -> can_write (output_file output_dir pdf) = true) ->
  exists w',
    process_each pymupdf_open can_mkdir can_write pdf_files output_dir w = (Ok tt, w')
    /\ (forall before pdf after,
          pdf_files = before ++ pdf :: after ->
          output_file output_dir pdf ∉ map (output_file output_dir) after ->
          written w' !! output_file output_dir pdf
          = Some (outline_record pymupdf_open pdf))
    /\ (forall f, f ∉ map (output_file output_dir) pdf_files ->
          written w' !! f = written w !! f).
Proof.
  intros Hdir Hfiles.
  destruct (process_each_written pymupdf_open can_mkdir can_write pdf_files output_dir w
              Hdir Hfiles) as (w' & Hrun & Hwritten).
  exists w'. split; [exact Hrun|]. rewrite Hwritten. split.
  - intros before pdf after -> Hlast. rewrite fold_left_app. cbn [fold_left].
    rewrite fold_insert_lookup_other by exact Hlast. apply lookup_insert_eq.
  - intros f Hf. apply fold_insert_lookup_other. exact Hf.
Qed.

Lemma process_each_app (pymupdf_open : string -> result Document)
    (can_mkdir can_write : string -> bool)
    (l1 l2 : list string) (output_dir : string) (w : World) :
  process_each pymupdf_open can_mkdir can_write (l1 ++ l2) output_dir w
  = match process_each pymupdf_open can_mkdir can_write l1 output_dir w with
    | (Ok _, w1) => process_each pymupdf_open can_mkdir can_write l2 output_dir w1
    | (Raise e, w1) => (Raise e, w1)
    end.
Proof.
  revert w. induction l1 as [|pdf l1 IH]; intros w; [reflexivity|].
  cbn [app process_each]. unfold bind.
  destruct (print _ w) as [[[]|e] w0]; [|reflexivity].
  destruct (process_and_save _ _ _ _ _ w0) as [[[]|e] w1]; [|reflexivity].
  apply IH.
Qed.

(** X24. The batch stops at the first output file that cannot be written:
    the loop raises [OSError] there, the documents before it have their
    files, and no file of another name is touched, so the documents after it
    are never processed. *)
Theorem batch_stops_at_unwritable (pymupdf_open : string -> result Document)
    (can_mkdir can_write : string -> bool)
    (before after : list string) (pdf output_dir : string) (w : World) :
  can_mkdir output_dir = true ->
  (forall p, p ∈ before -> can_write (output_file output_dir p) = true) ->
  can_write (output_file output_dir pdf) = false ->
  exists w',
    process_each pymupdf_open can_mkdir can_write (before ++ pdf :: after) output_dir w
    = (Raise (OSError ("Permission denied: " +:+ output_file output_dir pdf)), w')
    /\ (forall p, p ∈ before -> is_Some (written w' !! output_file output_dir p))
    /\ (forall f, f ∉ map (output_file output_dir) before ->
          written w' !! f = written w !! f).
Proof.
  intros Hdir Hbefore Hpdf.
  destruct (process_each_written pymupdf_open can_mkdir can_write before output_dir w
              Hdir Hbefore) as (w1 & Hrun & Hwritten).
  rewrite process_each_app, Hrun. cbn [process_each]. unfold bind at 1. cbn [print].
  set (w0 := {| open_handles := open_handles w1;
                stdout := stdout w1 ++ ["Processing " +:+ path_name pdf +:+ " ..."];
                written := written w1 |}).
  destruct (process_and_save_unwritable pymupdf_open can_mkdir can_write
              pdf output_dir w0 Hdir Hpdf) as (w2 & Hsave & Hw2).
  unfold bind. rewrite Hsave. exists w2. split; [reflexivity|].
  change (written w0) with (written w1) in Hw2. rewrite Hw2, Hwritten. split.
  - intros p Hp. apply fold_insert_lookup_in. exact Hp.
  - intros f Hf. apply fold_insert_lookup_other. exact Hf.
Qed.

(** ** [detect_document_type] *)

Lemma is_prefix_app (w a r : string) :
  is_prefix w a = true -> is_prefix w (a +:+ r) = true.
Proof.
  revert a. induction w as [|c w IH]; intros a; [reflexivity|].
  destruct a as [|d a]; [discriminate|]. simpl.
  intros Hp. apply andb_true_iff in Hp as [Hc Hw]. rewrite Hc. cbn [andb]. apply IH. exact Hw.
Qed.

Lemma is_prefix_before_space (w a r : string) :
  str_any (Ascii.eqb " ") w = false ->
  is_prefix w (a +:+ String " " r) = is_prefix w a.
Proof.
  revert a. induction w as [|c w IH]; intros a Hw; [reflexivity|].
  cbn [str_any] in Hw. apply orb_false_iff in Hw as [Hc Hw].
  destruct a as [|d a]; simpl.
  - rewrite Ascii.eqb_sym, Hc. reflexivity.
  - rewrite IH by exact Hw. reflexivity.
Qed.

Lemma contains_app_space (w a r : string) :
  w <> EmptyString ->
  str_any (Ascii.eqb " ") w = false ->
  contains w (a +:+ String " " r) = contains w a || contains w r.
Proof.
  intros Hne Hw. induction a as [|d a IH].
  - simpl. destruct w as [|c w]; [congruence|].
    cbn [str_any] in Hw. apply orb_false_iff in Hw as [Hc _].
    cbn [is_prefix]. rewrite Ascii.eqb_sym, Hc. reflexivity.
  - change (String d a +:+ String " " r) with (String d (a +:+ String " " r)).
    cbn [contains]. rewrite IH.
    change (String d (a +:+ String " " r)) with (String d a +:+ String " " r).
    rewrite is_prefix_before_space by exact Hw. apply orb_assoc.
Qed.

Lemma contains_join (w : string) (parts : list string) :
  w <> EmptyString ->
  str_any (Ascii.eqb " ") w = false ->
  contains w (join " " parts) = existsb (contains w) parts.
Proof.
  intros Hne Hw. induction parts as [|p rest IH].
  - destruct w; [congruence | reflexivity].
  - cbn [existsb]. destruct rest as [|q rest].
    + cbn [join existsb]. rewrite orb_false_r. reflexivity.
    + rewrite <- IH. change (join " " (p :: q :: rest))
        with (p +:+ String " " (join " " (q :: rest))).
      apply contains_app_space; assumption.
Qed.

(** X25. The document type is decided element by element, on the first 100
    elements alone: it is "form" exactly when the lower-cased text of one of
    them contains "form" or "application", be it inside a longer word, and
    "standard_document" otherwise; the join of the texts creates no match. *)
Theorem detect_document_type_spec (text_elements : list Element) :
  detect_document_type text_elements
  = if existsb (fun elem => contains "form" (str_lower (e_text elem))
                            || contains "application" (str_lower (e_text elem)))
               (firstn 100 text_elements)
    then "form" else "standard_document".
Proof.
  unfold detect_document_type. cbn [existsb].
  rewrite !contains_join by (try discriminate; reflexivity).
  rewrite orb_false_r.
  assert (Hb : forall l : list Element,
    existsb (contains "form") (map (fun elem => str_lower (e_text elem)) l)
    || existsb (contains "application") (map (fun elem => str_lower (e_text elem)) l)
    = existsb (fun elem => contains "form" (str_lower (e_text elem))
                           || contains "application" (str_lower (e_text elem))) l).
  { induction l as [|e l IH]; [reflexivity|].
    cbn [map existsb]. rewrite <- IH.
    destruct (contains "form" (str_lower (e_text e))),
             (contains "application" (str_lower (e_text e))),
             (existsb (contains "form") (map (fun elem => str_lower (e_text elem)) l)),
             (existsb (contains "application") (map (fun elem => str_lower (e_text elem)) l));
      reflexivity. }
  rewrite Hb. reflexivity.
Qed.

(** ** The properties on sample inputs *)

Lemma is_bold_bit_4_witness :
  is_bold 20 = Z.testbit 20 4 /\ is_bold (Z.lor 16 3) = is_bold 16.
Proof.
  split.
  - apply (is_bold_bit_4 20).
  - apply (is_bold_bit_4 16). reflexivity.
Defined.

Lemma extraction_zero_page_witness :
  extract_text_with_metadata (report_doc ++ flat_page :: report_doc)
  = Raise ZeroDivisionError.
Proof.
  apply (extraction_zero_page report_doc report_doc flat_page
           [ {| block_lines := Some [one_span_line "Cover" 12 0 72 100] |} ]
           [[fragment "1. Introduction" 12 0 1 72 300]; [fragment "2. Methods" 12 0 2 72 90]]).
  - reflexivity.
  - reflexivity.
  - left. reflexivity.
  - constructor. reflexivity.
Defined.

Lemma line_key_double_near_witness :
  (exists k,
     line_key_double 9007199254740994 3 = Ok k
     /\ (exists j, k = j * 3)
     /\ (Qabs (inject_Z k - 9007199254740994)
         <= inject_Z (Z.abs 3) / 2 + Qabs 9007199254740994 / inject_Z (2 ^ 53))%Q)
  /\ line_key 102 3 = line_key_double 102 3.
Proof.
  split.
  - destruct (line_key_double_near 9007199254740994 3) as (k & Hk & Hmul & Hnear & _);
      [lia | vm_compute; discriminate |].
    exists k. split; [exact Hk|]. split; [exact Hmul | exact Hnear].
  - destruct (line_key_double_near 102 3) as (k & Hk & _ & _ & Hexact & _);
      [lia | vm_compute; discriminate |].
    rewrite Hk. apply Hexact. vm_compute. reflexivity.
Defined.

Lemma merge_by_line_defined_witness :
  merge_by_line [frag_100] 0 = Raise ZeroDivisionError
  /\ (exists out, merge_by_line [frag_100; frag_101] 3 = Ok out)
  /\ merge_by_line [frag_100; merged_plain_bold] 3 = Raise (KeyError "x").
Proof.
  split; [|split].
  - apply (merge_by_line_defined [frag_100] 0); [discriminate | reflexivity].
  - apply (merge_by_line_defined [frag_100; frag_101] 3); [lia|].
    repeat constructor; eexists; reflexivity.
  - apply (merge_by_line_defined [frag_100; merged_plain_bold] 3); [lia|].
    right. left. reflexivity.
Defined.

Lemma merge_by_line_lines_witness :
  StronglySorted Z.lt (map (key_of 3) [merged_plain_bold])
  /\ Forall (fun m => e_line_y m = inject_Z (key_of 3 m)
                      /\ clean_text (e_text m) = e_text m
                      /\ e_text m <> EmptyString
                      /\ is_Some (e_has_bold m)
                      /\ e_x m = None) [merged_plain_bold]
  /\ (length [merged_plain_bold] <= length [frag_plain_101; frag_bold_102])%nat.
Proof.
  apply (merge_by_line_lines [frag_plain_101; frag_bold_102] [merged_plain_bold] 3).
  vm_compute. reflexivity.
Defined.

Lemma merged_line_attributes_witness :
  exists group,
    group = filter (fun e => key_of 3 e = key_of 3 merged_plain_bold)
                   [frag_plain_101; frag_bold_102]
    /\ (exists e, e ∈ group /\ e_size e = e_size merged_plain_bold)
    /\ Forall (fun e => (e_size e <= e_size merged_plain_bold)%Q) group
    /\ e_has_bold merged_plain_bold = Some (existsb (fun e => is_bold (e_flags e)) group)
    /\ (exists rep,
          first_smallest x_of_element rep group
          /\ e_flags merged_plain_bold = e_flags rep /\ e_page merged_plain_bold = e_page rep
          /\ e_relative_x merged_plain_bold = e_relative_x rep
          /\ e_relative_y merged_plain_bold = e_relative_y rep)
    /\ (exists spans,
          spans ≡ₚ group
          /\ StronglySorted (fun a b => (x_of_element a <= x_of_element b)%Q) spans
          /\ e_text merged_plain_bold = clean_text (join " " (map e_text spans))).
Proof.
  apply (merged_line_attributes [frag_plain_101; frag_bold_102] [merged_plain_bold] 3).
  - lia.
  - vm_compute. reflexivity.
  - left.
Defined.

Lemma merge_by_line_keeps_ink_witness :
  (forall e, e ∈ [frag_plain_101; frag_bold_102] -> has_ink (e_text e) = true ->
     exists m, m ∈ [merged_plain_bold] /\ key_of 3 m = key_of 3 e)
  /\ (forall m, m ∈ [merged_plain_bold] ->
        exists e, e ∈ [frag_plain_101; frag_bold_102] /\ has_ink (e_text e) = true
                  /\ key_of 3 e = key_of 3 m).
Proof.
  apply (merge_by_line_keeps_ink [frag_plain_101; frag_bold_102] [merged_plain_bold] 3).
  - lia.
  - vm_compute. reflexivity.
Defined.

Lemma base_size_mode_witness :
  (positive_sizes body_lines = [] -> [18%Q] = [] /\ 12%Q = 12%Q)
  /\ (positive_sizes body_lines <> [] ->
      (0 < 12)%Q
      /\ (exists line, line ∈ body_lines /\ e_size line = 12%Q)
      /\ forall s, (count_of s (positive_sizes body_lines)
                    <= count_of 12%Q (positive_sizes body_lines))%nat).
Proof. apply (base_size_mode body_lines [18%Q] 12%Q). reflexivity. Defined.

Lemma significant_sizes_rare_witness :
  Forall (fun s =>
            (exists line, line ∈ body_lines /\ e_size line = s)
            /\ (12 < s)%Q
            /\ (5 * count_of s (positive_sizes body_lines) < 2 * length body_lines)%nat)
         [18%Q].
Proof. apply (significant_sizes_rare body_lines [18%Q] 12%Q). reflexivity. Defined.

Lemma is_heading_candidate_rules_witness :
  exists accepted,
    is_heading_candidate (rebold (fragment "NOTICE TO READERS" 12 0 1 72 270))
                         sample_sig_sizes 12
    = Ok accepted.
Proof.
  destruct (is_heading_candidate_rules (rebold (fragment "NOTICE TO READERS" 12 0 1 72 270))
              sample_sig_sizes 12 false) as (accepted & Hrun & _); [reflexivity|].
  exists accepted. exact Hrun.
Defined.

Lemma is_heading_candidate_raw_witness :
  is_heading_candidate (fragment "7" 12 0 1 72 100) sample_sig_sizes 12 = Ok false
  /\ is_heading_candidate (fragment "Annual Report" 24 0 1 72 100) sample_sig_sizes 12 = Ok true
  /\ is_heading_candidate frag_100 sample_sig_sizes 12 = Raise (KeyError "has_bold").
Proof.
  split; [|split].
  - apply (is_heading_candidate_raw (fragment "7" 12 0 1 72 100)); [reflexivity|].
    left. vm_compute. lia.
  - apply (is_heading_candidate_raw (fragment "Annual Report" 24 0 1 72 100));
      [reflexivity | vm_compute; lia | reflexivity |].
    apply existsb_Qeq_InA. reflexivity.
  - apply (is_heading_candidate_raw frag_100); [reflexivity | vm_compute; lia | reflexivity |].
    intros Hin. apply existsb_Qeq_InA in Hin. discriminate Hin.
Defined.

Lemma numbered_line_accepted_witness :
  is_heading_candidate (rebold (fragment "1. Introduction" 10 0 1 72 400)) [] 12 = Ok true.
Proof.
  apply (numbered_line_accepted _ _ _ false); [reflexivity | reflexivity | vm_compute; lia].
Defined.

Lemma heading_levels_range_witness :
  Forall (fun h => h_level h = "H1" \/ h_level h = "H2" \/ h_level h = "H3")
         (assign_heading_levels sample_candidates sample_sig_sizes).
Proof. apply (heading_levels_range sample_candidates sample_sig_sizes). cbn. lia. Defined.

Lemma heading_level_last_occurrence_witness :
  map h_level (assign_heading_levels [rebold (fragment "1.1 Scope" 14 0 1 72 210)]
                                     ([14] ++ 14 :: [18])%Q)
  = [level_name (length [14%Q] + 1)].
Proof.
  apply (heading_level_last_occurrence (rebold (fragment "1.1 Scope" 14 0 1 72 210))
           [14%Q] [18%Q] 14%Q).
  - reflexivity.
  - intros Hin. apply existsb_Qeq_InA in Hin. discriminate Hin.
Defined.

Lemma get_title_selected_witness :
  (exists e, e ∈ tie_page
             /\ get_title [tie_page] = clean_text (e_text e)
             /\ (10 < String.length (get_title [tie_page]))%nat
             /\ (e_relative_y e < float_0_3)%Q
             /\ forall e', e' ∈ tie_page ->
                  (10 < String.length (clean_text (e_text e')))%nat ->
                  (e_relative_y e' < float_0_3)%Q ->
                  (e_size e' <= e_size e)%Q)
  /\ get_title [[at_threshold]] = EmptyString.
Proof.
  split.
  - destruct (get_title_selected tie_page []) as (_ & _ & Hsome).
    apply (Hsome (fragment "Quarterly Review" 18 0 1 72 60)).
    + left.
    + vm_compute. lia.
    + reflexivity.
  - destruct (get_title_selected [at_threshold] []) as (_ & Hnone & _).
    apply Hnone. intros e He [_ Hy].
    apply list_elem_of_singleton in He. subst e.
    exact (Qlt_irrefl _ Hy).
Defined.

Lemma pipeline_never_fails_witness :
  exists o, outline_of_pages "dataset/report.pdf"
              [[fragment "1. Introduction" 12 0 1 72 300]; [fragment "2. Methods" 12 0 2 72 90]]
            = Ok o.
Proof.
  destruct (pipeline_never_fails sample_open "dataset/report.pdf" world0) as [Hrest _].
  apply (Hrest report_doc). reflexivity.
Defined.

Lemma outline_well_formed_witness :
  exists o,
    outline_of_pages "dataset/report.pdf"
      [[fragment "1. Introduction" 12 0 1 72 300]; [fragment "2. Methods" 12 0 2 72 90]]
    = Ok o
    /\ length (outline o) = 2%nat
    /\ NoDup (map heading_key (outline o))
    /\ Forall (fun h =>
                 (3 < String.length (h_text h))%nat
                 /\ clean_text (h_text h) = h_text h
                 /\ (h_level h = "H1" \/ h_level h = "H2" \/ h_level h = "H3")
                 /\ exists e,
                      e ∈ concat [[fragment "1. Introduction" 12 0 1 72 300];
                                  [fragment "2. Methods" 12 0 2 72 90]]
                      /\ e_page e = h_page h)
              (outline o).
Proof.
  eexists. split; [vm_compute; reflexivity|]. split; [reflexivity|].
  eapply (outline_well_formed "dataset/report.pdf").
  vm_compute. reflexivity.
Defined.

Lemma blank_document_outline_witness :
  exists w',
    extract_outline (fun _ => Ok blank_doc) "annual_report.pdf" world0
    = (Ok {| title := str_title (replace_underscores (stem "annual_report.pdf"));
             outline := [] |}, w')
    /\ stdout w' = stdout world0.
Proof.
  apply (blank_document_outline (fun _ => Ok blank_doc) "annual_report.pdf" blank_doc world0).
  - reflexivity.
  - repeat constructor. eexists. split; reflexivity.
Defined.

Lemma process_and_save_output_failure_witness :
  process_and_save sample_open (fun _ => false) always "dataset/report.pdf" "output" world0
  = (Raise (OSError ("Permission denied: " +:+ "output")), world0)
  /\ exists w',
       process_and_save sample_open always locked "dataset/damaged.pdf" "output" world0
       = (Raise (OSError ("Permission denied: "
                          +:+ output_file "output" "dataset/damaged.pdf")), w')
       /\ written w' = written world0.
Proof.
  split.
  - apply (process_and_save_output_failure sample_open (fun _ => false) always). reflexivity.
  - apply (process_and_save_output_failure sample_open always locked); reflexivity.
Defined.

Lemma batch_files_witness :
  exists w',
    process_each sample_open always always
                 ["dataset/report.pdf"; "dataset/corrupt.pdf"] "output" world0
    = (Ok tt, w')
    /\ written w' !! output_file "output" "dataset/report.pdf"
       = Some (outline_record sample_open "dataset/report.pdf")
    /\ written w' !! output_file "output" "dataset/collide.pdf" = None.
Proof.
  destruct (batch_files sample_open always always
              ["dataset/report.pdf"; "dataset/corrupt.pdf"] "output" world0)
    as (w' & Hrun & Hkept & Hother); [reflexivity | intros pdf _; reflexivity |].
  exists w'. split; [exact Hrun|]. split.
  - apply (Hkept [] "dataset/report.pdf" ["dataset/corrupt.pdf"]); [reflexivity|].
    intros Hin. apply list_elem_of_singleton in Hin. discriminate Hin.
  - rewrite Hother; [reflexivity|].
    intros Hin. apply list_elem_of_In in Hin. vm_compute in Hin.
    destruct Hin as [Hin|[Hin|[]]]; discriminate Hin.
Defined.

Lemma batch_stops_at_unwritable_witness :
  exists w',
    process_each sample_open always locked
                 (["dataset/report.pdf"] ++ "dataset/damaged.pdf" :: ["dataset/collide.pdf"])
                 "output" world0
    = (Raise (OSError ("Permission denied: "
                       +:+ output_file "output" "dataset/damaged.pdf")), w')
    /\ is_Some (written w' !! output_file "output" "dataset/report.pdf")
    /\ written w' !! output_file "output" "dataset/collide.pdf" = None.
Proof.
  destruct (batch_stops_at_unwritable sample_open always locked
              ["dataset/report.pdf"] ["dataset/collide.pdf"] "dataset/damaged.pdf"
              "output" world0)
    as (w' & Hrun & Hbefore & Hother).
  - reflexivity.
  - intros p Hp. apply list_elem_of_singleton in Hp as ->. reflexivity.
  - reflexivity.
  - exists w'. split; [exact Hrun|]. split.
    + apply Hbefore. left.
    + rewrite Hother; [reflexivity|].
      intros Hin. apply list_elem_of_singleton in Hin. discriminate Hin.
Defined.
